(* ===== verification/_CoqProject ===== *)
-Q . S2P
Prelude.v
Keras.v
Tools.v
Masks.v
Pruning.v
Runner.v
Script.v
Progress.v
Paths.v
Typing.v
Cli.v
