(* ===== verification/Prelude.v ===== *)
(** * A verification library for cool-runner

    cool-runner is a research harness for pruning and robustness studies of
    convolutional networks.  Its three Python sources are modelled here:

    - [src/modules/tfhi/tools.py]: helpers over a Keras model (precision
      policy, copying weights between models, resetting a model to a
      checkpoint while skipping the variables whose name holds a keyword,
      clipping lists of tensors, saving and reloading optimizer state,
      counting the parameters of a model).
    - [src/experimental/truning/train_for_robustness.py]: the training
      recipe.  Per-kernel mask distributions are sampled into kernel masks,
      regularised, updated by a clipped gradient step and clipped in place;
      the outer loop trains kernels, shrinks the density by a factor 0.8,
      prunes, resets every non-mask weight to a checkpoint and re-applies the
      pruning, fifty times.
    - [src/run.py]: the experiment-queue runner.  It parses the command
      line with [argparse] ([--dry], [--exp], [--pick], everything else
      passed on to the YAML loader), loads the queue, and for each entry it
      skips entries that were not picked or whose [Name] is empty or
      ["skip"], stops after printing in a dry run, otherwise runs the module
      of the entry, appends the updated record to its YAML log and queues a
      notification; a [KeyboardInterrupt] skips only the current entry; at
      the end the queue is closed and the notifications are flushed.

    The library is split by component; each file opens with a comment that
    says what it holds.

    - [Prelude] (this file): Python exceptions as values ([exn]) and the
      result type [result] with stdpp's monad classes, Python truthiness and
      substring test ([str_contains] for [k in s]), [zip] as [combine], the
      shared lemmas and the hint database [cr].
    - [Keras]: the framework and standard-library calls the code makes:
      tensors as a shape and a flat list of rationals ([clip_by_value],
      [ones_like], [zeros_like], [tf_abs], [reduce_sum]), variables
      ([tfvar], [assign] with its shape check), models, h5 checkpoints
      ([load_weights], [save_weights]), pickle and YAML files over a file
      system of files and directories ([write_file], [append_yaml],
      [os_makedirs], [os_path_dirname]), the weights of an optimizer and
      the GPU configuration of [tf.config].
    - [Tools]: one definition per function of tools.py, except the two
      named below under Not modelled.
    - [Masks]: the mask sampling, regularisation and update steps of
      train_for_robustness.py over an explicit store of variables, where the
      aliasing of [mask_updatable] (each distribution listed twice) is kept;
      the optimizer and the gradient tape are the classes [Optimizer] and
      [Tape]; the steps also form the relation [mstep].
    - [Pruning]: the outer pruning and checkpoint-reset loop, with the
      density in binary64 floats (Python's [float]); SNIP, the pruning of the
      model, the clone and the dataset are the classes [Framework] and
      [Dataset].
    - [Runner]: the queue loop of run.py as an executable function over an
      explicit state (log files as a [gmap] from paths to the documents
      appended, the notification buffer, the trace of entry statuses) and as
      a small-step relation, with the refinement between the two.
    - [Script]: the module-level statements of train_for_robustness.py in
      the order they run: the setup (checkpoint table, distributions
      created beside the kernel masks, checkpoint loaded, distributions set
      to 5.0, masks sampled), the fifty pruning iterations, the final phase
      and the final binary masks, composed into [script].
    - [Progress]: the laws of the framework interface and the proof that
      the whole script returns a result under them.
    - [Typing]: what a run of the script keeps of every variable (name,
      trainable flag, shape), relying only on the shape check of [assign].
    - [Paths]: the directories [os.makedirs] creates, against a reference
      walk defined by well-founded recursion ([Equations]).
    - [Cli]: lines 12-33 of run.py: [arg_parser.parse_known_args()] as
      CPython 3.11's [argparse] runs it for the four actions of the parser
      (the classification of every string by [_parse_optional], the loop
      of [_parse_known_args] with [consume_optional], [int()] for
      [--pick]; help and usage errors are exits in the monad [cli]), the
      loader as the interface [QueueLoader], and [run_py], the script from
      the command line to the end of the queue.

    What the theorems show, by group.  Runner: the executable loop refines
    the step relation; the trace of a run is a function of the queue alone
    (each entry's status from the guards and its module's outcome, the run
    ending at the first exception other than [KeyboardInterrupt]);
    completed entries are logged in order after the earlier documents; up
    to the trace ([rs_equiv], an equivalence with its [Proper] use by
    setoid rewriting), a run with [--pick l] is the run of the picked
    sub-queue and an entry with an empty [Name] or ["skip"] has no effect; dry runs,
    interrupts and crashes behave as the code says (a crash skips the
    final flush).  Masks: the distributions stay in [-10, 10] after each
    mask update and on every reachable state; each sampled mask entry is
    1, -1 or 0 according to the draw, the magnitude and the sign of its
    probability; each step writes only the variables it should.  Pruning
    and Tools: the checkpoint reset keeps the kernel masks and restores
    the rest; the loop hands SNIP the sparsities of each iteration; the
    final masks are [m >= 0] of their distributions, entry by entry; a
    model saved and loaded into another model gives it its values; the
    error paths of [set_precision], [print_model_info] and
    [update_optimizer].  Script and Progress: the setup establishes the
    mask invariant and gives all-ones masks; the script's final masks are
    all ones, so the pruning is overwritten; the script runs to its end
    without raising when the interfaces keep their laws; and a run that
    returns keeps the type of every variable.  Cli: [+key=value]
    overrides pass through to the loader unchanged and in order; [--pick]
    reads back the integers [str()] prints, negative ones included, but
    [--pick=z] takes only [z]; [run.py --pick z1 .. zn] runs the picked
    sub-queue; with [--dry] before any ['--'] the whole script writes no
    file.  Lemmas that are not among the claims document two facts used
    in the findings: the binary64 density is not the exact [0.8 ^ n], and
    the fuel of [os.makedirs] is enough ([Paths]).

    Identifications.  train_for_robustness.py imports
    [reset_weights_to_checkpoint], [clip_many] and
    [set_kernel_masks_values] from [experimental.toolkit], which is not in
    the repository; the model uses the functions of the same names and
    signatures in tools.py ([Tools.reset_weights_to_checkpoint],
    [Tools.clip_many]; tools.py's own docstring of [clone_model] refers to
    its helper as [toolkit.set_all_weights_from_model]), and
    [set_kernel_masks_values] as the pairwise assignment its name and call
    sites describe.  In run.py the [isinstance] assertion (line 40) and
    [exp._reset_usage_counts] (lines 54-55, bookkeeping of the
    [Experiment] record) are not modelled; [KeyboardInterrupt] is modelled
    as raised by [module.main], not by [os.makedirs] or [open]; an
    existing log that is not a YAML stream is appended to as if empty.
    [os.makedirs] is modelled as the chain of [os.path.dirname]
    ancestors, without the error a file standing at an ancestor path
    would raise.  Lines 12-13 of train_for_robustness.py call
    [utils.set_memory_growth()] and [utils.set_precision(16)] of tools/,
    which is not in the repository; tools.py's functions of those names
    are modelled in [Tools], and [Script.script] starts after them, as
    they change no variable of the store.

    Bounds and fuel.  Two definitions take fuel.  [dir_chain] (the
    ancestors [os.makedirs] creates) takes the length of the path: each
    step of [os.path.dirname] drops at least one character until the path
    is a fixed point of it (made of slashes), so that is enough; [Paths]
    proves it.  [Cli.consume], the loop of [_parse_known_args], takes the
    number of strings: each round uses at least one, and [consume_fuel]
    shows that any larger fuel gives the same result.  [Cli.digits_of]
    (printing an integer) takes [Z.log2 n + 1], at least the number of
    decimal digits of [n].  The loops of the code
    ([for _ in range(50)], [range(EPOCHS)], [take(STEPS)], the queue) are
    structural recursion on their counts and lists.

    Numbers.  Tensor entries are exact rationals [Q]: the code only compares,
    clips, takes signs and absolute values and sums them, and every theorem
    about them is about order and shape, which rounding does not change.  The
    density of the pruning loop is the exception: it is computed in binary64
    floats ([PrimFloat]) as Python does, because the spec states an exact
    equation about it.

    External collaborators (gradient tape, optimizers, SNIP pruning, the
    dataset, the dynamically imported experiment module, the notification
    service) are not modelled; they are the typeclass interfaces of the files
    that use them, and every theorem holds for every instance.

    Not modelled: printing and progress bars, validation and
    visualisation (no state the theorems use), [build_optimizer] and
    [get_optimizer_lr_metric] (their effect is on the slot variables and
    the learning-rate schedule inside the Keras optimizer, whose
    mathematics the spec leaves out), the Unicode digits and spaces that
    [argparse] and [int()] accept beyond ASCII, and the modules the code
    imports from tools/ and experimental/toolkit, which are not in the
    repository: the YAML loader with its command-line overrides, the
    [Experiment] record (its behaviour that the runner relies on is
    modelled from the spec and marked so in the manifest), SNIP pruning,
    the datasets and the model architectures (the interfaces of [Pruning]). *)

From Stdlib Require Export QArith Qminmax Qabs Lqa.
From stdpp Require Export base list gmap strings.

(** ** Python exceptions and results *)

(** The exceptions the modelled code raises or catches. *)
Inductive exn : Type :=
  | NameError (msg : string)
  | NotImplementedError (msg : string)
  | ValueError (msg : string)
  | ZeroDivisionError
  | FileNotFoundError (path : string)
  | OSError (msg : string)
  | UnpicklingError
  | KeyboardInterrupt
  | ModuleError (msg : string).

#[export] Instance exn_eq_dec : EqDecision exn.
Proof. solve_decision. Defined.

(** A computation that returns a value or raises. *)
Inductive result (A : Type) : Type :=
  | Ok (a : A)
  | Raise (e : exn).
Arguments Ok {_} _.
Arguments Raise {_} _.

#[export] Instance result_ret : MRet result := fun _ a => Ok a.
#[export] Instance result_bind : MBind result :=
  fun A B f m => match m with Ok a => f a | Raise e => Raise e end.
#[export] Instance result_fmap : FMap result :=
  fun A B f m => match m with Ok a => Ok (f a) | Raise e => Raise e end.

Declare Scope cr_scope.
Delimit Scope cr_scope with cr.
Open Scope cr_scope.

(** [raise e] reads like the Python statement it models. *)
Notation "'raise' e" := (Raise e) (at level 10) : cr_scope.

(** Syntactic equality of rationals (the code compares tensors by value
    only through [==] of [Qeq]; this instance is for the records). *)
#[export] Instance Q_eq_dec : EqDecision Q.
Proof.
  intros [a b] [c d].
  destruct (decide (a = c)), (decide (b = d));
    [left; congruence | right; congruence ..].
Defined.

(** ** Python strings *)

(** [str_contains k s] is Python's [k in s] on strings. *)
Fixpoint str_contains (k s : string) : bool :=
  String.prefix k s ||
  match s with
  | EmptyString => false
  | String _ s' => str_contains k s'
  end.

(** Truthiness of an optional string: [None] and [""] are false. *)
Definition str_truthy (o : option string) : bool :=
  match o with
  | Some (String _ _) => true
  | _ => false
  end.

(** ** Shared lemmas *)

Lemma bind_Ok {A B} (a : A) (f : A -> result B) : (Ok a ≫= f) = f a.
Proof. reflexivity. Qed.

Lemma bind_Raise {A B} (e : exn) (f : A -> result B) : (Raise e ≫= f) = Raise e.
Proof. reflexivity. Qed.

Lemma bind_Ok_inv {A B} (m : result A) (f : A -> result B) (b : B) :
  (m ≫= f) = Ok b -> exists a, m = Ok a /\ f a = Ok b.
Proof. destruct m; simpl; [eauto | discriminate]. Qed.

(** Python's [zip] truncates to the shorter list, like [combine]. *)
Lemma lookup_combine {A B} (l1 : list A) (l2 : list B) i :
  combine l1 l2 !! i = (x ← l1 !! i; y ← l2 !! i; Some (x, y)).
Proof.
  revert l2 i; induction l1 as [|x l1 IH]; intros [|y l2] [|i]; simpl;
    try reflexivity.
  - by destruct (l1 !! i).
  - apply IH.
Qed.

(** A Python list comprehension [[f(x) for x in l]] at index [i]. *)
Lemma lookup_map {A B} (f : A -> B) (l : list A) i : map f l !! i = f <$> l !! i.
Proof. exact (list_lookup_fmap f l i). Qed.

Lemma str_contains_prefix k s : String.prefix k s = true -> str_contains k s = true.
Proof. destruct s; simpl; intros ->; reflexivity. Qed.

Lemma str_contains_cons k a s : str_contains k s = true -> str_contains k (String a s) = true.
Proof. simpl. intros ->. apply orb_true_r. Qed.

(** Clipping a rational to [lo, hi], in the order [tf.clip_by_value]
    applies it: [max (min x hi) lo]. *)
Definition qclip (lo hi x : Q) : Q := Qmax (Qmin x hi) lo.

Lemma qclip_lo lo hi x : (lo <= qclip lo hi x)%Q.
Proof. apply Q.le_max_r. Qed.

Lemma qclip_hi lo hi x : (lo <= hi)%Q -> (qclip lo hi x <= hi)%Q.
Proof.
  intros H. apply Q.max_lub; [apply Q.le_min_r | exact H].
Qed.

Lemma qclip_id lo hi x : (lo <= x)%Q -> (x <= hi)%Q -> (qclip lo hi x == x)%Q.
Proof.
  intros H1 H2. unfold qclip. rewrite Q.min_l by exact H2.
  apply Q.max_l, H1.
Qed.

Create HintDb cr discriminated.
Create Rewrite HintDb cr_rw.
#[export] Hint Resolve qclip_lo qclip_hi : cr.
#[export] Hint Rewrite @bind_Ok @bind_Raise @lookup_combine @lookup_map : cr_rw.

(** Case analysis on the matches and [if]s of a goal, then cleanup. *)
Ltac cr_cases :=
  repeat (simpl in *; case_match; simplify_eq); try done.

(** Case on the first computation [m] bound in [m ≫= f] in the goal; the
    [Raise] branch is closed when the goal is [Raise _ = Ok _ -> _]. *)
Ltac result_case :=
  match goal with
  | |- context [@mbind result _ _ _ _ ?m] =>
      let E := fresh "E" in
      destruct m as [?|?] eqn:E; simpl; [|try discriminate]
  end.
