(* ===== verification/Keras.v ===== *)
(** * The framework primitives the code calls

    Tensors, variables, models, checkpoint files and optimizer weights, with
    the behaviour of the TensorFlow/Keras and Python calls that cool-runner
    makes: [tf.clip_by_value], [Variable.assign] and its shape check,
    [ones_like]/[zeros_like], [reduce_sum], [Model.load_weights] on an h5
    file, [Optimizer.get_weights]/[set_weights], [os.path.dirname],
    [os.makedirs] and the GPU settings of [tf.config].  None of this is
    code of the repository; it is the environment that the components of
    [Tools], [Masks], [Pruning] and [Runner] are verified against. *)

From S2P Require Import Prelude.

(** ** Tensors *)

(** A tensor is its shape and its entries in row-major order. *)
Record tensor := mkT { tshape : list nat; tdata : list Q }.

#[export] Instance tensor_eq_dec : EqDecision tensor.
Proof. solve_decision. Defined.

(** [TensorShape.num_elements]. *)
Definition num_elements (s : list nat) : nat := foldr Nat.mul 1 s.

(** The entries fill the shape. *)
Definition tensor_wf (t : tensor) : Prop := length (tdata t) = num_elements (tshape t).

Definition tmap (f : Q -> Q) (t : tensor) : tensor := mkT (tshape t) (map f (tdata t)).

(** [tf.clip_by_value(t, lo, hi)] is [maximum(minimum(t, hi), lo)]. *)
Definition clip_by_value (t : tensor) (lo hi : Q) : tensor := tmap (qclip lo hi) t.

Definition tf_abs (t : tensor) : tensor := tmap Qabs t.

Definition reduce_sum (t : tensor) : Q := foldr Qplus 0%Q (tdata t).

Definition ones_like (t : tensor) : tensor :=
  mkT (tshape t) (replicate (length (tdata t)) 1%Q).

Definition zeros_like (t : tensor) : tensor :=
  mkT (tshape t) (replicate (length (tdata t)) 0%Q).

(** Every entry lies in [lo, hi]. *)
Definition in_range (lo hi : Q) (t : tensor) : Prop :=
  Forall (fun x => lo <= x <= hi)%Q (tdata t).

(** ** Variables *)

Record tfvar := mkVar { vname : string; vval : tensor; vtrainable : bool }.

#[export] Instance tfvar_eq_dec : EqDecision tfvar.
Proof. solve_decision. Defined.

Definition set_vval (v : tfvar) (t : tensor) : tfvar :=
  mkVar (vname v) t (vtrainable v).

(** [v.assign(t)]: the shapes must agree, or TensorFlow raises
    [ValueError]. *)
Definition assign (v : tfvar) (t : tensor) : result tfvar :=
  if decide (tshape t = tshape (vval v)) then Ok (set_vval v t)
  else raise (ValueError "Shapes are incompatible").

(** ** Models *)

Inductive layer_kind := Dense | Conv2D | BatchNormalization | Dropout | OtherLayer.

#[export] Instance layer_kind_eq_dec : EqDecision layer_kind.
Proof. solve_decision. Defined.

(** A layer, with the attributes the code inspects ([hasattr] is [Some]). *)
Record layer := mkLayer {
  lkind : layer_kind;
  lkernel : option tensor;
  lbias : option tensor;
  lbeta : option tensor;
  lgamma : option tensor
}.

(** A model: its layers and its variables, [model.weights], in order. *)
Record model := mkModel { mlayers : list layer; mweights : list tfvar }.

Definition trainable_weights (m : model) : list tfvar := filter vtrainable (mweights m).

Definition weight_shapes (ws : list tfvar) : list (list nat) := map (fun w => tshape (vval w)) ws.

(** ** Files *)

(** The files the code reads and writes: h5 weight files, pickled lists of
    arrays, and YAML streams of documents of type [D]. *)
Inductive file (D : Type) :=
  | H5Weights (vals : list tensor)
  | Pickled (vals : list tensor)
  | YamlStream (docs : list D).
Arguments H5Weights {_} _.
Arguments Pickled {_} _.
Arguments YamlStream {_} _.

Record fs (D : Type) := mkFs { fs_files : gmap string (file D); fs_dirs : gset string }.
Arguments mkFs {_} _ _.
Arguments fs_files {_} _.
Arguments fs_dirs {_} _.

Definition slash : Ascii.ascii := Ascii.ascii_of_nat 47.

Fixpoint drop_while {A} (f : A -> bool) (l : list A) : list A :=
  match l with
  | [] => []
  | x :: l' => if f x then drop_while f l' else l
  end.

(** [os.path.dirname(p)]: the part before the last slash, with trailing
    slashes removed unless it is made of slashes only. *)
Definition os_path_dirname (p : string) : string :=
  let cs := String.list_ascii_of_string p in
  let head := reverse (drop_while (fun c => bool_decide (c <> slash)) (reverse cs)) in
  let stripped := reverse (drop_while (fun c => bool_decide (c = slash)) (reverse head)) in
  String.string_of_list_ascii (if bool_decide (stripped = []) then head else stripped).

(** The directory and its ancestors, as [os.makedirs] creates them; the
    fuel is the length of the path, which bounds the number of ancestors. *)
Fixpoint dir_chain (fuel : nat) (d : string) : list string :=
  match fuel with
  | 0 => []
  | S f => if String.eqb d "" then [] else d :: dir_chain f (os_path_dirname d)
  end.

Section Files.
Context {D : Type}.
Implicit Types F : fs D.

(** [os.makedirs(d, exist_ok=True)]. *)
Definition os_makedirs (d : string) F : fs D :=
  mkFs (fs_files F) (list_to_set (dir_chain (String.length d) d) ∪ fs_dirs F).

(** Opening [p] for writing needs its directory. *)
Definition parent_exists F (p : string) : bool :=
  let d := os_path_dirname p in String.eqb d "" || bool_decide (d ∈ fs_dirs F).

(** [open(p, "w"/"wb")] followed by a write of [c]. *)
Definition write_file (p : string) (c : file D) F : result (fs D) :=
  if parent_exists F p then Ok (mkFs (<[p := c]> (fs_files F)) (fs_dirs F))
  else raise (FileNotFoundError p).

(** [open(p, "a")] followed by [yaml.safe_dump(doc, explicit_start=True)]:
    one more document at the end of the stream. *)
Definition append_yaml (p : string) (doc : D) F : result (fs D) :=
  let docs := match fs_files F !! p with Some (YamlStream ds) => ds | _ => [] end in
  if parent_exists F p then Ok (mkFs (<[p := YamlStream (docs ++ [doc])]> (fs_files F)) (fs_dirs F))
  else raise (FileNotFoundError p).

(** [pickle.load(open(p, "rb"))]. *)
Definition pickle_load F (p : string) : result (list tensor) :=
  match fs_files F !! p with
  | None => raise (FileNotFoundError p)
  | Some (Pickled vs) => Ok vs
  | Some _ => raise UnpicklingError
  end.

(** Assign values to variables pairwise, as loading a checkpoint does. *)
Fixpoint assign_all (ws : list tfvar) (vals : list tensor) : result (list tfvar) :=
  match ws, vals with
  | [], [] => Ok []
  | w :: ws', v :: vals' => w' ← assign w v; rest ← assign_all ws' vals'; mret (w' :: rest)
  | _, _ => raise (ValueError "Weight count mismatch")
  end.

(** [model.load_weights(p)] on an h5 file. *)
Definition load_weights (m : model) (p : string) F : result model :=
  match fs_files F !! p with
  | None => raise (FileNotFoundError p)
  | Some (H5Weights vals) => ws ← assign_all (mweights m) vals; mret (mkModel (mlayers m) ws)
  | Some _ => raise (OSError "Unable to open file")
  end.

(** [model.save_weights(p, save_format="h5")]. *)
Definition save_weights (m : model) (p : string) F : result (fs D) :=
  write_file p (H5Weights (map vval (mweights m))) F.
End Files.

(** ** Optimizers *)

(** What [get_weights] returns: the iteration counter and the slot
    variables, which exist only once the optimizer has been applied. *)
Record optimizer := mkOpt { opt_weights : list tensor }.

(** [OptimizerV2.set_weights]: the number of weights, then every shape,
    must agree, or it raises [ValueError]. *)
Definition opt_set_weights (o : optimizer) (ws : list tensor) : result optimizer :=
  if decide (length (opt_weights o) = length ws) then
    if decide (map tshape (opt_weights o) = map tshape ws) then Ok (mkOpt ws)
    else raise (ValueError "Optimizer weight shape not compatible")
  else raise (ValueError "Optimizer weight count mismatch").

Example dirname_examples :
  os_path_dirname "logs/run1/out.yaml" = "logs/run1" /\ os_path_dirname "out.yaml" = ""
  /\ os_path_dirname "/x" = "/" /\ os_path_dirname "a//b" = "a".
Proof. vm_compute. auto. Qed.

(** ** GPU configuration *)

(** What [tf.config] keeps of the GPUs: the devices visible to the runtime
    and the devices with memory growth on; a device is its index. *)
Record gpu_config := GpuConfig { visible_devices : list nat; memory_growth : gset nat }.

(** [tf.config.set_visible_devices(devices, "GPU")]. *)
Definition tf_set_visible_devices (ds : list nat) (c : gpu_config) : gpu_config :=
  GpuConfig ds (memory_growth c).

(** [tf.config.experimental.set_memory_growth(gpu, True)]. *)
Definition tf_set_memory_growth (g : nat) (c : gpu_config) : gpu_config :=
  GpuConfig (visible_devices c) ({[g]} ∪ memory_growth c).

(** ** Lemmas on the primitives *)

Lemma clip_by_value_shape t lo hi : tshape (clip_by_value t lo hi) = tshape t.
Proof. reflexivity. Qed.

Lemma clip_by_value_in_range t lo hi :
  (lo <= hi)%Q -> in_range lo hi (clip_by_value t lo hi).
Proof.
  intros H. unfold in_range, clip_by_value, tmap; simpl.
  apply Forall_map, Forall_forall. intros x _.
  split; [apply qclip_lo | by apply qclip_hi].
Qed.

Lemma assign_Ok v t : tshape t = tshape (vval v) -> assign v t = Ok (set_vval v t).
Proof. intros H. unfold assign. by rewrite decide_True. Qed.

Lemma assign_Ok_inv v t v' : assign v t = Ok v' -> v' = set_vval v t /\ tshape t = tshape (vval v).
Proof. unfold assign. case_decide; intros; simplify_eq; auto. Qed.

Lemma assign_all_Ok ws vals :
  weight_shapes ws = map tshape vals ->
  assign_all ws vals = Ok (zip_with set_vval ws vals).
Proof.
  revert vals; induction ws as [|w ws IH]; intros [|v vals]; simpl; intros H;
    try discriminate; [done|].
  injection H as H1 H2. rewrite assign_Ok by done. by rewrite IH.
Qed.

Lemma assign_all_Ok_inv ws vals ws' :
  assign_all ws vals = Ok ws' ->
  ws' = zip_with set_vval ws vals /\ weight_shapes ws = map tshape vals.
Proof.
  revert vals ws'; induction ws as [|w ws IH]; intros [|v vals] ws'; simpl;
    try discriminate; [by intros [= <-]|].
  destruct (assign w v) as [w'|] eqn:Ha; simpl; [|discriminate].
  destruct (assign_all ws vals) as [r|] eqn:Hr; simpl; [|discriminate].
  intros [= <-]. apply assign_Ok_inv in Ha as [-> ->].
  destruct (IH _ _ Hr) as [-> ->]. done.
Qed.

Lemma set_vval_name v t : vname (set_vval v t) = vname v.
Proof. reflexivity. Qed.

Lemma dir_chain_head fuel d : fuel <> 0 -> d <> "" -> d ∈ dir_chain fuel d.
Proof.
  destruct fuel; [done|]. intros _ Hd. simpl.
  destruct (String.eqb_spec d ""); [done|]. by left.
Qed.

Lemma parent_exists_makedirs {D} (F : fs D) p :
  parent_exists (os_makedirs (os_path_dirname p) F) p = true.
Proof.
  unfold parent_exists, os_makedirs; simpl.
  destruct (String.eqb_spec (os_path_dirname p) "") as [|Hd]; [done|]. simpl.
  apply bool_decide_eq_true, elem_of_union_l, elem_of_list_to_set, dir_chain_head; [|done].
  destruct (os_path_dirname p); simpl; done.
Qed.

Lemma makedirs_files {D} (F : fs D) d : fs_files (os_makedirs d F) = fs_files F.
Proof. reflexivity. Qed.

Lemma makedirs_dirs_mono {D} (F : fs D) d : fs_dirs F ⊆ fs_dirs (os_makedirs d F).
Proof. unfold os_makedirs; simpl. set_solver. Qed.

Lemma parent_exists_mono {D} (F F' : fs D) p :
  fs_dirs F ⊆ fs_dirs F' -> parent_exists F p = true -> parent_exists F' p = true.
Proof.
  unfold parent_exists. intros Hs. rewrite !orb_true_iff, !bool_decide_eq_true.
  intros [H|H]; [by left | right; set_solver].
Qed.

#[export] Hint Resolve clip_by_value_in_range assign_Ok assign_all_Ok parent_exists_makedirs : cr.
