(* ===== verification/Tools.v ===== *)
(** * tools.py: the model and optimizer helpers

    One definition per function of [src/modules/tfhi/tools.py], over the
    framework primitives of [Keras]: the visible GPUs and their memory
    growth, the precision policy and its error,
    copying weights between models with the shape guard, cloning, resetting a
    model to a checkpoint while skipping the variables whose name contains a
    keyword, [clip_many] in both of its modes, saving and reloading weights
    and optimizer state (with the directory creation and the tolerated
    [ValueError]), the parameter counts of [print_model_info] and the loss
    aliases.  The theorems give the result of each function on every branch,
    the round trips between the save and load functions, and the bounds of
    [clip_many]. *)

From S2P Require Import Prelude Keras.

(** ** Definitions *)

(** [set_memory_growth()]: memory growth on for every visible GPU, in
    the order [tf.config.get_visible_devices("GPU")] lists them. *)
Definition set_memory_growth (c : gpu_config) : gpu_config :=
  fold_left (fun c gpu => tf_set_memory_growth gpu c) (visible_devices c) c.

(** The argument of [set_visible_gpu]: an iterable of devices or one
    device. *)
Inductive gpu_arg := GpuIterable (gpus : list nat) | GpuSingle (gpu : nat).

(** [if isinstance(gpus, abc.Iterable)]: an iterable is used as it is,
    anything else is wrapped in a list. *)
Definition gpu_devices (gpus : gpu_arg) : list nat :=
  match gpus with
  | GpuIterable l => l
  | GpuSingle g => [g]
  end.

(** [set_visible_gpu(gpus)]: those devices become the visible GPUs. *)
Definition set_visible_gpu (gpus : gpu_arg) (c : gpu_config) : gpu_config :=
  tf_set_visible_devices (gpu_devices gpus) c.

Inductive policy := MixedFloat16 | Float32 | Float64.

#[export] Instance policy_eq_dec : EqDecision policy.
Proof. solve_decision. Defined.

(** [set_precision(precision)]: the new global policy, or [NameError] (and
    the global policy is not changed). *)
Definition set_precision (precision : Z) : result policy :=
  if Z.eqb precision 16 then Ok MixedFloat16
  else if Z.eqb precision 32 then Ok Float32
  else if Z.eqb precision 64 then Ok Float64
  else raise (NameError "Available precision: 16, 32, 64.").

(** [get_kernels(model)]: the kernels of the layers that have one. *)
Definition get_kernels (m : model) : list tensor := omap lkernel (mlayers m).

(** The loop of [set_all_weights_from_model]: over [zip(model.weights,
    source_model.weights)], copy the value when the shapes agree (so the
    [assign] succeeds), otherwise print a warning naming the variable.
    Returns the new weights and the names warned about, in order. *)
Fixpoint copy_weights (ws1 ws2 : list tfvar) : list tfvar * list string :=
  match ws1, ws2 with
  | w1 :: r1, w2 :: r2 =>
      let '(r, warned) := copy_weights r1 r2 in
      if decide (tshape (vval w1) = tshape (vval w2))
      then (set_vval w1 (vval w2) :: r, warned)
      else (w1 :: r, vname w1 :: warned)
  | _, _ => (ws1, [])
  end.

Definition set_all_weights_from_model (m src : model) : model * list string :=
  let '(ws, warned) := copy_weights (mweights m) (mweights src) in
  (mkModel (mlayers m) ws, warned).

(** [clone_model(model)]: [fresh] is the model that
    [tf.keras.models.clone_model] builds, with the same layers and newly
    initialised weights; the weights of [model] are then copied into it. *)
Definition clone_model (m fresh : model) : model :=
  fst (set_all_weights_from_model fresh m).

(** [if skip_keyword and skip_keyword in w1.name]. *)
Definition skip_matches (skip_keyword : option string) (name : string) : bool :=
  match skip_keyword with
  | Some k => str_truthy (Some k) && str_contains k name
  | None => false
  end.

(** The loop of [reset_weights_to_checkpoint]: returns the new weights and
    the number [skipped]. *)
Fixpoint reset_loop (ws1 ws2 : list tfvar) (skip_keyword : option string)
  : result (list tfvar * nat) :=
  match ws1, ws2 with
  | w1 :: r1, w2 :: r2 =>
      if skip_matches skip_keyword (vname w1) then
        '(r, n) ← reset_loop r1 r2 skip_keyword; mret (w1 :: r, S n)
      else
        w1' ← assign w1 (vval w2);
        '(r, n) ← reset_loop r1 r2 skip_keyword; mret (w1' :: r, n)
  | _, _ => mret (ws1, 0)
  end.

(** [reset_weights_to_checkpoint(model, ckp, skip_keyword)]: [fresh] is the
    clone [temp] before [load_weights]; with a checkpoint its weights are
    loaded from the file.  Returns the reset model and [skipped]. *)
Definition reset_weights_to_checkpoint {D} (m : model) (ckp skip_keyword : option string)
    (fresh : model) (F : fs D) : result (model * nat) :=
  temp ← (match ckp with
          | Some p => if str_truthy ckp then load_weights fresh p F else mret fresh
          | None => mret fresh
          end);
  '(ws, skipped) ← reset_loop (mweights m) (mweights temp) skip_keyword;
  mret (mkModel (mlayers m) ws, skipped).

(** [clip_many(values, clip_at, clip_from, inplace)]: the values after the
    call and what it returns ([None] in place, the clipped list
    otherwise). *)
Definition clip_many (values : list tensor) (clip_at : Q) (clip_from : option Q) (inplace : bool)
  : list tensor * option (list tensor) :=
  let lo := match clip_from with None => (- clip_at)%Q | Some c => c end in
  let clipped := map (fun v => clip_by_value v lo clip_at) values in
  if inplace then (clipped, None) else (values, Some clipped).

(** [concatenate_flattened(arrays)]. *)
Definition concatenate_flattened (arrays : list tensor) : list Q := concat (map tdata arrays).

(** The layer counts of [print_model_info]: a [Counter], whose keys keep
    the order in which they were first counted. *)
Fixpoint counter_incr (k : string) (c : list (string * nat)) : list (string * nat) :=
  match c with
  | [] => [(k, 1)]
  | (k', n) :: c' => if String.eqb k k' then (k', S n) :: c' else (k', n) :: counter_incr k c'
  end.

Definition layer_count_key (k : layer_kind) : option string :=
  match k with
  | Dense => Some "Dense"
  | Conv2D => Some "Conv2D"
  | BatchNormalization => Some "BatchNorm"
  | Dropout => Some "Dropout"
  | OtherLayer => None
  end.

Record model_info := mkInfo {
  layer_counts : list (string * nat);
  trainable_w : nat;
  kernels : nat;
  biases : nat;
  bn : nat;
  kernels_pct : Q;
  biases_pct : Q;
  bn_pct : Q
}.

Definition opt_elements (o : option tensor) : nat :=
  match o with Some t => num_elements (tshape t) | None => 0 end.

(** [print_model_info(model)]: what it prints, or [ZeroDivisionError] from
    the percentages when the model has no trainable parameter. *)
Definition print_model_info (m : model) : result model_info :=
  let counts := foldl (fun c l => match layer_count_key (lkind l) with
                                  | Some k => counter_incr k c | None => c end) [] (mlayers m) in
  let tw := sum_list (map (fun w => num_elements (tshape (vval w))) (trainable_weights m)) in
  let nbn := sum_list (map (fun l => opt_elements (lbeta l) + opt_elements (lgamma l)) (mlayers m)) in
  let nb := sum_list (map (fun l => opt_elements (lbias l)) (mlayers m)) in
  let nk := sum_list (map (fun l => opt_elements (lkernel l)) (mlayers m)) in
  if decide (tw = 0) then raise ZeroDivisionError
  else let pct n := (inject_Z (Z.of_nat n) / inject_Z (Z.of_nat tw) * 100)%Q in
       Ok (mkInfo counts tw nk nb nbn (pct nk) (pct nb) (pct nbn)).

(** [if dirpath := os.path.dirname(path): os.makedirs(dirpath, exist_ok=True)]. *)
Definition ensure_parent_dir {D} (p : string) (F : fs D) : fs D :=
  let d := os_path_dirname p in
  if String.eqb d "" then F else os_makedirs d F.

(** [save_optimizer(optimizer, path)]. *)
Definition save_optimizer {D} (o : optimizer) (p : string) (F : fs D) : result (fs D) :=
  write_file p (Pickled (opt_weights o)) (ensure_parent_dir p F).

(** [save_model(model, path)]. *)
Definition save_model {D} (m : model) (p : string) (F : fs D) : result (fs D) :=
  save_weights m p (ensure_parent_dir p F).

(** [update_optimizer(optimizer, path)]: a [ValueError] of [set_weights] is
    caught and reported (the boolean is the warning); any other error of
    loading propagates. *)
Definition update_optimizer {D} (o : optimizer) (p : string) (F : fs D) : result (optimizer * bool) :=
  ws ← pickle_load F p;
  match opt_set_weights o ws with
  | Ok o' => Ok (o', false)
  | Raise (ValueError _) => Ok (o, true)
  | Raise e => Raise e
  end.

Inductive loss_fn := SparseCategoricalCrossentropy (from_logits : bool).

(** [get_loss_fn_from_alias(alias)]. *)
Definition get_loss_fn_from_alias (alias : string) : result loss_fn :=
  if String.eqb alias "crossentropy" then Ok (SparseCategoricalCrossentropy true)
  else raise (NotImplementedError ("Unknown alias " ++ alias)).

(** ** Example data for the witnesses *)

(** A convolution kernel and its mask, as the masked layers name them, a
    fresh clone, and an h5 checkpoint file holding values for both. *)
Definition ex_kernel : tfvar := mkVar "conv/kernel:0" (mkT [2] [1; -2]%Q) true.
Definition ex_mask : tfvar := mkVar "conv/kernel_mask:0" (mkT [2] [1; 0]%Q) false.
Definition ex_net : model := mkModel [] [ex_kernel; ex_mask].
Definition ex_fresh : model :=
  mkModel [] [mkVar "conv/kernel:0" (mkT [2] [0; 0]%Q) true;
              mkVar "conv/kernel_mask:0" (mkT [2] [1; 1]%Q) false].
Definition ex_ckp_vals : list tensor := [mkT [2] [3; 4]%Q; mkT [2] [1; 1]%Q].
Definition ex_fs : fs unit := mkFs {["ckp.h5" := H5Weights ex_ckp_vals]} ∅.
Definition ex_reset_net : model := mkModel [] [set_vval ex_kernel (mkT [2] [3; 4]%Q); ex_mask].
Definition ex_opt : optimizer := mkOpt [mkT [] [7]%Q; mkT [2] [1; 2]%Q].
Definition ex_opt_unbuilt : optimizer := mkOpt [mkT [] [0]%Q].

(** ** Closed forms of the loops *)

(** What one iteration of the reset loop leaves in [w1]. *)
Definition reset_value (skip_keyword : option string) (w1 : tfvar) (v : tensor) : tfvar :=
  if skip_matches skip_keyword (vname w1) then w1 else set_vval w1 v.

Definition count_skipped (skip_keyword : option string) (ws : list tfvar) : nat :=
  length (List.filter (fun w => skip_matches skip_keyword (vname w)) ws).

(** What one iteration of [set_all_weights_from_model] leaves in [w1], and
    the warning it prints. *)
Definition copy_value (w1 w2 : tfvar) : tfvar :=
  if decide (tshape (vval w1) = tshape (vval w2)) then set_vval w1 (vval w2) else w1.

Definition copy_warning (p : tfvar * tfvar) : option string :=
  if decide (tshape (vval p.1) = tshape (vval p.2)) then None else Some (vname p.1).

Lemma copy_weights_closed ws1 ws2 :
  copy_weights ws1 ws2 =
    (zip_with copy_value ws1 ws2 ++ drop (length ws2) ws1, omap copy_warning (zip ws1 ws2)).
Proof.
  revert ws2; induction ws1 as [|w1 ws1 IH]; intros [|w2 ws2]; simpl; try done.
  rewrite IH. unfold copy_value, copy_warning; simpl. by case_decide.
Qed.

Lemma reset_loop_Ok_inv ws1 ws2 kw r n :
  reset_loop ws1 ws2 kw = Ok (r, n) ->
  r = zip_with (fun w1 w2 => reset_value kw w1 (vval w2)) ws1 ws2 ++ drop (length ws2) ws1 /\
  n = count_skipped kw (take (length ws2) ws1).
Proof.
  revert ws2 r n; induction ws1 as [|w1 ws1 IH]; intros [|w2 ws2] r n; simpl;
    try (intros [= <- <-]; done).
  unfold reset_value, count_skipped in *; simpl.
  destruct (skip_matches kw (vname w1)).
  - destruct (reset_loop ws1 ws2 kw) as [[r' n']|] eqn:E; simpl; [|discriminate].
    intros [= <- <-]. destruct (IH _ _ _ E) as [-> ->]. done.
  - destruct (assign w1 (vval w2)) as [w1'|] eqn:Ha; simpl; [|discriminate].
    destruct (reset_loop ws1 ws2 kw) as [[r' n']|] eqn:E; simpl; [|discriminate].
    intros [= <- <-]. apply assign_Ok_inv in Ha as [-> _].
    destruct (IH _ _ _ E) as [-> ->]. done.
Qed.

Lemma reset_loop_Ok ws1 ws2 kw :
  weight_shapes ws1 = weight_shapes ws2 ->
  reset_loop ws1 ws2 kw =
    Ok (zip_with (fun w1 w2 => reset_value kw w1 (vval w2)) ws1 ws2, count_skipped kw ws1).
Proof.
  revert ws2; induction ws1 as [|w1 ws1 IH]; intros [|w2 ws2]; simpl; try done.
  intros [= Hs Hr]. rewrite (IH _ Hr).
  unfold reset_value, count_skipped; simpl.
  destruct (skip_matches kw (vname w1)); simpl; [done|].
  by rewrite assign_Ok.
Qed.

Lemma ensure_parent_dir_parent {D} (F : fs D) p :
  parent_exists (ensure_parent_dir p F) p = true.
Proof.
  unfold ensure_parent_dir.
  destruct (String.eqb_spec (os_path_dirname p) "") as [E|_]; [|apply parent_exists_makedirs].
  unfold parent_exists. rewrite E. done.
Qed.

Lemma ensure_parent_dir_files {D} (F : fs D) p : fs_files (ensure_parent_dir p F) = fs_files F.
Proof. unfold ensure_parent_dir. by case_match. Qed.

Lemma write_file_parent {D} (F : fs D) p c :
  parent_exists F p = true ->
  write_file p c F = Ok (mkFs (<[p := c]> (fs_files F)) (fs_dirs F)).
Proof. unfold write_file. by intros ->. Qed.

#[export] Hint Resolve ensure_parent_dir_parent : cr.
#[export] Hint Rewrite @ensure_parent_dir_files : cr_rw.

(** Loading values into variables of the same shapes. *)
Lemma zip_set_vval_vals ws vals :
  length ws = length vals -> map vval (zip_with set_vval ws vals) = vals.
Proof.
  revert vals; induction ws as [|w ws IH]; intros [|v vals]; simpl; try done.
  intros [= H]. by rewrite IH.
Qed.

Lemma zip_set_vval_shapes ws vals :
  weight_shapes ws = map tshape vals -> weight_shapes (zip_with set_vval ws vals) = map tshape vals.
Proof.
  revert vals; induction ws as [|w ws IH]; intros [|v vals]; simpl; try done.
  intros [= H1 H2]. by rewrite IH.
Qed.

Lemma weight_shapes_length ws ws' : weight_shapes ws = weight_shapes ws' -> length ws = length ws'.
Proof. intros H. apply (f_equal length) in H. unfold weight_shapes in H. by rewrite !length_map in H. Qed.

Lemma zip_with_vval {A} (f : tfvar -> tensor -> A) ws1 ws2 :
  zip_with (fun w1 w2 => f w1 (vval w2)) ws1 ws2 = zip_with f ws1 (map vval ws2).
Proof. revert ws2; induction ws1; intros [|w2 ws2]; simpl; f_equal; auto. Qed.

Lemma reset_Ok_inv {D} (m m' fresh : model) (p : string) (kw : option string)
    (F : fs D) (vals : list tensor) (n : nat) :
  p <> "" ->
  fs_files F !! p = Some (H5Weights vals) ->
  length (mweights m) = length vals ->
  reset_weights_to_checkpoint m (Some p) kw fresh F = Ok (m', n) ->
  mweights m' = zip_with (reset_value kw) (mweights m) vals.
Proof.
  intros Hp HF Hl. unfold reset_weights_to_checkpoint, load_weights.
  destruct p as [|c p]; [done|]. simpl str_truthy. cbv iota. rewrite HF.
  destruct (assign_all (mweights fresh) vals) as [ws|] eqn:Ea; simpl; [|discriminate].
  destruct (reset_loop (mweights m) ws kw) as [[r k]|] eqn:Er; simpl; [|discriminate].
  intros [= <- _]; simpl.
  apply assign_all_Ok_inv in Ea as [-> Hs].
  apply reset_loop_Ok_inv in Er as [-> _].
  assert (length (mweights fresh) = length vals) as Hf
    by (apply (f_equal length) in Hs; unfold weight_shapes in Hs; by rewrite !length_map in Hs).
  rewrite length_zip_with, Hf, Nat.min_id, <- Hl, drop_all, app_nil_r.
  by rewrite zip_with_vval, zip_set_vval_vals.
Qed.

(** ** Theorems *)

Lemma reset_to_h5 {D} (m fresh : model) (p : string)
    (kw : option string) (F : fs D) (vals : list tensor) :
  p <> "" ->
  fs_files F !! p = Some (H5Weights vals) ->
  weight_shapes (mweights fresh) = map tshape vals ->
  weight_shapes (mweights m) = weight_shapes (mweights fresh) ->
  reset_weights_to_checkpoint m (Some p) kw fresh F =
    Ok (mkModel (mlayers m) (zip_with (reset_value kw) (mweights m) vals),
        count_skipped kw (mweights m)).
Proof.
  intros Hp HF Hv Hm. unfold reset_weights_to_checkpoint, load_weights.
  destruct p as [|c p]; [done|]. simpl str_truthy. cbv iota. rewrite HF.
  rewrite (assign_all_Ok _ _ Hv); simpl.
  rewrite reset_loop_Ok by (rewrite zip_set_vval_shapes; congruence).
  simpl. rewrite zip_with_vval, zip_set_vval_vals; [done|].
  unfold weight_shapes in Hv. apply (f_equal length) in Hv. by rewrite !length_map in Hv.
Qed.

(** C5: after a successful reset to checkpoint [p] with the keyword [kw],
    every variable whose name contains [kw] is unchanged and every other
    variable holds the checkpoint's value at its position. *)
Theorem reset_keeps_keyword_restores_rest {D} (m m' fresh : model) (p kw : string)
    (F : fs D) (vals : list tensor) (n : nat) :
  p <> "" -> kw <> "" ->
  fs_files F !! p = Some (H5Weights vals) ->
  length (mweights m) = length vals ->
  reset_weights_to_checkpoint m (Some p) (Some kw) fresh F = Ok (m', n) ->
  forall (i : nat) (w : tfvar), mweights m !! i = Some w ->
    (str_contains kw (vname w) = true -> mweights m' !! i = Some w) /\
    (str_contains kw (vname w) = false ->
       exists v, vals !! i = Some v /\ mweights m' !! i = Some (set_vval w v)).
Proof.
  intros Hp Hkw HF Hl Hr i w Hw.
  rewrite (reset_Ok_inv m m' fresh p (Some kw) F vals n Hp HF Hl Hr), lookup_zip_with, Hw.
  simpl. destruct (vals !! i) as [v|] eqn:Hv.
  2:{ apply lookup_lt_Some in Hw. apply lookup_ge_None in Hv. lia. }
  unfold reset_value, skip_matches, str_truthy.
  destruct kw as [|c kw]; [done|]. split; intros ->; simpl; eauto.
Qed.

(** [set_all_weights_from_model] copies each value whose shape matches,
    leaves the others, warns exactly about those (in order, naming them),
    and leaves the variables beyond the shorter model untouched. *)
Lemma set_all_weights_from_model_spec (m src : model) :
  set_all_weights_from_model m src =
    (mkModel (mlayers m) (zip_with copy_value (mweights m) (mweights src)
                          ++ drop (length (mweights src)) (mweights m)),
     omap copy_warning (zip (mweights m) (mweights src))).
Proof. unfold set_all_weights_from_model. by rewrite copy_weights_closed. Qed.

Lemma copy_value_same_shape w1 w2 :
  tshape (vval w1) = tshape (vval w2) -> copy_value w1 w2 = set_vval w1 (vval w2).
Proof. unfold copy_value. intros. by rewrite decide_True. Qed.

(** Cloning a model into a fresh model of the same architecture gives
    the variables of the clone (their names) holding the values of the
    model, with no warning. *)
Theorem clone_model_values (m fresh : model) :
  weight_shapes (mweights fresh) = weight_shapes (mweights m) ->
  map vval (mweights (clone_model m fresh)) = map vval (mweights m) /\
  map vname (mweights (clone_model m fresh)) = map vname (mweights fresh) /\
  snd (set_all_weights_from_model fresh m) = [].
Proof.
  unfold clone_model, set_all_weights_from_model. rewrite copy_weights_closed; simpl.
  generalize (mweights fresh) (mweights m). clear.
  induction l as [|f fs IH]; intros [|w ws]; simpl; try done.
  intros [= Hs Hr]. destruct (IH ws Hr) as (H1 & H2 & H3).
  rewrite copy_value_same_shape by done. unfold copy_warning; simpl.
  rewrite decide_True by done. simpl. rewrite H1, H2. done.
Qed.

(** C31: [clip_many] computes the same clipped values in place as it
    returns when not in place, and with the default [clip_from] every entry
    ends within [-clip_at, clip_at] with every shape kept. *)
Theorem clip_many_spec (values : list tensor) (clip_at : Q) :
  (0 <= clip_at)%Q ->
  Some (fst (clip_many values clip_at None true)) = snd (clip_many values clip_at None false) /\
  Forall (in_range (- clip_at) clip_at) (fst (clip_many values clip_at None true)) /\
  map tshape (fst (clip_many values clip_at None true)) = map tshape values.
Proof.
  intros H. simpl. split; [done|]. split.
  - apply Forall_map, Forall_forall. intros t _. apply clip_by_value_in_range. lra.
  - rewrite map_map. apply map_ext. intros t. apply clip_by_value_shape.
Qed.

(** C35: [set_precision] accepts exactly 16, 32 and 64, and raises
    [NameError] for any other precision. *)
Theorem set_precision_spec (precision : Z) :
  match set_precision precision with
  | Ok pol => (precision = 16 /\ pol = MixedFloat16) \/ (precision = 32 /\ pol = Float32) \/
              (precision = 64 /\ pol = Float64)
  | Raise e => e = NameError "Available precision: 16, 32, 64." /\
               precision <> 16 /\ precision <> 32 /\ precision <> 64
  end%Z.
Proof.
  unfold set_precision.
  destruct (Z.eqb_spec precision 16); [by left|].
  destruct (Z.eqb_spec precision 32); [by right; left|].
  destruct (Z.eqb_spec precision 64); [by right; right|].
  done.
Qed.

Lemma save_optimizer_Ok {D} (o : optimizer) (p : string) (F : fs D) :
  exists F', save_optimizer o p F = Ok F' /\ fs_files F' !! p = Some (Pickled (opt_weights o)).
Proof.
  unfold save_optimizer. rewrite write_file_parent by apply ensure_parent_dir_parent.
  eexists; split; [done|]. simpl. apply lookup_insert_eq.
Qed.

(** C33: saving an optimizer and loading the file into an optimizer whose
    weights have the same shapes restores the saved weights, without
    warning. *)
Theorem save_update_optimizer_roundtrip {D} (o o' : optimizer) (p : string) (F : fs D) :
  map tshape (opt_weights o') = map tshape (opt_weights o) ->
  exists F', save_optimizer o p F = Ok F' /\
             update_optimizer o' p F' = Ok (mkOpt (opt_weights o), false).
Proof.
  intros Hs. destruct (save_optimizer_Ok o p F) as (F' & HF' & Hp).
  exists F'. split; [done|]. unfold update_optimizer, pickle_load. rewrite Hp; simpl.
  unfold opt_set_weights. rewrite decide_True.
  2:{ apply (f_equal length) in Hs. by rewrite !length_map in Hs. }
  by rewrite decide_True.
Qed.

(** C34: loading saved optimizer state into an optimizer that has not been
    built (fewer weights) is tolerated: a warning, and the optimizer is left
    as it was. *)
Theorem update_optimizer_unbuilt_tolerated {D} (o o' : optimizer) (p : string) (F : fs D) :
  length (opt_weights o') <> length (opt_weights o) ->
  exists F', save_optimizer o p F = Ok F' /\ update_optimizer o' p F' = Ok (o', true).
Proof.
  intros Hl. destruct (save_optimizer_Ok o p F) as (F' & HF' & Hp).
  exists F'. split; [done|]. unfold update_optimizer, pickle_load. rewrite Hp; simpl.
  unfold opt_set_weights. by rewrite decide_False.
Qed.

Lemma reset_value_None_self w : reset_value None w (vval w) = w.
Proof. by destruct w. Qed.

(** C32: saving a model [m] to [p] and then resetting another model [m']
    with the same weight shapes to [p], with no keyword, assigns to each
    variable of [m'] the value of the variable of [m] at the same position
    (names and trainability stay those of [m']), and skips nothing. *)
Theorem save_model_reset_roundtrip {D} (m m' fresh : model) (p : string) (F : fs D) :
  p <> "" ->
  weight_shapes (mweights m') = weight_shapes (mweights m) ->
  weight_shapes (mweights fresh) = weight_shapes (mweights m) ->
  exists F', save_model m p F = Ok F' /\
    reset_weights_to_checkpoint m' (Some p) None fresh F' =
      Ok (mkModel (mlayers m') (zip_with set_vval (mweights m') (map vval (mweights m))), 0).
Proof.
  intros Hp Hm' Hs. unfold save_model, save_weights.
  rewrite write_file_parent by apply ensure_parent_dir_parent.
  eexists; split; [done|].
  rewrite (reset_to_h5 m' fresh p None _ (map vval (mweights m))); simpl.
  - f_equal. f_equal.
    unfold count_skipped. by rewrite List.filter_false.
  - done.
  - apply lookup_insert_eq.
  - rewrite Hs. unfold weight_shapes. by rewrite map_map.
  - by rewrite Hm', Hs.
Qed.

Lemma sum_list_map_zero {A} (f : A -> nat) (l : list A) :
  sum_list (map f l) = 0 <-> Forall (fun x => f x = 0) l.
Proof.
  induction l as [|x l IH]; simpl; [split; auto|].
  rewrite Forall_cons, <- IH. lia.
Qed.

(** C36: [print_model_info] raises [ZeroDivisionError] exactly when the
    model has no trainable parameter (every trainable variable is empty, or
    there is none). *)
Theorem print_model_info_zero_division (m : model) :
  print_model_info m = raise ZeroDivisionError <->
  Forall (fun w => num_elements (tshape (vval w)) = 0) (trainable_weights m).
Proof.
  unfold print_model_info. rewrite <- sum_list_map_zero.
  case_decide; split; intros; done.
Qed.

Lemma fold_set_memory_growth l c :
  let c' := fold_left (fun c gpu => tf_set_memory_growth gpu c) l c in
  visible_devices c' = visible_devices c /\ memory_growth c' = list_to_set l ∪ memory_growth c.
Proof.
  revert c. induction l as [|g l IH]; intros c; simpl; [split; [done | set_solver]|].
  destruct (IH (tf_set_memory_growth g c)) as [-> ->]. simpl. split; [done | set_solver].
Qed.

(** Memory growth is turned on for the visible devices and for no other,
    and the visible devices do not change. *)
Lemma set_memory_growth_spec c :
  visible_devices (set_memory_growth c) = visible_devices c /\
  memory_growth (set_memory_growth c) = list_to_set (visible_devices c) ∪ memory_growth c.
Proof. apply fold_set_memory_growth. Qed.

(** [set_visible_gpu(gpus)] then [set_memory_growth()]: the chosen devices
    are visible and have memory growth on, besides those that had it. *)
Lemma set_visible_gpu_memory_growth gpus c :
  visible_devices (set_memory_growth (set_visible_gpu gpus c)) = gpu_devices gpus /\
  memory_growth (set_memory_growth (set_visible_gpu gpus c)) =
    list_to_set (gpu_devices gpus) ∪ memory_growth c.
Proof. exact (set_memory_growth_spec (set_visible_gpu gpus c)). Qed.

(** ** Witnesses *)

Lemma reset_keeps_keyword_restores_rest_witness :
  mweights ex_reset_net !! 1 = Some ex_mask.
Proof.
  apply (proj1 (reset_keeps_keyword_restores_rest ex_net ex_reset_net ex_fresh "ckp.h5"
                  "kernel_mask" ex_fs ex_ckp_vals 1 ltac:(discriminate) ltac:(discriminate)
                  eq_refl eq_refl ltac:(vm_compute; reflexivity) 1 ex_mask eq_refl)).
  vm_compute. reflexivity.
Defined.

Lemma clone_model_values_witness :
  map vval (mweights (clone_model ex_net ex_fresh)) = map vval (mweights ex_net).
Proof. apply (clone_model_values ex_net ex_fresh). reflexivity. Defined.

Lemma clip_many_spec_witness :
  Forall (in_range (- (1#100)) (1#100)) (fst (clip_many ex_ckp_vals (1#100) None true)).
Proof. apply (clip_many_spec ex_ckp_vals (1#100)). vm_compute. discriminate. Defined.

Lemma save_update_optimizer_roundtrip_witness :
  exists F', save_optimizer ex_opt "ckpt/opt.pkl" ex_fs = Ok F' /\
             update_optimizer ex_opt "ckpt/opt.pkl" F' = Ok (mkOpt (opt_weights ex_opt), false).
Proof. apply (save_update_optimizer_roundtrip ex_opt ex_opt). reflexivity. Defined.

Lemma update_optimizer_unbuilt_tolerated_witness :
  exists F', save_optimizer ex_opt "opt.pkl" ex_fs = Ok F' /\
             update_optimizer ex_opt_unbuilt "opt.pkl" F' = Ok (ex_opt_unbuilt, true).
Proof. apply (update_optimizer_unbuilt_tolerated ex_opt ex_opt_unbuilt). discriminate. Defined.

Lemma save_model_reset_roundtrip_witness :
  exists F', save_model ex_net "ckpt/net.h5" ex_fs = Ok F' /\
    reset_weights_to_checkpoint ex_fresh (Some "ckpt/net.h5") None ex_fresh F' =
      Ok (mkModel (mlayers ex_fresh) (zip_with set_vval (mweights ex_fresh) (map vval (mweights ex_net))), 0).
Proof. apply (save_model_reset_roundtrip ex_net ex_fresh ex_fresh); [discriminate | reflexivity | reflexivity]. Defined.
