(* ===== verification/Masks.v ===== *)
(** * Masks: sampling, regularisation and the two update steps

    The mask part of [src/experimental/truning/train_for_robustness.py].
    TensorFlow variables live in a store ([gmap nat tfvar]) and the Python
    lists [kernel_masks], [mask_distributions], [mask_differentiable],
    [mask_updatable] and [net.trainable_weights] are lists of store ids, so
    that [mask_updatable = mask_distributions + mask_distributions] updates
    each distribution twice, as the code does.  The random generator of
    [tf.random.uniform] is a stream of draws [draw] threaded through as a
    position.  The gradient tape and the optimizers are the interfaces
    [Tape] and [Optimizer]; the theorems hold for every instance.  The
    script's [clip_many] comes from [experimental.toolkit], not in the
    repository, and is identified with tools.py's [clip_many]
    ([Tools.clip_many], in place).

    Theorems: each entry of a sampled mask is 1, -1 or 0 according to
    its uniform draw and the magnitude and sign of its probability, and
    sampling keeps every shape; a distribution of magnitude at least 1 yields its sign
    whatever the draw; the regulariser is linear and signed (not L1); the
    gradients given to the mask optimizer are within [0.1 / lr]; after
    [update_masks] every distribution lies in [-10, 10] and no kernel mask
    has changed; [update_kernels] never touches a distribution; every step
    keeps the shape of every variable, so the invariants hold on every
    reachable state of the step relation [mstep]. *)

From S2P Require Import Prelude Keras Tools.

(** ** Interfaces of the framework *)

(** The learning rate of an optimizer: a number, or a schedule called with
    the iteration count ([callable(mask_optimizer.lr)]). *)
Inductive lr_value := LRConst (lr : Q) | LRSchedule (f : nat -> Q).

(** An optimizer: its learning rate, its iteration count, the update of one
    variable by one gradient ([_resource_apply_dense]), and the end of an
    [apply_gradients] call (the iteration count goes up). *)
Class Optimizer (O : Type) := {
  opt_lr : O -> lr_value;
  opt_iterations : O -> nat;
  opt_apply_dense : O -> nat -> tensor -> tensor -> O * tensor;
  opt_finish : O -> O
}.

(** The optimizer returns a value of the shape of the variable. *)
Class OptimizerLaws (O : Type) `{Optimizer O} := {
  opt_apply_dense_shape : forall o id g v, tshape (snd (opt_apply_dense o id g v)) = tshape v
}.

(** [tape.gradient(loss, sources)] for a batch, given the variables and the
    value of [mask_regularization]. *)
Class Tape (B : Type) := {
  tape_gradient : gmap nat tfvar -> Q -> B -> list nat -> list tensor
}.

(** ** State *)

(** The globals of the script that the steps read and write. *)
Record mask_state := mkMS {
  ms_store : gmap nat tfvar;   (** every TensorFlow variable, by id *)
  ms_rng : nat;                (** position in the uniform stream *)
  ms_mask_reg : Q              (** [mask_regularization] *)
}.

(** The lists of variables fixed when the script starts. *)
Record mask_config := mkMC {
  kernel_masks : list nat;
  mask_distributions : list nat;
  net_weights : list nat       (** [net.weights] *)
}.

(** ** Definitions *)

(** [maybe_abs] and [mask_activation]: both are the identity. *)
Definition maybe_abs (t : tensor) : tensor := t.
Definition mask_activation (t : tensor) : tensor := t.

(** [regularize(values)]. *)
Definition regularize (mask_regularization : Q) (values : list tensor) : Q :=
  foldl (fun loss value => loss + reduce_sum (maybe_abs value) * mask_regularization)%Q 0%Q values.

Definition var_read (s : gmap nat tfvar) (id : nat) : result tfvar :=
  match s !! id with
  | Some v => Ok v
  | None => raise (ValueError "unknown variable")
  end.

(** [var.assign(t)] on the variable [id] of the store. *)
Definition var_assign (s : gmap nat tfvar) (id : nat) (t : tensor) : result (gmap nat tfvar) :=
  v ← var_read s id; v' ← assign v t; mret (<[id := v']> s).

Section Sampling.
(** The stream of [tf.random.uniform] draws, in [0, 1). *)
Context (draw : nat -> Q).

(** [tf.random.uniform(shape)] at position [g] of the stream. *)
Definition uniform (shape : list nat) (g : nat) : tensor * nat :=
  let n := num_elements shape in (mkT shape (map draw (seq g n)), g + n).

(** One entry: [cast(rnd <= abs(p)) * (cast(p >= 0) * 2 - 1)]. *)
Definition sample_entry (p r : Q) : Q :=
  ((if Qle_bool r (Qabs p) then 1 else 0) * ((if Qle_bool 0 p then 1 else 0) * 2 - 1))%Q.

Definition sample_mask (probs rnd : tensor) : tensor :=
  mkT (tshape probs) (zip_with sample_entry (tdata probs) (tdata rnd)).

(** [set_kernel_masks_from_distributions(kernel_masks, distributions,
    mask_activation)]. *)
Fixpoint set_kernel_masks_from_distributions (act : tensor -> tensor)
    (kms ds : list nat) (s : gmap nat tfvar) (g : nat) : result (gmap nat tfvar * nat) :=
  match kms, ds with
  | km :: kms', d :: ds' =>
      dv ← var_read s d;
      let probs := act (vval dv) in
      let '(rnd, g') := uniform (tshape probs) g in
      s' ← var_assign s km (sample_mask probs rnd);
      set_kernel_masks_from_distributions act kms' ds' s' g'
  | _, _ => mret (s, g)
  end.
End Sampling.

(** [mask_differentiable] and [mask_updatable], lines 84-91. *)
Definition mask_differentiable (mask_sampling : bool) (c : mask_config) : list nat :=
  if mask_sampling then kernel_masks c ++ mask_distributions c else kernel_masks c.

Definition mask_updatable (mask_sampling : bool) (c : mask_config) : list nat :=
  if mask_sampling then mask_distributions c ++ mask_distributions c else kernel_masks c.

Definition trainable_ids (c : mask_config) (s : gmap nat tfvar) : list nat :=
  List.filter (fun id => match s !! id with Some v => vtrainable v | None => false end)
         (net_weights c).

Section Steps.
Context {Opt : Type} `{Optimizer Opt} {Batch : Type} `{Tape Batch}.

Definition current_lr (o : Opt) : Q :=
  match opt_lr o with
  | LRConst q => q
  | LRSchedule f => f (opt_iterations o)
  end.

(** [optimizer.apply_gradients(zip(grads, vars))], one variable after the
    other, so that a variable listed twice is updated twice. *)
Fixpoint apply_pairs (o : Opt) (pairs : list (tensor * nat)) (s : gmap nat tfvar)
  : result (Opt * gmap nat tfvar) :=
  match pairs with
  | [] => mret (o, s)
  | (g, id) :: rest =>
      v ← var_read s id;
      let '(o', nv) := opt_apply_dense o id g (vval v) in
      s' ← var_assign s id nv;
      apply_pairs o' rest s'
  end.

Definition apply_gradients (o : Opt) (grads : list tensor) (ids : list nat) (s : gmap nat tfvar)
  : result (Opt * gmap nat tfvar) :=
  '(o', s') ← apply_pairs o (combine grads ids) s; mret (opt_finish o', s').

(** The gradient clipping of [update_masks], lines 164-168. *)
Definition mask_gradients (o : Opt) (grads : list tensor) : list tensor :=
  default [] (snd (clip_many grads ((1#10) / current_lr o) None false)).

(** [clip_many(values, clip_at, clip_from, inplace=True)] on variables
    of the store: [v.assign(tf.clip_by_value(v, clip_from, clip_at))] for
    each variable in turn. *)
Fixpoint clip_many_inplace (ids : list nat) (clip_at : Q) (clip_from : option Q)
    (s : gmap nat tfvar) : result (gmap nat tfvar) :=
  let lo := match clip_from with None => (- clip_at)%Q | Some c => c end in
  match ids with
  | [] => mret s
  | id :: rest =>
      v ← var_read s id;
      s' ← var_assign s id (clip_by_value (vval v) lo clip_at);
      clip_many_inplace rest clip_at clip_from s'
  end.

(** [update_masks(model, x, y)]. *)
Definition update_masks (mask_sampling : bool) (c : mask_config) (o : Opt) (batch : Batch)
    (st : mask_state) : result (Opt * mask_state) :=
  let grads := tape_gradient (ms_store st) (ms_mask_reg st) batch
                 (mask_differentiable mask_sampling c) in
  '(o', s') ← apply_gradients o (mask_gradients o grads) (mask_updatable mask_sampling c)
                (ms_store st);
  s'' ← clip_many_inplace (mask_distributions c) 10 None s';
  mret (o', mkMS s'' (ms_rng st) (ms_mask_reg st)).

(** [update_kernels(model, x, y)]: every trainable weight of [net], no
    clipping, with the kernel optimizer. *)
Definition update_kernels (c : mask_config) (o : Opt) (batch : Batch) (st : mask_state)
  : result (Opt * mask_state) :=
  let ids := trainable_ids c (ms_store st) in
  let grads := tape_gradient (ms_store st) (ms_mask_reg st) batch ids in
  '(o', s') ← apply_gradients o grads ids (ms_store st);
  mret (o', mkMS s' (ms_rng st) (ms_mask_reg st)).
End Steps.

(** [if epoch in regularizer_schedule:
    mask_regularization.assign(regularizer_schedule[epoch])]. *)
Definition apply_schedule (schedule : list (nat * Q)) (epoch : nat) (st : mask_state) : mask_state :=
  match list_to_map (M := gmap nat Q) schedule !! epoch with
  | Some q => mkMS (ms_store st) (ms_rng st) q
  | None => st
  end.

(** ** Predicates on the store *)

(** What a step may change: only the values, never a name, a trainable
    flag or a shape. *)
Definition store_meta (s : gmap nat tfvar) : gmap nat (string * bool * list nat) :=
  (fun v => (vname v, vtrainable v, tshape (vval v))) <$> s.

(** An update of the store that writes only to [targets] and keeps the
    metadata of every variable. *)
Definition assigns_only (targets : list nat) (s s' : gmap nat tfvar) : Prop :=
  (forall j, j ∉ targets -> s' !! j = s !! j) /\ store_meta s' = store_meta s.

(** [P] holds of the value of every variable in [ids]. *)
Definition holds_on (P : tensor -> Prop) (ids : list nat) (s : gmap nat tfvar) : Prop :=
  forall j, j ∈ ids -> exists v, s !! j = Some v /\ P (vval v).

(** The number of uniform draws that sampling from the distributions [ds]
    takes: one per entry of each [mask_activation(d)]. *)
Fixpoint draws_used (act : tensor -> tensor) (s : gmap nat tfvar) (ds : list nat) : nat :=
  match ds with
  | [] => 0
  | d :: ds' =>
      match s !! d with Some dv => num_elements (tshape (act (vval dv))) | None => 0 end +
      draws_used act s ds'
  end.

(** [w'] is a mask sampled from the distribution [dv] with the draws from
    position [g] of the stream: it has the shape of the probabilities
    [p = act(dv)], and entry [n] is 1 when draw [g + n] is at most [|p|]
    and [p >= 0], -1 when it is at most [|p|] and [p < 0], 0 when it
    exceeds [|p|]. *)
Definition sampled_from (draw : nat -> Q) (act : tensor -> tensor) (dv w' : tfvar) (g : nat) : Prop :=
  tshape (vval w') = tshape (act (vval dv)) /\
  forall (n : nat) (p : Q), tensor_wf (act (vval dv)) -> tdata (act (vval dv)) !! n = Some p ->
    ((draw (g + n)%nat <= Qabs p)%Q -> (0 <= p)%Q -> tdata (vval w') !! n = Some 1%Q) /\
    ((draw (g + n)%nat <= Qabs p)%Q -> (p < 0)%Q -> tdata (vval w') !! n = Some (-1)%Q) /\
    ((Qabs p < draw (g + n)%nat)%Q -> tdata (vval w') !! n = Some 0%Q).

(** The entries of a sampled mask. *)
Definition ternary (t : tensor) : Prop := Forall (fun x => x ∈ [0; 1; -1]%Q) (tdata t).

Definition sum_Q (l : list Q) : Q := foldr Qplus 0%Q l.

(** ** Example instances of the interfaces *)

(** Keras [SGD(learning_rate, momentum, nesterov=True)], as the script
    builds both optimizers: [m' = momentum * m - lr * g] and
    [w' = w + momentum * m' - lr * g]. *)
Record sgd := mkSGD {
  sgd_lr : Q; sgd_momentum : Q; sgd_iterations : nat; sgd_slots : gmap nat (list Q)
}.

Definition sgd_apply (o : sgd) (id : nat) (g v : tensor) : sgd * tensor :=
  let m := default (replicate (length (tdata v)) 0%Q) (sgd_slots o !! id) in
  let m' := zip_with (fun mi gi => sgd_momentum o * mi - sgd_lr o * gi)%Q m (tdata g) in
  let w' := zip_with (fun wi p => wi + sgd_momentum o * p.1 - sgd_lr o * p.2)%Q
                     (tdata v) (zip m' (tdata g)) in
  (mkSGD (sgd_lr o) (sgd_momentum o) (sgd_iterations o) (<[id := m']> (sgd_slots o)),
   mkT (tshape v) w').

#[export] Instance sgd_optimizer : Optimizer sgd := {|
  opt_lr o := LRConst (sgd_lr o);
  opt_iterations := sgd_iterations;
  opt_apply_dense := sgd_apply;
  opt_finish o := mkSGD (sgd_lr o) (sgd_momentum o) (S (sgd_iterations o)) (sgd_slots o)
|}.

#[export] Instance sgd_optimizer_laws : OptimizerLaws sgd.
Proof. constructor. reflexivity. Qed.

(** A tape that returns zero gradients of the shapes of the sources. *)
#[export] Instance zero_tape : Tape unit := {|
  tape_gradient s _ _ ids :=
    map (fun id => match s !! id with Some v => zeros_like (vval v) | None => mkT [] [] end) ids
|}.

(** The script's mask phase as a step relation: resampling, a mask update,
    a kernel update, or the regulariser schedule at an epoch. *)
Section Machine.
Context (draw : nat -> Q) {Opt : Type} `{Optimizer Opt} {Batch : Type} `{Tape Batch}.
Context (c : mask_config) (schedule : list (nat * Q)).

Inductive mstep : mask_state -> mask_state -> Prop :=
  | step_sample st s' g' :
      set_kernel_masks_from_distributions draw mask_activation (kernel_masks c)
        (mask_distributions c) (ms_store st) (ms_rng st) = Ok (s', g') ->
      mstep st (mkMS s' g' (ms_mask_reg st))
  | step_update_masks st st' (o o' : Opt) (b : Batch) :
      update_masks true c o b st = Ok (o', st') -> mstep st st'
  | step_update_kernels st st' (o o' : Opt) (b : Batch) :
      update_kernels c o b st = Ok (o', st') -> mstep st st'
  | step_schedule st epoch : mstep st (apply_schedule schedule epoch st).

(** Every distribution is in [-10, 10] and the metadata of every variable
    is that of the initial store [s0]. *)
Definition mask_inv (s0 : gmap nat tfvar) (st : mask_state) : Prop :=
  store_meta (ms_store st) = store_meta s0 /\
  holds_on (in_range (-10) 10) (mask_distributions c) (ms_store st).
End Machine.

(** ** Example data for the witnesses *)

(** One masked convolution: its kernel (id 0), its kernel mask (id 1) and
    the mask distribution created for it (id 2), set to [mask_initial_value]
    5.0; the mask optimizer [SGD(10.0, momentum=0.999)]. *)
Definition ex_store : gmap nat tfvar :=
  <[0 := mkVar "conv/kernel:0" (mkT [2%nat] [1; -2]%Q) true]>
  (<[1 := mkVar "conv/kernel_mask:0" (mkT [2%nat] [1; 0]%Q) false]>
  (<[2 := mkVar "Variable:0" (mkT [2%nat] [5; 5]%Q) true]> ∅)).
Definition ex_mc : mask_config := mkMC [1%nat] [2%nat] [0%nat; 1%nat].
Definition ex_st0 : mask_state := mkMS ex_store 0 0.
Definition ex_draw (k : nat) : Q := 1#2.
Definition ex_mask_opt : sgd := mkSGD 10 (999#1000) 0 ∅.
Definition ex_kernel_opt : sgd := mkSGD (1#10) (9#10) 0 ∅.

(** ** Store lemmas *)



Lemma assigns_only_refl T s : assigns_only T s s.
Proof. done. Qed.

Lemma assigns_only_trans T1 T2 s s' s'' :
  assigns_only T1 s s' -> assigns_only T2 s' s'' -> assigns_only (T1 ++ T2) s s''.
Proof.
  intros [F1 M1] [F2 M2]. split; [|congruence].
  intros j Hj. rewrite elem_of_app in Hj. rewrite F2, F1; naive_solver.
Qed.

Lemma assigns_only_mono T T' s s' :
  (forall j, j ∈ T -> j ∈ T') -> assigns_only T s s' -> assigns_only T' s s'.
Proof. intros HT [F M]. split; [|done]. intros j Hj. apply F. naive_solver. Qed.

Lemma var_read_Ok s id v : var_read s id = Ok v <-> s !! id = Some v.
Proof. unfold var_read. destruct (s !! id); split; intros; simplify_eq; done. Qed.

Lemma var_assign_Ok_inv s id t s' :
  var_assign s id t = Ok s' ->
  exists v, s !! id = Some v /\ tshape t = tshape (vval v) /\ s' = <[id := set_vval v t]> s.
Proof.
  unfold var_assign. destruct (var_read s id) as [v|] eqn:Hv; simpl; [|discriminate].
  destruct (assign v t) as [v'|] eqn:Ha; simpl; [|discriminate].
  intros [= <-]. apply var_read_Ok in Hv. apply assign_Ok_inv in Ha as [-> Hs]. eauto.
Qed.

Lemma var_assign_assigns_only s id t s' : var_assign s id t = Ok s' -> assigns_only [id] s s'.
Proof.
  intros H. apply var_assign_Ok_inv in H as (v & Hv & Hs & ->). split.
  - intros j Hj. apply lookup_insert_ne. set_solver.
  - unfold store_meta. rewrite fmap_insert. apply insert_id.
    rewrite lookup_fmap, Hv. simpl. by rewrite Hs.
Qed.

Lemma var_assign_lookup s id t s' :
  var_assign s id t = Ok s' -> exists v, s' !! id = Some v /\ vval v = t.
Proof.
  intros H. apply var_assign_Ok_inv in H as (v & _ & _ & ->).
  rewrite lookup_insert_eq. eauto.
Qed.

#[export] Hint Resolve assigns_only_refl var_assign_assigns_only : cr.

(** The loops write only to the variables they are given. *)
Lemma sampling_assigns_only draw act kms ds s g s' g' :
  set_kernel_masks_from_distributions draw act kms ds s g = Ok (s', g') -> assigns_only kms s s'.
Proof.
  revert ds s g; induction kms as [|km kms IH]; intros [|d ds] s g; simpl;
    try (intros [= <- _]; eauto with cr).
  do 2 result_case. intros Hr.
  apply (assigns_only_trans [km] kms _ a0); eauto with cr.
Qed.

Lemma apply_pairs_assigns_only `{Optimizer Opt} (o o' : Opt) pairs s s' :
  apply_pairs o pairs s = Ok (o', s') -> assigns_only (map snd pairs) s s'.
Proof.
  revert o s; induction pairs as [|[g id] pairs IH]; intros o s; simpl.
  - intros [= <- <-]. eauto with cr.
  - result_case. destruct (opt_apply_dense o id g (vval a)) as [o1 nv].
    result_case. intros Hr.
    apply (assigns_only_trans [id] (map snd pairs) _ a0); eauto with cr.
Qed.

Lemma clip_many_inplace_assigns_only ids clip_at clip_from s s' :
  clip_many_inplace ids clip_at clip_from s = Ok s' -> assigns_only ids s s'.
Proof.
  revert s; induction ids as [|id ids IH]; intros s; simpl; [intros [= <-]; eauto with cr|].
  do 2 result_case. intros Hr.
  apply (assigns_only_trans [id] ids _ a0); eauto with cr.
Qed.


Lemma holds_on_nil P s : holds_on P [] s.
Proof. intros j Hj. set_solver. Qed.

Lemma holds_on_mono P ids ids' s : (forall j, j ∈ ids' -> j ∈ ids) -> holds_on P ids s -> holds_on P ids' s.
Proof. intros Hs H j Hj. auto. Qed.

Lemma var_assign_holds_on (P : tensor -> Prop) ids s id t s' :
  var_assign s id t = Ok s' -> P t -> holds_on P ids s -> holds_on P (id :: ids) s'.
Proof.
  intros H Ht Hh j Hj.
  destruct (var_assign_lookup _ _ _ _ H) as (v & Hv & <-).
  destruct (var_assign_assigns_only _ _ _ _ H) as [F _].
  destruct (decide (j = id)) as [->|Hne]; [eauto|].
  rewrite F by set_solver. apply Hh. set_solver.
Qed.

Lemma elem_of_map_snd_combine {A B} (l1 : list A) (l2 : list B) j :
  j ∈ map snd (combine l1 l2) -> j ∈ l2.
Proof.
  revert l2; induction l1 as [|x l1 IH]; intros [|y l2]; simpl; set_solver.
Qed.


Lemma sample_entry_ternary p r : sample_entry p r ∈ [0; 1; -1]%Q.
Proof. unfold sample_entry. destruct (Qle_bool r _), (Qle_bool 0 p); vm_compute; set_solver. Qed.

Lemma sample_mask_ternary probs rnd : ternary (sample_mask probs rnd).
Proof.
  unfold ternary, sample_mask; simpl. generalize (tdata probs) (tdata rnd).
  induction l as [|x l IH]; intros [|y l']; simpl; constructor; auto using sample_entry_ternary.
Qed.

Lemma sampling_holds_on draw act kms ds s g s' g' acc :
  set_kernel_masks_from_distributions draw act kms ds s g = Ok (s', g') ->
  holds_on ternary acc s -> holds_on ternary (take (length ds) kms ++ acc) s'.
Proof.
  revert ds s g acc; induction kms as [|km kms IH]; intros [|d ds] s g acc; simpl;
    try (intros [= <- _]; done).
  do 2 result_case. intros Hr Hacc.
  eapply holds_on_mono, IH, var_assign_holds_on; [| done | done | apply sample_mask_ternary | done].
  intros j. simpl. set_solver.
Qed.

Lemma clip_many_inplace_holds_on ids clip_at s s' acc :
  (0 <= clip_at)%Q ->
  clip_many_inplace ids clip_at None s = Ok s' ->
  holds_on (in_range (- clip_at) clip_at) acc s ->
  holds_on (in_range (- clip_at) clip_at) (ids ++ acc) s'.
Proof.
  intros Hc. revert s acc; induction ids as [|id ids IH]; intros s acc; simpl;
    [intros [= <-]; done|].
  do 2 result_case. intros Hr Hacc.
  eapply holds_on_mono, IH, var_assign_holds_on; [| done | done | | done].
  - intros j. simpl. set_solver.
  - apply clip_by_value_in_range. lra.
Qed.

Lemma apply_gradients_assigns_only `{Optimizer Opt} (o o' : Opt) grads ids s s' :
  apply_gradients o grads ids s = Ok (o', s') -> assigns_only ids s s'.
Proof.
  unfold apply_gradients. result_case. destruct a as [o1 s1]. intros [= <- <-].
  eapply assigns_only_mono, apply_pairs_assigns_only; [|exact E].
  apply elem_of_map_snd_combine.
Qed.

Lemma sample_entry_big p r :
  (1 <= Qabs p)%Q -> (r < 1)%Q -> sample_entry p r = if Qle_bool 0 p then 1%Q else (-1)%Q.
Proof.
  intros Hp Hr. unfold sample_entry.
  replace (Qle_bool r (Qabs p)) with true by (symmetry; apply Qle_bool_iff; lra).
  by destruct (Qle_bool 0 p).
Qed.


Lemma regularize_acc c (values : list tensor) a :
  (foldl (fun loss value => loss + reduce_sum (maybe_abs value) * c)%Q a values ==
   a + c * sum_Q (map reduce_sum values))%Q.
Proof.
  revert a; induction values as [|v vs IH]; intros a; simpl; [ring|].
  rewrite IH. unfold maybe_abs. ring.
Qed.

Lemma update_masks_in_range_aux `{Optimizer Opt} `{Tape Batch} c (o o' : Opt) (batch : Batch) st st' :
  update_masks true c o batch st = Ok (o', st') ->
  holds_on (in_range (-10) 10) (mask_distributions c) (ms_store st').
Proof.
  unfold update_masks. result_case. destruct a as [o1 s1]. result_case.
  intros [= <- <-]; simpl. rewrite <- (app_nil_r (mask_distributions c)).
  eapply (clip_many_inplace_holds_on _ 10); [lra | exact E0 | apply holds_on_nil].
Qed.

Lemma update_masks_assigns_only_aux `{Optimizer Opt} `{Tape Batch} c (o o' : Opt) (batch : Batch) st st' :
  update_masks true c o batch st = Ok (o', st') ->
  assigns_only (mask_distributions c) (ms_store st) (ms_store st') /\
  ms_rng st' = ms_rng st /\ ms_mask_reg st' = ms_mask_reg st.
Proof.
  unfold update_masks. result_case. destruct a as [o1 s1]. result_case.
  intros [= <- <-]; simpl. split; [|done].
  eapply assigns_only_mono, assigns_only_trans;
    [| eapply apply_gradients_assigns_only, E | eapply clip_many_inplace_assigns_only, E0].
  intros j. simpl. set_solver.
Qed.

Lemma update_kernels_assigns_only_aux `{Optimizer Opt} `{Tape Batch} c (o o' : Opt) (batch : Batch) st st' :
  update_kernels c o batch st = Ok (o', st') ->
  assigns_only (net_weights c) (ms_store st) (ms_store st').
Proof.
  unfold update_kernels. result_case. destruct a as [o1 s1]. intros [= <- <-]; simpl.
  eapply assigns_only_mono, apply_gradients_assigns_only, E.
  intros j Hj. unfold trainable_ids in Hj. apply list_elem_of_In, filter_In in Hj.
  apply list_elem_of_In. tauto.
Qed.

Lemma holds_on_frame P T ids s s' :
  assigns_only T s s' -> (forall j, j ∈ ids -> j ∉ T) -> holds_on P ids s -> holds_on P ids s'.
Proof. intros [F _] Hd Hh j Hj. rewrite F by auto. auto. Qed.

(** One step keeps the invariant when the distributions are neither kernel
    masks nor weights of the network. *)
Lemma mstep_preserves draw `{Optimizer Opt} `{Tape Batch} c schedule s0 st st' :
  (forall j, j ∈ mask_distributions c -> j ∉ kernel_masks c /\ j ∉ net_weights c) ->
  @mstep draw Opt _ Batch _ c schedule st st' -> mask_inv c s0 st -> mask_inv c s0 st'.
Proof.
  intros Hd Hs [Hm Hr]. destruct Hs as [st s' g' E|st st' o o' b E|st st' o o' b E|st epoch].
  - destruct (sampling_assigns_only _ _ _ _ _ _ _ _ E) as [F M]. split; simpl; [congruence|].
    eapply holds_on_frame; [split; eauto | | exact Hr]. naive_solver.
  - destruct (update_masks_assigns_only_aux _ _ _ _ _ _ E) as [[F M] _].
    split; [congruence|]. eapply update_masks_in_range_aux, E.
  - destruct (update_kernels_assigns_only_aux _ _ _ _ _ _ E) as [F M]. split; [congruence|].
    eapply holds_on_frame; [split; eauto | | exact Hr]. naive_solver.
  - unfold apply_schedule. by case_match.
Qed.

(** One entry of a sampled mask: nonzero exactly when the draw is at most
    the magnitude of the probability, then of the sign of the
    probability. *)
Lemma sample_entry_cases p r :
  ((r <= Qabs p)%Q -> (0 <= p)%Q -> sample_entry p r = 1%Q) /\
  ((r <= Qabs p)%Q -> (p < 0)%Q -> sample_entry p r = (-1)%Q) /\
  ((Qabs p < r)%Q -> sample_entry p r = 0%Q).
Proof.
  unfold sample_entry. split_and!; intros Hr.
  - intros Hp. by rewrite (proj2 (Qle_bool_iff _ _) Hr), (proj2 (Qle_bool_iff _ _) Hp).
  - intros Hp. rewrite (proj2 (Qle_bool_iff _ _) Hr).
    destruct (Qle_bool 0 p) eqn:Hb; [apply Qle_bool_iff in Hb; lra | reflexivity].
  - destruct (Qle_bool r (Qabs p)) eqn:Hb; [apply Qle_bool_iff in Hb; lra|].
    by destruct (Qle_bool 0 p).
Qed.

(** Entry [n] of the mask sampled from [probs] with the draws from
    position [g] of the stream uses draw [g + n]. *)
Lemma sample_mask_lookup (draw : nat -> Q) probs g n p :
  tensor_wf probs -> tdata probs !! n = Some p ->
  tdata (sample_mask probs (uniform draw (tshape probs) g).1) !! n = Some (sample_entry p (draw (g + n))).
Proof.
  intros Hwf Hp. unfold sample_mask, uniform; simpl. rewrite lookup_zip_with, Hp; simpl.
  rewrite lookup_map, lookup_seq_lt; [done|]. apply lookup_lt_Some in Hp. unfold tensor_wf in Hwf. lia.
Qed.

Lemma draws_used_insert act s k v l :
  k ∉ l -> draws_used act (<[k := v]> s) l = draws_used act s l.
Proof.
  induction l as [|d l IH]; simpl; [done|]. intros Hk.
  rewrite lookup_insert_ne by set_solver. rewrite IH by set_solver. done.
Qed.

(** The first pair of the sampling loop. *)
Lemma sample_head (draw : nat -> Q) act km kms d ds s g s' g' :
  km ∉ kms ->
  set_kernel_masks_from_distributions draw act (km :: kms) (d :: ds) s g = Ok (s', g') ->
  exists dv w', s !! d = Some dv /\ s' !! km = Some w' /\ sampled_from draw act dv w' g.
Proof.
  intros Hkm. simpl. result_case. result_case. intros Hr.
  apply var_read_Ok in E. apply var_assign_Ok_inv in E0 as (w & Hw & Hsh & ->).
  destruct (sampling_assigns_only _ _ _ _ _ _ _ _ Hr) as [Hfr _].
  exists a, (set_vval w (sample_mask (act (vval a)) (uniform draw (tshape (act (vval a))) g).1)).
  split_and!; [done | rewrite Hfr by done; apply lookup_insert_eq |].
  split; [done|]. intros n p Hwf Hp. unfold set_vval. cbn [vval].
  rewrite (sample_mask_lookup _ _ _ _ _ Hwf Hp).
  destruct (sample_entry_cases p (draw (g + n))) as (H1 & H2 & H3).
  split_and!; intros; f_equal; auto.
Qed.

(** ** Theorems *)

Section Theorems.
Context (draw : nat -> Q).

(** C17: [set_kernel_masks_from_distributions] assigns to the [i]-th
    kernel mask [km] the sample [cast(rnd <= |p|) * sign(p)] of the
    probabilities [p = mask_activation(d)] of its distribution [d], with
    the uniform draws that follow those of the earlier pairs (from
    [g + draws_used act s (take i ds)]): entry [n] is 1 when its draw is at
    most [|p|] and [p >= 0], -1 when it is at most [|p|] and [p < 0], and
    0 when it exceeds [|p|]; the mask takes the shape of the
    probabilities. *)
Theorem sample_mask_entries act kms ds s g s' g' :
  NoDup kms -> (forall k, k ∈ kms -> k ∉ ds) ->
  set_kernel_masks_from_distributions draw act kms ds s g = Ok (s', g') ->
  forall (i km d : nat), kms !! i = Some km -> ds !! i = Some d ->
    exists dv w', s !! d = Some dv /\ s' !! km = Some w' /\
      sampled_from draw act dv w' (g + draws_used act s (take i ds)).
Proof.
  revert ds s g; induction kms as [|k kms IH]; intros [|d0 ds] s g Hnd Hdis Hr i km d Hk Hd; try done.
  apply NoDup_cons in Hnd as [Hk' Hnd]. destruct i as [|i]; simpl in Hk, Hd.
  - injection Hk as <-. injection Hd as <-. rewrite Nat.add_0_r. eapply sample_head; [exact Hk' | exact Hr].
  - revert Hr. simpl. do 2 result_case. intros Hr.
    apply var_read_Ok in E. apply var_assign_Ok_inv in E0 as (w & Hw & Hsh & ->).
    assert (k ∉ ds) as Hkd by set_solver.
    destruct (IH ds _ _ Hnd ltac:(set_solver) Hr i km d Hk Hd) as (dv & w' & Hdv & Hw' & Hs).
    apply list_elem_of_lookup_2 in Hd.
    rewrite lookup_insert_ne in Hdv by set_solver.
    rewrite draws_used_insert in Hs by (intros Hin; apply Hkd, (subseteq_take i ds), Hin).
    exists dv, w'. split_and!; [done | done |]. simpl. rewrite E. by rewrite Nat.add_assoc.
Qed.

Lemma sampling_ternary_keeps_shapes act kms ds s g s' g' :
  set_kernel_masks_from_distributions draw act kms ds s g = Ok (s', g') ->
  holds_on ternary (take (length ds) kms) s' /\ store_meta s' = store_meta s.
Proof.
  intros H. split.
  - rewrite <- (app_nil_r (take _ _)). eapply sampling_holds_on; [exact H | apply holds_on_nil].
  - apply (sampling_assigns_only _ _ _ _ _ _ _ _ H).
Qed.

(** Where every entry of a distribution has magnitude at least 1
    (the initial value 5.0 of the script), the sampled mask is the sign of
    the distribution, whatever the uniform draws in [0, 1). *)
Lemma sample_mask_big_magnitude (d : tensor) (g : nat) :
  (forall k, (draw k < 1)%Q) ->
  tensor_wf d ->
  Forall (fun x => 1 <= Qabs x)%Q (tdata d) ->
  sample_mask d (fst (uniform draw (tshape d) g)) =
    mkT (tshape d) (map (fun x => if Qle_bool 0 x then 1%Q else (-1)%Q) (tdata d)).
Proof.
  intros Hd Hwf Hbig. unfold sample_mask, uniform; simpl. f_equal.
  rewrite <- Hwf. clear Hwf. revert g.
  induction (tdata d) as [|x xs IH]; intros g; simpl; [done|].
  apply Forall_cons in Hbig as [Hx Hxs].
  rewrite sample_entry_big by auto. f_equal. by apply IH.
Qed.
End Theorems.

(** C30: the regulariser is linear in the distributions, the coefficient
    times the sum of all their entries: [maybe_abs] is the identity, so it
    is not the L1 penalty the spec describes. *)
Theorem regularize_linear (c : Q) (values : list tensor) :
  (regularize c values == c * sum_Q (map reduce_sum values))%Q.
Proof. unfold regularize. rewrite regularize_acc. ring. Qed.

Section StepTheorems.
Context {Opt : Type} `{Optimizer Opt} {Batch : Type} `{Tape Batch}.

(** The gradients that [update_masks] gives to the mask optimizer lie
    within [-0.1 / lr, 0.1 / lr] for the current learning rate. *)
Lemma mask_gradients_bound (o : Opt) (grads : list tensor) :
  (0 < current_lr o)%Q ->
  Forall (in_range (- ((1#10) / current_lr o)) ((1#10) / current_lr o)) (mask_gradients o grads).
Proof.
  intros Hlr. unfold mask_gradients; simpl.
  apply Forall_map, Forall_forall. intros t _. apply clip_by_value_in_range.
  assert (0 <= (1#10) / current_lr o)%Q by (apply Qle_shift_div_l; lra). lra.
Qed.

(** C3: after a successful [update_masks] every mask distribution lies
    in [-10, 10], whatever the gradients and the optimizer did. *)
Theorem update_masks_in_range (c : mask_config) (o o' : Opt) (batch : Batch) (st st' : mask_state) :
  update_masks true c o batch st = Ok (o', st') ->
  holds_on (in_range (-10) 10) (mask_distributions c) (ms_store st').
Proof. apply update_masks_in_range_aux. Qed.

(** C28: [update_masks] writes only to the mask distributions (each
    listed twice in [mask_updatable]) and changes no variable's metadata,
    so the kernel masks and all the weights of the network are unchanged. *)
Theorem update_masks_only_distributions (c : mask_config) (o o' : Opt) (batch : Batch)
    (st st' : mask_state) :
  update_masks true c o batch st = Ok (o', st') ->
  assigns_only (mask_distributions c) (ms_store st) (ms_store st') /\
  ms_rng st' = ms_rng st /\ ms_mask_reg st' = ms_mask_reg st.
Proof. apply update_masks_assigns_only_aux. Qed.

(** C29: [update_kernels] writes only to weights of the network, so a
    mask distribution, which is not a weight of the network, is never
    changed by it. *)
Theorem update_kernels_only_net (c : mask_config) (o o' : Opt) (batch : Batch) (st st' : mask_state) :
  update_kernels c o batch st = Ok (o', st') ->
  assigns_only (net_weights c) (ms_store st) (ms_store st').
Proof. apply update_kernels_assigns_only_aux. Qed.
End StepTheorems.

(** C6: on every state reachable by resampling, mask updates, kernel
    updates and the schedule, every mask distribution lies in [-10, 10] and
    every variable keeps its name, trainable flag and shape, provided the
    distributions are separate variables (neither kernel masks nor weights
    of the network) and the invariant holds initially. *)
Theorem mask_invariant_reachable (draw : nat -> Q) `{Optimizer Opt} `{Tape Batch}
    (c : mask_config) (schedule : list (nat * Q)) (st0 st : mask_state) :
  (forall j, j ∈ mask_distributions c -> j ∉ kernel_masks c /\ j ∉ net_weights c) ->
  holds_on (in_range (-10) 10) (mask_distributions c) (ms_store st0) ->
  rtc (@mstep draw Opt _ Batch _ c schedule) st0 st ->
  mask_inv c (ms_store st0) st.
Proof.
  intros Hd Hinit Hr.
  assert (Hi : mask_inv c (ms_store st0) st0) by (split; done). clear Hinit.
  revert Hi. generalize (ms_store st0) as s0. intros s0 Hi.
  induction Hr as [st|st1 st2 st3 Hs _ IH]; [done|].
  apply IH. eapply mstep_preserves; eauto.
Qed.

(** ** Witnesses *)

Lemma sample_mask_entries_witness :
  NoDup [1%nat] /\ (forall k, k ∈ [1%nat] -> k ∉ [2%nat]) /\
  exists s' g', set_kernel_masks_from_distributions ex_draw mask_activation [1%nat] [2%nat] ex_store 0
                  = Ok (s', g') /\
  forall (i km d : nat), [1%nat] !! i = Some km -> [2%nat] !! i = Some d ->
    exists dv w', ex_store !! d = Some dv /\ s' !! km = Some w' /\
      sampled_from ex_draw mask_activation dv w' (0 + draws_used mask_activation ex_store (take i [2%nat])).
Proof.
  assert (NoDup [1%nat]) as Hn by (repeat constructor; set_solver).
  assert (forall k, k ∈ [1%nat] -> k ∉ [2%nat]) as Hd by set_solver.
  split; [exact Hn|]. split; [exact Hd|]. eexists _, _. split; [vm_compute; reflexivity|].
  eapply (sample_mask_entries ex_draw mask_activation [1%nat] [2%nat] ex_store 0); [exact Hn | exact Hd |].
  vm_compute. reflexivity.
Defined.


Lemma update_masks_in_range_witness :
  exists o' st', update_masks true ex_mc ex_mask_opt tt ex_st0 = Ok (o', st') /\
    holds_on (in_range (-10) 10) [2%nat] (ms_store st').
Proof.
  eexists _, _. split; [vm_compute; reflexivity|].
  eapply (update_masks_in_range ex_mc ex_mask_opt _ tt ex_st0). vm_compute. reflexivity.
Defined.

Lemma update_masks_only_distributions_witness :
  exists o' st', update_masks true ex_mc ex_mask_opt tt ex_st0 = Ok (o', st') /\
    assigns_only [2%nat] ex_store (ms_store st').
Proof.
  eexists _, _. split; [vm_compute; reflexivity|].
  eapply (update_masks_only_distributions ex_mc ex_mask_opt _ tt ex_st0). vm_compute. reflexivity.
Defined.

Lemma update_kernels_only_net_witness :
  exists o' st', update_kernels ex_mc ex_kernel_opt tt ex_st0 = Ok (o', st') /\
    assigns_only [0%nat; 1%nat] ex_store (ms_store st').
Proof.
  eexists _, _. split; [vm_compute; reflexivity|].
  eapply (update_kernels_only_net ex_mc ex_kernel_opt _ tt ex_st0). vm_compute. reflexivity.
Defined.

Lemma mask_invariant_reachable_witness :
  exists st, rtc (@mstep ex_draw sgd _ unit _ ex_mc [(0%nat, 4#100000000)]) ex_st0 st /\
             mask_inv ex_mc ex_store st.
Proof.
  eexists. split.
  - eapply rtc_l; [apply (step_schedule _ _ _ ex_st0 0)|].
    eapply rtc_once, step_sample. vm_compute. reflexivity.
  - apply (mask_invariant_reachable ex_draw ex_mc [(0%nat, 4#100000000)] ex_st0).
    + intros j Hj. vm_compute in Hj. set_solver.
    + intros j Hj. vm_compute in Hj. apply list_elem_of_singleton in Hj as ->.
      eexists; split; [reflexivity|]. repeat constructor; vm_compute; discriminate.
    + eapply rtc_l; [apply (step_schedule _ _ _ ex_st0 0)|].
      eapply rtc_once, step_sample. vm_compute. reflexivity.
Defined.
