(* ===== verification/Pruning.v ===== *)
(** * Pruning: the outer loop of the training recipe

    Lines 199-295 of [src/experimental/truning/train_for_robustness.py]:
    [train_epoch] over [update_kernels], the regulariser schedule, the
    fifty iterations that each train for [EPOCHS] epochs, multiply the
    density by 0.8, prune with SNIP to sparsity [1 - density], reset every
    weight of the network to the chosen checkpoint except the kernel masks
    (through [Tools.reset_weights_to_checkpoint] on the variables of the
    store of [Masks]) and re-apply the pruning; then the final training phase
    and the binary masks [m >= 0] it sets.

    The density is a binary64 float ([PrimFloat]), as Python computes it.
    SNIP pruning, [apply_pruning_for_model], the fresh clone of
    [tf.keras.models.clone_model] and the training batches are the
    interfaces [Framework] and [Dataset].

    Theorems: the reset keeps every kernel mask as pruning left it and
    gives every other weight its checkpoint value; the loop passes the
    sparsities [1 - 0.8 ^ k] to SNIP in order; the final masks are
    [m >= 0] of their distributions, entry by entry, and nothing else is
    written.  Lemmas: the density strictly decreases and stays positive
    over the fifty iterations, and it is not the exact [0.8 ^ n] of the
    spec.  [reset_weights_to_checkpoint] and [set_kernel_masks_values] are
    imported by the script from [experimental.toolkit], not in the
    repository: the first is identified with tools.py's function of that
    name, the second is the pairwise assignment of its call site. *)

From Stdlib Require Import Floats.
From S2P Require Import Prelude Keras Tools Masks.

#[local] Set Warnings "-inexact-float".

(** ** Constants of the script *)

Definition EPOCHS : nat := 4.
Definition STEPS : nat := 2000.
Definition ITERATIONS : nat := 50.

(** [regularizer_schedule = {0: 4e-8}]. *)
Definition regularizer_schedule : list (nat * Q) := [(0%nat, 4#100000000)].

(** The name fragment that [reset_weights_to_checkpoint] skips. *)
Definition kernel_mask_keyword : string := "kernel_mask".

(** ** Density *)

(** [density = density * 0.8]. *)
Definition density_step (density : float) : float := PrimFloat.mul density 0.8.

(** The density after [n] iterations, from [density = 1.0]. *)
Fixpoint density_after (n : nat) : float :=
  match n with
  | 0 => 1.0
  | S n' => density_step (density_after n')
  end.

(** [1 - density], the sparsity given to SNIP. *)
Definition sparsity_of (density : float) : float := PrimFloat.sub 1.0 density.

(** ** Interfaces *)

(** [pruning.prune_SNIP(net, dataset, {"sparsity": s, "n_batches": 10})],
    [pruning.apply_pruning_for_model(net)] and the fresh weights of
    [tf.keras.models.clone_model(model)]. *)
Class Framework := {
  prune_SNIP : gmap nat tfvar -> float -> gmap nat tfvar;
  apply_pruning_for_model : gmap nat tfvar -> gmap nat tfvar;
  clone_fresh : model -> model
}.

(** The batches of the [k]-th pass over [ds['train']]. *)
Class Dataset (Batch : Type) := { train_batches : nat -> list Batch }.

(** ** The network in the store *)

(** [net]: its variables, read from the store. *)
Definition read_net (c : mask_config) (s : gmap nat tfvar) : result model :=
  ws ← mapM (var_read s) (net_weights c); mret (mkModel [] ws).

(** The variables of [net] after an in-place update. *)
Fixpoint write_vars (ids : list nat) (ws : list tfvar) (s : gmap nat tfvar) : gmap nat tfvar :=
  match ids, ws with
  | id :: ids', w :: ws' => write_vars ids' ws' (<[id := w]> s)
  | _, _ => s
  end.

Section Loop.
Context `{Framework} {Opt : Type} `{Optimizer Opt} {Batch : Type} `{Tape Batch} `{Dataset Batch}.
Context (c : mask_config) (ckp : string) (F : fs unit).

(** [reset_weights_to_checkpoint(net, choosen_checkpoint,
    skip_keyword='kernel_mask')]. *)
Definition reset_net (s : gmap nat tfvar) : result (gmap nat tfvar) :=
  m ← read_net c s;
  '(m', _) ← reset_weights_to_checkpoint m (Some ckp) (Some kernel_mask_keyword) (clone_fresh m) F;
  mret (write_vars (net_weights c) (mweights m') s).

Record prune_state := mkPS {
  ps_masks : mask_state;
  ps_kopt : Opt;                (** [kernel_optimizer] *)
  ps_density : float;
  ps_passes : nat;              (** passes over [ds['train']] so far *)
  ps_sparsities : list float    (** the sparsity of each [prune_SNIP] call *)
}.

(** The [for x, y in ds['train'].take(steps): train_step(...)] loop. *)
Fixpoint train_steps (o : Opt) (batches : list Batch) (st : mask_state) : result (Opt * mask_state) :=
  match batches with
  | [] => mret (o, st)
  | b :: bs => '(o', st') ← update_kernels c o b st; train_steps o' bs st'
  end.

(** [train_epoch(net, STEPS, update_kernels)]. *)
Definition train_epoch (steps : nat) (ps : prune_state) : result prune_state :=
  '(o', st') ← train_steps (ps_kopt ps) (take steps (train_batches (ps_passes ps))) (ps_masks ps);
  mret (mkPS st' o' (ps_density ps) (S (ps_passes ps)) (ps_sparsities ps)).

(** [for epoch in range(EPOCHS)]: the schedule, then one epoch; the
    validation, logging and plotting change no state. *)
Fixpoint epochs_loop (epoch n : nat) (ps : prune_state) : result prune_state :=
  match n with
  | 0 => mret ps
  | S n' =>
      let ps1 := mkPS (apply_schedule regularizer_schedule epoch (ps_masks ps)) (ps_kopt ps)
                      (ps_density ps) (ps_passes ps) (ps_sparsities ps) in
      ps2 ← train_epoch STEPS ps1;
      epochs_loop (S epoch) n' ps2
  end.

(** One iteration of [for _ in range(50)]. *)
Definition prune_iteration (ps : prune_state) : result prune_state :=
  ps1 ← epochs_loop 0 EPOCHS ps;
  let density := density_step (ps_density ps1) in
  let s2 := prune_SNIP (ms_store (ps_masks ps1)) (sparsity_of density) in
  s3 ← reset_net s2;
  let s4 := apply_pruning_for_model s3 in
  let st := ps_masks ps1 in
  mret (mkPS (mkMS s4 (ms_rng st) (ms_mask_reg st)) (ps_kopt ps1) density (ps_passes ps1)
             (ps_sparsities ps1 ++ [sparsity_of density])).

Fixpoint pruning_loop (n : nat) (ps : prune_state) : result prune_state :=
  match n with
  | 0 => mret ps
  | S n' => ps' ← prune_iteration ps; pruning_loop n' ps'
  end.
End Loop.

(** [new_masks = [tf.cast(m >= 0, tf.float32) for m in mask_distributions]]
    followed by [set_kernel_masks_values(kernel_masks, new_masks)]. *)
Definition binary_mask (d : tensor) : tensor :=
  mkT (tshape d) (map (fun x => if Qle_bool 0 x then 1%Q else 0%Q) (tdata d)).

Fixpoint set_final_masks (kms ds : list nat) (s : gmap nat tfvar) : result (gmap nat tfvar) :=
  match kms, ds with
  | km :: kms', d :: ds' =>
      dv ← var_read s d; s' ← var_assign s km (binary_mask (vval dv)); set_final_masks kms' ds' s'
  | _, _ => mret s
  end.

(** ** Example instances *)

(** Pruning that leaves the store as it is, a clone with the same values,
    and one batch per pass. *)
#[export] Instance ex_framework : Framework := {|
  prune_SNIP s _ := s;
  apply_pruning_for_model s := s;
  clone_fresh m := m
|}.

#[export] Instance ex_dataset : Dataset unit := {| train_batches _ := [tt] |}.

(** The checkpoint of [Masks.ex_store]'s network (kernel and kernel mask). *)
Definition ex_ckp_fs : fs unit :=
  mkFs {["ckp.h5" := H5Weights [mkT [2%nat] [3; 4]%Q; mkT [2%nat] [1; 1]%Q]]} ∅.

Definition ex_ps0 : @prune_state sgd := mkPS ex_st0 ex_kernel_opt 1.0 0 [].

(** The final masks: entries in {0, 1}. *)
Definition binary (t : tensor) : Prop := Forall (fun x => x ∈ [0; 1]%Q) (tdata t).

(** What the end of the script makes of the kernel mask [w] paired with
    the distribution [dv]: [w'] has the name, trainability and shape of
    [w], one entry per entry [x] of [dv], 1 where [x >= 0] and 0 where
    [x < 0]. *)
Definition final_mask_of (w dv w' : tfvar) : Prop :=
  vname w' = vname w /\ vtrainable w' = vtrainable w /\ tshape (vval w') = tshape (vval w) /\
  length (tdata (vval w')) = length (tdata (vval dv)) /\
  forall n x, tdata (vval dv) !! n = Some x ->
    ((0 <= x)%Q -> tdata (vval w') !! n = Some 1%Q) /\ ((x < 0)%Q -> tdata (vval w') !! n = Some 0%Q).

(** The checks on one iteration's density, evaluated for all fifty. *)
Definition density_ok (n : nat) : bool :=
  PrimFloat.ltb (density_after (S n)) (density_after n) &&
  PrimFloat.ltb 0 (density_after (S n)) &&
  PrimFloat.ltb 0 (sparsity_of (density_after (S n))) &&
  PrimFloat.ltb (sparsity_of (density_after (S n))) 1.

(** ** Lemmas *)

Lemma density_ok_all : forallb density_ok (seq 0 ITERATIONS) = true.
Proof. vm_compute. reflexivity. Qed.

Lemma mapM_var_read s ids ws :
  mapM (var_read s) ids = Ok ws -> Forall2 (fun id w => s !! id = Some w) ids ws.
Proof.
  revert ws; induction ids as [|id ids IH]; intros ws; simpl; [intros [= <-]; constructor|].
  do 2 result_case. intros [= <-]. constructor; [by apply var_read_Ok | auto].
Qed.

Lemma write_vars_lookup ids ws s i id :
  NoDup ids -> length ws = length ids -> ids !! i = Some id ->
  write_vars ids ws s !! id = ws !! i.
Proof.
  revert ws s i; induction ids as [|id' ids IH]; intros ws s i Hnd Hl Hi; [done|].
  destruct ws as [|w ws]; [done|]. apply NoDup_cons in Hnd as [Hn Hnd]. simpl.
  destruct i as [|i]; simpl in *.
  - injection Hi as ->. clear IH.
    assert (forall ids ws s, id ∉ ids -> write_vars ids ws s !! id = s !! id) as Hfr.
    { induction ids0 as [|j js IHj]; intros [|v vs] s0 Hj; simpl; try done.
      rewrite IHj by set_solver. apply lookup_insert_ne. set_solver. }
    rewrite Hfr by done. apply lookup_insert_eq.
  - apply IH; auto.
Qed.

Lemma train_epoch_keeps `{Framework} {Opt} `{Optimizer Opt} {Batch} `{Tape Batch} `{Dataset Batch}
    c steps (ps ps' : @prune_state Opt) :
  train_epoch c steps ps = Ok ps' ->
  ps_density ps' = ps_density ps /\ ps_sparsities ps' = ps_sparsities ps.
Proof. unfold train_epoch. result_case. destruct a. intros [= <-]. done. Qed.

Lemma epochs_loop_keeps `{Framework} {Opt} `{Optimizer Opt} {Batch} `{Tape Batch} `{Dataset Batch}
    c epoch n (ps ps' : @prune_state Opt) :
  epochs_loop c epoch n ps = Ok ps' ->
  ps_density ps' = ps_density ps /\ ps_sparsities ps' = ps_sparsities ps.
Proof.
  revert epoch ps; induction n as [|n IH]; intros epoch ps; simpl; [by intros [= <-]|].
  result_case. intros Hr. destruct (IH _ _ Hr) as [-> ->].
  destruct (train_epoch_keeps _ _ _ _ E) as [-> ->]. done.
Qed.

Lemma prune_iteration_density `{Framework} {Opt} `{Optimizer Opt} {Batch} `{Tape Batch} `{Dataset Batch}
    c ckp F (ps ps' : @prune_state Opt) :
  prune_iteration c ckp F ps = Ok ps' ->
  ps_density ps' = density_step (ps_density ps) /\
  ps_sparsities ps' = ps_sparsities ps ++ [sparsity_of (density_step (ps_density ps))].
Proof.
  unfold prune_iteration. result_case. result_case. intros [= <-]; simpl.
  destruct (epochs_loop_keeps _ _ _ _ _ E) as [-> ->]. done.
Qed.

Lemma set_final_masks_frame kms ds s s' :
  set_final_masks kms ds s = Ok s' -> forall j, j ∉ kms -> s' !! j = s !! j.
Proof.
  revert ds s; induction kms as [|km kms IH]; intros [|d ds] s; simpl; try (intros [= <-]; done).
  do 2 result_case. intros Hr j Hj. rewrite (IH _ _ Hr j) by set_solver.
  apply var_assign_Ok_inv in E0 as (v & _ & _ & ->). apply lookup_insert_ne. set_solver.
Qed.

Lemma binary_mask_final w dv :
  tshape (binary_mask (vval dv)) = tshape (vval w) ->
  final_mask_of w dv (set_vval w (binary_mask (vval dv))).
Proof.
  intros Hsh. split_and!; try done; simpl; [by rewrite length_map|].
  intros n x Hx. rewrite lookup_map, Hx. simpl.
  split; intros Hq.
  - by rewrite (proj2 (Qle_bool_iff 0 x) Hq).
  - destruct (Qle_bool 0 x) eqn:Hb; [apply Qle_bool_iff in Hb; lra | done].
Qed.

Lemma set_final_masks_pair kms ds s s' i km d :
  NoDup kms -> (forall k, k ∈ kms -> k ∉ ds) ->
  set_final_masks kms ds s = Ok s' -> kms !! i = Some km -> ds !! i = Some d ->
  exists w dv w', s !! km = Some w /\ s !! d = Some dv /\ s' !! km = Some w' /\ final_mask_of w dv w'.
Proof.
  revert ds s i; induction kms as [|k kms IH]; intros [|d' ds] s i Hnd Hdis Hr Hk Hd; try done.
  apply NoDup_cons in Hnd as [Hk' Hnd]. simpl in Hr. revert Hr. do 2 result_case. intros Hr.
  apply var_read_Ok in E. apply var_assign_Ok_inv in E0 as (w & Hw & Hsh & ->).
  destruct i as [|i]; simpl in Hk, Hd.
  - injection Hk as <-. injection Hd as <-. exists w, a, (set_vval w (binary_mask (vval a))).
    split_and!; [done | done | | by apply binary_mask_final].
    rewrite (set_final_masks_frame _ _ _ _ Hr k Hk'). apply lookup_insert_eq.
  - destruct (IH ds _ i Hnd ltac:(set_solver) Hr Hk Hd) as (w1 & dv1 & w' & Hw1 & Hd1 & Hs' & Hf).
    apply list_elem_of_lookup_2 in Hk, Hd.
    rewrite lookup_insert_ne in Hw1 by set_solver. rewrite lookup_insert_ne in Hd1 by set_solver.
    eauto 10.
Qed.

(** ** Theorems *)

(** Over the fifty iterations of the loop the density, computed in
    binary64, strictly decreases and stays positive, and every sparsity
    given to SNIP lies strictly between 0 and 1. *)
Lemma density_decreasing (n : nat) :
  n < ITERATIONS ->
  PrimFloat.ltb (density_after (S n)) (density_after n) = true /\
  PrimFloat.ltb 0 (density_after (S n)) = true /\
  PrimFloat.ltb 0 (sparsity_of (density_after (S n))) = true /\
  PrimFloat.ltb (sparsity_of (density_after (S n))) 1 = true.
Proof.
  intros Hn. pose proof density_ok_all as Hall. rewrite forallb_forall in Hall.
  specialize (Hall n (proj2 (in_seq _ _ _) (conj (Nat.le_0_l n) Hn))).
  unfold density_ok in Hall. rewrite !andb_true_iff in Hall. tauto.
Qed.

(** The density is not [initial_density * 0.8 ^ N] exactly, as the
    spec states: after two iterations it is the float just above 0.64. *)
Lemma density_not_exact :
  density_after 2 <> 0.64%float /\ density_after 2 = PrimFloat.next_up 0.64.
Proof. split; [vm_compute; discriminate | vm_compute; reflexivity]. Qed.

(** C4: the checkpoint reset of each iteration leaves every variable of
    the network whose name contains ["kernel_mask"] as pruning left it, and
    gives every other variable the checkpoint's value at its position. *)
Theorem reset_net_keeps_masks `{Framework} (c : mask_config) (ckp : string) (F : fs unit)
    (s s' : gmap nat tfvar) (vals : list tensor) :
  NoDup (net_weights c) -> ckp <> "" ->
  fs_files F !! ckp = Some (H5Weights vals) ->
  length vals = length (net_weights c) ->
  reset_net c ckp F s = Ok s' ->
  forall (i id : nat) (w : tfvar), net_weights c !! i = Some id -> s !! id = Some w ->
    (str_contains kernel_mask_keyword (vname w) = true -> s' !! id = Some w) /\
    (str_contains kernel_mask_keyword (vname w) = false ->
       exists v, vals !! i = Some v /\ s' !! id = Some (set_vval w v)).
Proof.
  intros Hnd Hckp HF Hl. unfold reset_net, read_net.
  destruct (mapM (var_read s) (net_weights c)) as [ws|] eqn:Hr; simpl; [|discriminate].
  apply mapM_var_read in Hr. pose proof (Forall2_length _ _ _ Hr) as Hlw.
  result_case. destruct a as [m' k]. intros [= <-] i id w Hi Hw.
  assert (length (mweights (mkModel [] ws)) = length vals) as Hlm by (simpl; lia).
  rewrite (reset_Ok_inv _ _ _ _ _ _ vals _ Hckp HF Hlm E).
  rewrite (write_vars_lookup (net_weights c) _ s i id); [| done | by rewrite length_zip_with; lia | done].
  destruct (Forall2_lookup_l _ _ _ _ _ Hr Hi) as (w' & Hw' & Hs). rewrite Hw in Hs.
  injection Hs as <-. simpl. rewrite lookup_zip_with, Hw'. simpl.
  destruct (vals !! i) as [v|] eqn:Hv.
  2:{ apply lookup_lt_Some in Hi. apply lookup_ge_None in Hv. lia. }
  unfold reset_value. simpl. split; intros ->; simpl; eauto.
Qed.

(** C27: a loop of [n] iterations started at the density after [k]
    iterations ends at the density after [k + n] and gives SNIP the
    sparsities [1 - density] of iterations [k + 1 .. k + n], in order. *)
Theorem pruning_loop_sparsities `{Framework} {Opt} `{Optimizer Opt} {Batch} `{Tape Batch}
    `{Dataset Batch} (c : mask_config) (ckp : string) (F : fs unit) (n k : nat)
    (ps ps' : @prune_state Opt) :
  ps_density ps = density_after k ->
  pruning_loop c ckp F n ps = Ok ps' ->
  ps_density ps' = density_after (k + n) /\
  ps_sparsities ps' = ps_sparsities ps ++ map (fun j => sparsity_of (density_after (S j))) (seq k n).
Proof.
  revert k ps; induction n as [|n IH]; intros k ps Hd; simpl.
  - intros [= <-]. rewrite Nat.add_0_r, app_nil_r. done.
  - result_case. intros Hl. destruct (prune_iteration_density _ _ _ _ _ E) as [Hd1 Hs1].
    rewrite Hd in Hd1, Hs1.
    destruct (IH (S k) a Hd1 Hl) as [-> ->]. rewrite Nat.add_succ_r. split; [done|].
    rewrite Hs1, <- app_assoc. done.
Qed.

(** C18: the end of the script sets each kernel mask [kms !! i] to
    [tf.cast(m >= 0)] of the distribution [ds !! i] it is paired with: an
    entry is 1 where the distribution's entry is non-negative and 0 where
    it is negative; the mask keeps its name, trainability and shape, and no
    variable other than the kernel masks changes. *)
Theorem set_final_masks_spec (kms ds : list nat) (s s' : gmap nat tfvar) :
  NoDup kms -> (forall k, k ∈ kms -> k ∉ ds) ->
  set_final_masks kms ds s = Ok s' ->
  (forall j, j ∉ kms -> s' !! j = s !! j) /\
  forall (i km d : nat), kms !! i = Some km -> ds !! i = Some d ->
    exists w dv w', s !! km = Some w /\ s !! d = Some dv /\ s' !! km = Some w' /\
      final_mask_of w dv w'.
Proof.
  intros Hnd Hdis Hr. split; [by apply (set_final_masks_frame _ _ _ _ Hr)|].
  intros i km d Hk Hd. by apply (set_final_masks_pair kms ds s s' i km d).
Qed.

(** ** Witnesses *)

Lemma reset_net_keeps_masks_witness :
  exists s', reset_net ex_mc "ckp.h5" ex_ckp_fs ex_store = Ok s' /\
    s' !! 1%nat = Some (mkVar "conv/kernel_mask:0" (mkT [2%nat] [1; 0]%Q) false).
Proof.
  eexists. split; [vm_compute; reflexivity|].
  eapply (reset_net_keeps_masks ex_mc "ckp.h5" ex_ckp_fs ex_store _ [mkT [2%nat] [3; 4]%Q; mkT [2%nat] [1; 1]%Q]
            ltac:(repeat constructor; set_solver) ltac:(discriminate) eq_refl eq_refl
            ltac:(vm_compute; reflexivity) 1 1); reflexivity.
Defined.

Lemma pruning_loop_sparsities_witness :
  exists ps', pruning_loop ex_mc "ckp.h5" ex_ckp_fs 2 ex_ps0 = Ok ps' /\
    ps_density ps' = density_after (0 + 2) /\
    ps_sparsities ps' = ps_sparsities ex_ps0 ++
                        map (fun j => sparsity_of (density_after (S j))) (seq 0 2).
Proof.
  eexists. split; [vm_compute; reflexivity|].
  eapply (pruning_loop_sparsities ex_mc "ckp.h5" ex_ckp_fs 2 0 ex_ps0); [reflexivity|].
  vm_compute. reflexivity.
Defined.

Lemma set_final_masks_spec_witness :
  NoDup [1%nat] /\ (forall k, k ∈ [1%nat] -> k ∉ [2%nat]) /\
  exists s', set_final_masks [1%nat] [2%nat] ex_store = Ok s' /\
    ((forall j, j ∉ [1%nat] -> s' !! j = ex_store !! j) /\
     forall (i km d : nat), [1%nat] !! i = Some km -> [2%nat] !! i = Some d ->
       exists w dv w', ex_store !! km = Some w /\ ex_store !! d = Some dv /\ s' !! km = Some w' /\
         final_mask_of w dv w').
Proof.
  assert (NoDup [1%nat]) as Hn by (repeat constructor; set_solver).
  assert (forall k, k ∈ [1%nat] -> k ∉ [2%nat]) as Hd by set_solver.
  split; [exact Hn|]. split; [exact Hd|].
  eexists. split; [vm_compute; reflexivity|].
  apply (set_final_masks_spec [1%nat] [2%nat] ex_store); [exact Hn | exact Hd | vm_compute; reflexivity].
Defined.
