(* ===== verification/Runner.v ===== *)
(** * run.py: the experiment-queue runner

    The loop of [src/run.py] over an experiment queue.  An experiment record
    is an ordered dictionary of YAML values ([experiment]); the dynamically
    imported module is the interface [ExperimentModule], which returns the
    record it mutated and the elapsed time, is interrupted by
    [KeyboardInterrupt], or raises.  The state is the file system with the
    YAML logs (documents appended to streams), the notification buffer of
    the Slack logger, whether the queue was closed, and the trace of what
    happened to each entry.

    The loop is given twice: as the executable [run_queue]/[run_main] and as
    the small-step relation [rstep], with the theorem that the first computes
    the final configuration of the second.  The trace of a run is computed
    from the queue alone by [expected_trace].  States that differ only in
    their trace are equivalent ([rs_equiv]); up to it, a run with [--pick]
    is the run of the picked sub-queue ([pick_queue]) and an entry skipped
    by name is as if absent.  The other theorems say that each completed
    record is appended to its log in queue order, what dry runs,
    interruptions and crashes do, and that notifications are flushed at the
    end of a run that does not crash. *)

From S2P Require Import Prelude Keras Tools.

#[local] Set Warnings "-register-all".

(** ** Data *)

(** YAML scalars and lists, as [yaml.safe_load] produces them. *)
Inductive yval :=
  | YNone
  | YBool (b : bool)
  | YInt (z : Z)
  | YFloat (q : Q)
  | YStr (s : string)
  | YList (l : list yval).

(** Python truthiness. *)
Definition truthy (v : yval) : bool :=
  match v with
  | YNone => false
  | YBool b => b
  | YInt z => negb (Z.eqb z 0)
  | YFloat q => negb (Qeq_bool q 0)
  | YStr s => negb (String.eqb s "")
  | YList l => negb (Nat.eqb (length l) 0)
  end.

(** An experiment record: its keys and values in insertion order. *)
Record experiment := mkExp { exp_items : list (string * yval) }.

(** A YAML document of the log: [exp.todict()]. *)
Definition doc := list (string * yval).

(** Attribute access [exp.k]; an absent key reads as [None]. *)
Definition exp_get (k : string) (e : experiment) : yval :=
  match find (fun kv => String.eqb kv.1 k) (exp_items e) with
  | Some kv => kv.2
  | None => YNone
  end.

(** Attribute assignment [exp.k = v]: an existing key keeps its place, a new
    key goes at the end. *)
Fixpoint items_set (k : string) (v : yval) (l : list (string * yval)) : list (string * yval) :=
  match l with
  | [] => [(k, v)]
  | (k', v') :: l' => if String.eqb k' k then (k', v) :: l' else (k', v') :: items_set k v l'
  end.

Definition exp_set (k : string) (v : yval) (e : experiment) : experiment :=
  mkExp (items_set k v (exp_items e)).

Definition todict (e : experiment) : doc := exp_items e.

(** The command line: [--dry] and [--pick]. *)
Record cmd_args := mkArgs { dry : bool; pick : option (list Z) }.

(** ** The experiment module *)

Inductive module_outcome :=
  | Returned (exp' : experiment) (elapsed : Q)
  | Interrupted
  | Crashed (e : exn).

(** [importlib.import_module(exp.Module).main(exp)], with the record as the
    module leaves it and the time [time.time() - t0]. *)
Class ExperimentModule := {
  module_main : string -> experiment -> module_outcome
}.

(** ** State *)

Inductive entry_status :=
  | NotPicked
  | NameSkipped
  | DryListed
  | Completed
  | KeyboardInterrupted.

Record runner_state := mkRS {
  rs_fs : fs doc;
  rs_pending : list experiment;     (** reports added, not yet sent *)
  rs_sent : list experiment;        (** reports sent *)
  rs_slack_closed : bool;
  rs_queue_closed : bool;
  rs_trace : list (nat * entry_status)
}.

Definition rs_log (i : nat) (s : entry_status) (st : runner_state) : runner_state :=
  mkRS (rs_fs st) (rs_pending st) (rs_sent st) (rs_slack_closed st) (rs_queue_closed st)
       (rs_trace st ++ [(i, s)]).

(** The end of one entry: go on with the next one, or stop the run with an
    exception (the state is what was done until then). *)
Inductive step_result :=
  | Continue (st : runner_state)
  | Abort (st : runner_state) (e : exn).

(** ** The loop *)

Section Loop.
Context `{ExperimentModule}.
Context (args : cmd_args) (use_slack : bool).

(** [if args.pick and exp_idx not in args.pick]. *)
Definition not_picked (idx : nat) : bool :=
  match pick args with
  | Some ((_ :: _) as l) => negb (bool_decide (Z.of_nat idx ∈ l))
  | _ => false
  end.

(** [if not exp.Name or exp.Name == "skip"]. *)
Definition name_skipped (e : experiment) : bool :=
  negb (truthy (exp_get "Name" e)) ||
  match exp_get "Name" e with YStr s => String.eqb s "skip" | _ => false end.

(** The [try] block: run the module, set [TIME_ELAPSED], create the log
    directory, append the record to the log, queue the report. *)
Definition run_experiment (idx : nat) (e : experiment) (st : runner_state) : step_result :=
  match exp_get "Module" e with
  | YStr m =>
      match module_main m e with
      | Interrupted => Continue (rs_log idx KeyboardInterrupted st)
      | Crashed err => Abort st err
      | Returned e' elapsed =>
          let e'' := exp_set "TIME_ELAPSED" (YFloat elapsed) e' in
          match exp_get "YamlLog" e'' with
          | YStr p =>
              match append_yaml p (todict e'') (ensure_parent_dir p (rs_fs st)) with
              | Ok F' =>
                  Continue (rs_log idx Completed
                    (mkRS F' (rs_pending st ++ (if use_slack then [e''] else []))
                          (rs_sent st) (rs_slack_closed st) (rs_queue_closed st) (rs_trace st)))
              | Raise err => Abort st err
              end
          | _ => Abort st (ModuleError "YamlLog is not a path")
          end
      end
  | _ => Abort st (ModuleError "Module is not a module name")
  end.

(** The body of the [for] loop for entry [idx]. *)
Definition run_entry (idx : nat) (e : experiment) (st : runner_state) : step_result :=
  if not_picked idx then Continue (rs_log idx NotPicked st)
  else if name_skipped e then Continue (rs_log idx NameSkipped st)
  else if dry args then Continue (rs_log idx DryListed st)
  else run_experiment idx e st.

(** [for exp_idx, exp in enumerate(experiment_queue)], from index [idx]. *)
Fixpoint run_queue (idx : nat) (q : list experiment) (st : runner_state)
  : runner_state * option exn :=
  match q with
  | [] => (st, None)
  | e :: q' =>
      match run_entry idx e st with
      | Continue st' => run_queue (S idx) q' st'
      | Abort st' err => (st', Some err)
      end
  end.

(** After the loop: close a YAML queue, send the accumulated reports and
    close the logger's threads. *)
Definition finish (yaml_queue : bool) (st : runner_state) : runner_state :=
  let st1 := if yaml_queue then mkRS (rs_fs st) (rs_pending st) (rs_sent st)
                                    (rs_slack_closed st) true (rs_trace st) else st in
  if use_slack then mkRS (rs_fs st1) [] (rs_sent st1 ++ rs_pending st1) true
                         (rs_queue_closed st1) (rs_trace st1)
  else st1.

(** The run from the start of the loop: the final state, and the
    exception that ended it if one did. *)
Definition run_main (yaml_queue : bool) (q : list experiment) (st : runner_state)
  : runner_state * option exn :=
  match run_queue 0 q st with
  | (st', None) => (finish yaml_queue st', None)
  | (st', Some err) => (st', Some err)
  end.
End Loop.

(** [use_slack = 'slack' in Global and Global.slack]. *)
Definition use_slack_of (global : list (string * yval)) : bool :=
  match find (fun kv => String.eqb kv.1 "slack") global with
  | Some kv => truthy kv.2
  | None => false
  end.

(** ** The loop as a state machine *)

(** Where the runner is: at the start of an entry, running the module of
    the current entry, or finished (with the exception that ended the run,
    if any). *)
Inductive phase := AtEntry | Running | Finished (r : option exn).

Record rconf := RC { rc_idx : nat; rc_queue : list experiment; rc_state : runner_state; rc_phase : phase }.

Section Machine.
Context `{ExperimentModule} (args : cmd_args) (use_slack yaml_queue : bool).

Inductive rstep : rconf -> rconf -> Prop :=
  | r_not_picked i e q st :
      not_picked args i = true ->
      rstep (RC i (e :: q) st AtEntry) (RC (S i) q (rs_log i NotPicked st) AtEntry)
  | r_name_skipped i e q st :
      not_picked args i = false -> name_skipped e = true ->
      rstep (RC i (e :: q) st AtEntry) (RC (S i) q (rs_log i NameSkipped st) AtEntry)
  | r_dry i e q st :
      not_picked args i = false -> name_skipped e = false -> dry args = true ->
      rstep (RC i (e :: q) st AtEntry) (RC (S i) q (rs_log i DryListed st) AtEntry)
  | r_start i e q st :
      not_picked args i = false -> name_skipped e = false -> dry args = false ->
      rstep (RC i (e :: q) st AtEntry) (RC i (e :: q) st Running)
  | r_done i e q st st' :
      run_experiment use_slack i e st = Continue st' ->
      rstep (RC i (e :: q) st Running) (RC (S i) q st' AtEntry)
  | r_crash i e q st st' err :
      run_experiment use_slack i e st = Abort st' err ->
      rstep (RC i (e :: q) st Running) (RC i (e :: q) st' (Finished (Some err)))
  | r_finish i st :
      rstep (RC i [] st AtEntry) (RC i [] (finish use_slack yaml_queue st) (Finished None)).
End Machine.

(** ** Reference: what each entry leaves in the logs *)

Section Reference.
Context `{ExperimentModule} (args : cmd_args).

(** The log path and document an entry appends, if any. *)
Definition entry_record (i : nat) (e : experiment) : option (string * doc) :=
  if not_picked args i || name_skipped e || dry args then None
  else match exp_get "Module" e with
       | YStr m =>
           match module_main m e with
           | Returned e' t =>
               let e'' := exp_set "TIME_ELAPSED" (YFloat t) e' in
               match exp_get "YamlLog" e'' with
               | YStr p => Some (p, todict e'')
               | _ => None
               end
           | _ => None
           end
       | _ => None
       end.

Definition expected_records (i : nat) (q : list experiment) : list (string * doc) :=
  omap (fun ie => entry_record ie.1 ie.2) (zip (seq i (length q)) q).

(** What becomes of an entry, from the guards and the module's outcome
    alone: the status it is traced with, or the exception that ends the
    run. *)
Definition entry_outcome (i : nat) (e : experiment) : entry_status + exn :=
  if not_picked args i then inl NotPicked
  else if name_skipped e then inl NameSkipped
  else if dry args then inl DryListed
  else match exp_get "Module" e with
       | YStr m =>
           match module_main m e with
           | Returned e' t =>
               match exp_get "YamlLog" (exp_set "TIME_ELAPSED" (YFloat t) e') with
               | YStr _ => inl Completed
               | _ => inr (ModuleError "YamlLog is not a path")
               end
           | Interrupted => inl KeyboardInterrupted
           | Crashed err => inr err
           end
       | _ => inr (ModuleError "Module is not a module name")
       end.

(** The trace of a queue from index [i], and the exception that ends it. *)
Fixpoint expected_trace (i : nat) (q : list experiment) : list (nat * entry_status) * option exn :=
  match q with
  | [] => ([], None)
  | e :: q' =>
      match entry_outcome i e with
      | inl s => let '(t, r) := expected_trace (S i) q' in ((i, s) :: t, r)
      | inr err => ([], Some err)
      end
  end.
End Reference.

(** The entries of [q], numbered from [i], whose index is in [l]. *)
Fixpoint pick_queue (l : list Z) (i : nat) (q : list experiment) : list experiment :=
  match q with
  | [] => []
  | e :: q' => if bool_decide (Z.of_nat i ∈ l) then e :: pick_queue l (S i) q'
               else pick_queue l (S i) q'
  end.

(** Two runner states that differ at most in their trace: same files,
    same reports, same closed flags. *)
Definition rs_equiv (st1 st2 : runner_state) : Prop :=
  rs_fs st1 = rs_fs st2 /\ rs_pending st1 = rs_pending st2 /\ rs_sent st1 = rs_sent st2 /\
  rs_slack_closed st1 = rs_slack_closed st2 /\ rs_queue_closed st1 = rs_queue_closed st2.

(** Two ends of runs: equivalent states and the same exception. *)
Definition run_equiv (r1 r2 : runner_state * option exn) : Prop :=
  rs_equiv r1.1 r2.1 /\ r1.2 = r2.2.

Definition step_equiv (r1 r2 : step_result) : Prop :=
  match r1, r2 with
  | Continue st1, Continue st2 => rs_equiv st1 st2
  | Abort st1 e1, Abort st2 e2 => rs_equiv st1 st2 /\ e1 = e2
  | _, _ => False
  end.

(** The documents of the YAML stream at [p]. *)
Definition yaml_docs (F : fs doc) (p : string) : list doc :=
  match fs_files F !! p with Some (YamlStream ds) => ds | _ => [] end.

Definition docs_for (p : string) (rs : list (string * doc)) : list doc :=
  map snd (filter (fun r => r.1 = p) rs).

(** ** Example data *)

(** A module that adds an accuracy to the record and takes 3 seconds, one
    that is interrupted, and a missing one. *)
Definition ex_module_main (m : string) (e : experiment) : module_outcome :=
  if String.eqb m "modules.train" then Returned (exp_set "acc" (YFloat (9#10)) e) 3
  else if String.eqb m "modules.interrupt" then Interrupted
  else Crashed (ModuleError ("No module named " ++ m)).

#[local] Instance ex_module : ExperimentModule := {| module_main := ex_module_main |}.

Definition ex_exp (name module : string) : experiment :=
  mkExp [("Name", YStr name); ("Module", YStr module); ("YamlLog", YStr "logs/out.yaml")].

Definition ex_rs0 : runner_state := mkRS (mkFs ∅ ∅) [] [] false false [].

(** ** Lemmas *)

Lemma rstep_deterministic `{ExperimentModule} args use_slack yaml_queue c c1 c2 :
  rstep args use_slack yaml_queue c c1 -> rstep args use_slack yaml_queue c c2 -> c1 = c2.
Proof. intros H1 H2. destruct H1; inversion H2; subst; congruence. Qed.

Lemma rstep_finished_stuck `{ExperimentModule} args use_slack yaml_queue i q st r c :
  ~ rstep args use_slack yaml_queue (RC i q st (Finished r)) c.
Proof. intros Hs. inversion Hs. Qed.

Lemma append_yaml_parent F p d :
  parent_exists F p = true ->
  append_yaml p d F = Ok (mkFs (<[p := YamlStream (yaml_docs F p ++ [d])]> (fs_files F)) (fs_dirs F)).
Proof. unfold append_yaml, yaml_docs. by intros ->. Qed.

Lemma yaml_docs_append F p p' d :
  parent_exists F p' = true ->
  exists F', append_yaml p' d F = Ok F' /\
    yaml_docs F' p = yaml_docs F p ++ (if bool_decide (p' = p) then [d] else []).
Proof.
  intros Hp. rewrite append_yaml_parent by done. eexists; split; [done|].
  unfold yaml_docs at 1; simpl. case_bool_decide as E.
  - subst. by rewrite lookup_insert_eq.
  - rewrite lookup_insert_ne by done. by rewrite app_nil_r.
Qed.

Lemma yaml_docs_ensure_parent_dir F p p' : yaml_docs (ensure_parent_dir p' F) p = yaml_docs F p.
Proof. unfold yaml_docs. by rewrite ensure_parent_dir_files. Qed.

Lemma rs_log_fs i s st : rs_fs (rs_log i s st) = rs_fs st.
Proof. reflexivity. Qed.

#[export] Hint Rewrite rs_log_fs yaml_docs_ensure_parent_dir : cr_rw.

(** What one entry does to the trace. *)
Lemma run_entry_trace `{ExperimentModule} args use_slack i e st :
  match run_entry args use_slack i e st with
  | Continue st' => exists s, rs_trace st' = rs_trace st ++ [(i, s)]
  | Abort st' _ => rs_trace st' = rs_trace st
  end.
Proof.
  unfold run_entry, run_experiment.
  repeat (case_match; simplify_eq/=); eauto.
Qed.

(** What one entry does to the logs: the document of [entry_record]. *)
Lemma run_entry_docs `{ExperimentModule} args use_slack i e st st' p :
  run_entry args use_slack i e st = Continue st' ->
  yaml_docs (rs_fs st') p =
    yaml_docs (rs_fs st) p ++ docs_for p (option_list (entry_record args i e)).
Proof.
  unfold run_entry, entry_record.
  destruct (not_picked args i), (name_skipped e), (dry args); simpl;
    try (intros [= <-]; simpl; by rewrite app_nil_r).
  unfold run_experiment.
  destruct (exp_get "Module" e); try discriminate.
  destruct (module_main s e) as [e' t| |err]; try discriminate;
    [|intros [= <-]; simpl; by rewrite app_nil_r].
  destruct (exp_get "YamlLog" _) as [| | | | p' |]; try discriminate.
  destruct (yaml_docs_append (ensure_parent_dir p' (rs_fs st)) p p'
              (todict (exp_set "TIME_ELAPSED" (YFloat t) e')) (ensure_parent_dir_parent _ _))
    as (F' & -> & Hd).
  intros [= <-]; simpl. rewrite Hd, yaml_docs_ensure_parent_dir.
  unfold docs_for; simpl. rewrite filter_cons, filter_nil.
  destruct (decide (p' = p)) as [Hp|Hp].
  - rewrite bool_decide_eq_true_2, decide_True by done. done.
  - rewrite bool_decide_eq_false_2, decide_False by done. done.
Qed.

(** What one entry does to the notification buffer. *)
Lemma run_entry_reports `{ExperimentModule} args i e st st' :
  run_entry args true i e st = Continue st' ->
  rs_pending st' = rs_pending st ++ map (fun r => mkExp r.2) (option_list (entry_record args i e)) /\
  rs_sent st' = rs_sent st /\ rs_slack_closed st' = rs_slack_closed st.
Proof.
  unfold run_entry, entry_record.
  destruct (not_picked args i), (name_skipped e), (dry args); simpl;
    try (intros [= <-]; simpl; by rewrite app_nil_r).
  unfold run_experiment.
  destruct (exp_get "Module" e); try discriminate.
  destruct (module_main s e) as [e' t| |err]; try discriminate;
    [|intros [= <-]; simpl; by rewrite app_nil_r].
  destruct (exp_get "YamlLog" _) as [| | | | p' |]; try discriminate.
  rewrite append_yaml_parent by apply ensure_parent_dir_parent.
  intros [= <-]; simpl. done.
Qed.

(** One entry as steps of the machine. *)
Lemma run_entry_rstep `{ExperimentModule} args use_slack yaml_queue i e q st :
  match run_entry args use_slack i e st with
  | Continue st' => rtc (rstep args use_slack yaml_queue) (RC i (e :: q) st AtEntry)
                        (RC (S i) q st' AtEntry)
  | Abort st' err => rtc (rstep args use_slack yaml_queue) (RC i (e :: q) st AtEntry)
                        (RC i (e :: q) st' (Finished (Some err)))
  end.
Proof.
  unfold run_entry.
  destruct (not_picked args i) eqn:Hp; [apply rtc_once; by constructor|].
  destruct (name_skipped e) eqn:Hn; [apply rtc_once; by constructor|].
  destruct (dry args) eqn:Hd; [apply rtc_once; by constructor|].
  destruct (run_experiment use_slack i e st) eqn:Hr;
    (eapply rtc_l; [by apply r_start|]); apply rtc_once; by constructor.
Qed.

Lemma rtc_det_final {A} (R : relation A) x y z :
  (forall a b c, R a b -> R a c -> b = c) ->
  rtc R x y -> rtc R x z -> (forall w, ~ R y w) -> (forall w, ~ R z w) -> y = z.
Proof.
  intros Hdet Hy. revert z. induction Hy as [x|x x' y Hs Hr IH]; intros z Hz Hfy Hfz.
  - inversion Hz as [|? x'' ? Hs' _]; subst; [done|]. by destruct (Hfy _ Hs').
  - inversion Hz as [|? x'' ? Hs' Hr']; subst; [by destruct (Hfz _ Hs)|].
    rewrite (Hdet _ _ _ Hs Hs') in IH. by apply IH.
Qed.

Lemma run_queue_rstep `{ExperimentModule} args use_slack yaml_queue i q st st' r :
  run_queue args use_slack i q st = (st', r) ->
  exists i' q', rtc (rstep args use_slack yaml_queue) (RC i q st AtEntry)
                    (RC i' q' st' (match r with None => AtEntry | Some err => Finished (Some err) end)) /\
                (r = None -> q' = []).
Proof.
  revert i st; induction q as [|e q IH]; intros i st; simpl.
  - intros [= <- <-]. exists i, []. split; [apply rtc_refl | done].
  - pose proof (run_entry_rstep args use_slack yaml_queue i e q st) as Hs.
    destruct (run_entry args use_slack i e st) as [st1|st1 err].
    + intros Hq. destruct (IH _ _ Hq) as (i' & q' & Hr & Hn).
      exists i', q'. split; [|done]. eapply rtc_trans; [exact Hs | exact Hr].
    + intros [= <- <-]. exists i, (e :: q). split; [exact Hs | done].
Qed.

Lemma docs_for_app p l1 l2 : docs_for p (l1 ++ l2) = docs_for p l1 ++ docs_for p l2.
Proof. unfold docs_for. by rewrite filter_app, map_app. Qed.

Lemma expected_records_cons `{ExperimentModule} args i e q :
  expected_records args i (e :: q) = option_list (entry_record args i e) ++ expected_records args (S i) q.
Proof. unfold expected_records. simpl. by destruct (entry_record args i e). Qed.

Lemma run_queue_docs `{ExperimentModule} args use_slack i q st st' p :
  run_queue args use_slack i q st = (st', None) ->
  yaml_docs (rs_fs st') p = yaml_docs (rs_fs st) p ++ docs_for p (expected_records args i q).
Proof.
  revert i st; induction q as [|e q IH]; intros i st; simpl.
  - intros [= <-]. unfold expected_records, docs_for. simpl. by rewrite app_nil_r.
  - destruct (run_entry args use_slack i e st) as [st1|st1 err] eqn:E; [|discriminate].
    intros Hq. rewrite (IH _ _ Hq), (run_entry_docs _ _ _ _ _ _ p E), <- app_assoc.
    by rewrite expected_records_cons, docs_for_app.
Qed.

Lemma run_entry_flags `{ExperimentModule} args use_slack i e st :
  match run_entry args use_slack i e st with
  | Continue st' | Abort st' _ =>
      rs_sent st' = rs_sent st /\ rs_slack_closed st' = rs_slack_closed st /\
      rs_queue_closed st' = rs_queue_closed st
  end.
Proof. unfold run_entry, run_experiment. repeat (case_match; simplify_eq/=); auto. Qed.

Lemma run_queue_flags `{ExperimentModule} args use_slack i q st st' r :
  run_queue args use_slack i q st = (st', r) ->
  rs_sent st' = rs_sent st /\ rs_slack_closed st' = rs_slack_closed st /\
  rs_queue_closed st' = rs_queue_closed st.
Proof.
  revert i st; induction q as [|e q IH]; intros i st; simpl; [by intros [= <- _]|].
  pose proof (run_entry_flags args use_slack i e st) as Hf.
  destruct (run_entry args use_slack i e st) as [st1|st1 err].
  - intros Hq. destruct (IH _ _ Hq) as (? & ? & ?). destruct Hf as (? & ? & ?). split_and!; congruence.
  - intros [= <- _]. done.
Qed.

Lemma run_queue_reports `{ExperimentModule} args i q st st' :
  run_queue args true i q st = (st', None) ->
  rs_pending st' = rs_pending st ++ map (fun r => mkExp r.2) (expected_records args i q).
Proof.
  revert i st; induction q as [|e q IH]; intros i st; simpl.
  - intros [= <-]. unfold expected_records. simpl. by rewrite app_nil_r.
  - destruct (run_entry args true i e st) as [st1|st1 err] eqn:E; [|discriminate].
    intros Hq. rewrite (IH _ _ Hq). destruct (run_entry_reports _ _ _ _ _ E) as (-> & _ & _).
    by rewrite expected_records_cons, map_app, app_assoc.
Qed.

Lemma run_queue_dry `{ExperimentModule} args use_slack i q st :
  dry args = true ->
  exists st', run_queue args use_slack i q st = (st', None) /\ rs_fs st' = rs_fs st.
Proof.
  intros Hd. revert i st; induction q as [|e q IH]; intros i st; simpl; [eauto|].
  unfold run_entry. rewrite Hd.
  destruct (not_picked args i), (name_skipped e); simpl;
    match goal with |- context [run_queue _ _ (S i) q ?s] =>
      destruct (IH (S i) s) as (st' & -> & Hf); eauto end.
Qed.

(** *** States equal up to the trace *)

#[export] Instance rs_equiv_equivalence : Equivalence rs_equiv.
Proof.
  split; [by repeat split | |].
  - intros ?? (?&?&?&?&?); by repeat split.
  - intros ??? (?&?&?&?&?) (?&?&?&?&?); repeat split; congruence.
Qed.

Lemma rs_log_equiv i s st : rs_equiv (rs_log i s st) st.
Proof. by repeat split. Qed.

Lemma run_equiv_refl r : run_equiv r r.
Proof. by split. Qed.

#[export] Hint Resolve run_equiv_refl : cr.

Lemma finish_equiv use_slack yaml_queue st1 st2 :
  rs_equiv st1 st2 -> rs_equiv (finish use_slack yaml_queue st1) (finish use_slack yaml_queue st2).
Proof. intros (Hf&Hp&Hs&Hc&Hq). unfold finish. destruct yaml_queue, use_slack; repeat split; simpl; congruence. Qed.

Lemma finish_trace use_slack yaml_queue st : rs_trace (finish use_slack yaml_queue st) = rs_trace st.
Proof. unfold finish. by repeat case_match. Qed.

(** The module call does not depend on the index nor on the trace. *)
Lemma run_experiment_equiv `{ExperimentModule} use_slack i j e st1 st2 :
  rs_equiv st1 st2 ->
  step_equiv (run_experiment use_slack i e st1) (run_experiment use_slack j e st2).
Proof.
  intros Heq. pose proof Heq as (Hf&Hp&Hs&Hc&Hq). unfold run_experiment. rewrite Hf.
  repeat case_match; simpl; rewrite ?rs_log_equiv; try done;
    repeat split; simpl; congruence.
Qed.

Lemma run_entry_equiv `{ExperimentModule} args1 args2 use_slack i j e st1 st2 :
  not_picked args1 i = not_picked args2 j -> dry args1 = dry args2 -> rs_equiv st1 st2 ->
  step_equiv (run_entry args1 use_slack i e st1) (run_entry args2 use_slack j e st2).
Proof.
  intros Hp Hd Heq. unfold run_entry. rewrite Hp, Hd.
  destruct (not_picked args2 j), (name_skipped e), (dry args2); simpl;
    rewrite ?rs_log_equiv; try done. by apply run_experiment_equiv.
Qed.

(** The shape of the loop body: equivalent ends of an entry, continued by
    equivalent runs, give equivalent runs. *)
Lemma continue_equiv (r1 r2 : step_result) (k1 k2 : runner_state -> runner_state * option exn) :
  step_equiv r1 r2 -> (forall st1 st2, rs_equiv st1 st2 -> run_equiv (k1 st1) (k2 st2)) ->
  run_equiv (match r1 with Continue st => k1 st | Abort st err => (st, Some err) end)
            (match r2 with Continue st => k2 st | Abort st err => (st, Some err) end).
Proof. destruct r1, r2; simpl; try done. - auto. - intros [? ->] _. by split. Qed.

Lemma not_picked_None args i : pick args = None -> not_picked args i = false.
Proof. unfold not_picked. by intros ->. Qed.

Lemma run_queue_equiv `{ExperimentModule} args use_slack q i j st1 st2 :
  pick args = None -> rs_equiv st1 st2 ->
  run_equiv (run_queue args use_slack i q st1) (run_queue args use_slack j q st2).
Proof.
  intros Hn. revert i j st1 st2; induction q as [|e q IH]; intros i j st1 st2 Heq; simpl; [by split|].
  apply continue_equiv; [|auto]. apply run_entry_equiv; [by rewrite !not_picked_None | done | done].
Qed.

Lemma run_main_equiv `{ExperimentModule} args1 args2 use_slack yaml_queue q1 q2 st1 st2 :
  run_equiv (run_queue args1 use_slack 0 q1 st1) (run_queue args2 use_slack 0 q2 st2) ->
  run_equiv (run_main args1 use_slack yaml_queue q1 st1) (run_main args2 use_slack yaml_queue q2 st2).
Proof.
  unfold run_main. destruct (run_queue args1 _ _ _ _) as [s1 [e1|]], (run_queue args2 _ _ _ _) as [s2 [e2|]];
    intros [Heq Hr]; simpl in *; try done. split; [by apply finish_equiv | done].
Qed.

Lemma run_queue_app `{ExperimentModule} args use_slack i q1 q2 st :
  run_queue args use_slack i (q1 ++ q2) st =
  match run_queue args use_slack i q1 st with
  | (st', None) => run_queue args use_slack (i + length q1) q2 st'
  | r => r
  end.
Proof.
  revert i st; induction q1 as [|e q1 IH]; intros i st; simpl; [by rewrite Nat.add_0_r|].
  destruct (run_entry args use_slack i e st); [|done]. by rewrite IH, Nat.add_succ_r.
Qed.

Lemma run_queue_pick `{ExperimentModule} d use_slack l q i j st1 st2 :
  l <> [] -> rs_equiv st1 st2 ->
  run_equiv (run_queue (mkArgs d (Some l)) use_slack i q st1)
            (run_queue (mkArgs d None) use_slack j (pick_queue l i q) st2).
Proof.
  intros Hl. revert i j st1 st2; induction q as [|e q IH]; intros i j st1 st2 Heq; simpl; [by split|].
  destruct l as [|z l']; [done|].
  case_bool_decide as Hi; simpl.
  - apply continue_equiv; [|auto]. apply run_entry_equiv; [|done|done].
    unfold not_picked; simpl. by rewrite bool_decide_eq_true_2.
  - unfold run_entry at 1, not_picked at 1; simpl. rewrite bool_decide_eq_false_2 by done.
    simpl. apply IH. by rewrite rs_log_equiv.
Qed.

(** *** The trace *)

Lemma run_entry_outcome `{ExperimentModule} args use_slack i e st :
  match run_entry args use_slack i e st, entry_outcome args i e with
  | Continue st', inl s => rs_trace st' = rs_trace st ++ [(i, s)]
  | Abort st' err, inr err' => err = err' /\ rs_trace st' = rs_trace st
  | _, _ => False
  end.
Proof.
  unfold run_entry, entry_outcome, run_experiment.
  destruct (not_picked args i), (name_skipped e), (dry args); simpl; try done.
  destruct (exp_get "Module" e); try done.
  destruct (module_main s e) as [e' t| |err]; simpl; try done.
  destruct (exp_get "YamlLog" _); try done.
  by rewrite append_yaml_parent by apply ensure_parent_dir_parent.
Qed.

Lemma run_queue_trace_spec `{ExperimentModule} args use_slack i q st :
  rs_trace (run_queue args use_slack i q st).1 = rs_trace st ++ (expected_trace args i q).1 /\
  (run_queue args use_slack i q st).2 = (expected_trace args i q).2.
Proof.
  revert i st; induction q as [|e q IH]; intros i st; simpl; [by rewrite app_nil_r|].
  pose proof (run_entry_outcome args use_slack i e st) as Ho.
  destruct (run_entry args use_slack i e st) as [st1|st1 err], (entry_outcome args i e) as [s|err'];
    try done.
  - destruct (IH (S i) st1) as [Ht Hr]. destruct (expected_trace args (S i) q) as [t r]; simpl in *.
    split; [|done]. rewrite Ht, Ho. by rewrite <- app_assoc.
  - destruct Ho as [-> Ht]. simpl. by rewrite Ht, app_nil_r.
Qed.

(** ** Theorems *)

(** C1: the executable run and the state machine agree: [run_main] returns
    the final state [st'] and outcome [r] exactly when the machine, started
    at the first entry, reaches a finished configuration with [st'] and
    [r]. *)
Theorem run_main_rstep `{ExperimentModule} (args : cmd_args) (use_slack yaml_queue : bool)
    (q : list experiment) (st st' : runner_state) (r : option exn) :
  run_main args use_slack yaml_queue q st = (st', r) <->
  exists i' q', rtc (rstep args use_slack yaml_queue) (RC 0 q st AtEntry) (RC i' q' st' (Finished r)).
Proof.
  assert (Hfwd : forall st1 r1, run_main args use_slack yaml_queue q st = (st1, r1) ->
            exists i' q', rtc (rstep args use_slack yaml_queue) (RC 0 q st AtEntry)
                              (RC i' q' st1 (Finished r1))).
  { intros st1 r1. unfold run_main.
    destruct (run_queue args use_slack 0 q st) as [st2 [err|]] eqn:Hq;
      destruct (run_queue_rstep args use_slack yaml_queue _ _ _ _ _ Hq) as (i' & q' & Hr & Hn).
    - intros [= <- <-]. eauto.
    - intros [= <- <-]. rewrite (Hn eq_refl) in Hr.
      exists i', []. eapply rtc_r; [exact Hr | constructor]. }
  split; [apply Hfwd|]. intros (i' & q' & Hr).
  destruct (run_main args use_slack yaml_queue q st) as [st1 r1] eqn:Hm.
  destruct (Hfwd _ _ eq_refl) as (i1 & q1 & Hr1).
  assert (RC i1 q1 st1 (Finished r1) = RC i' q' st' (Finished r)) as Heq.
  { eapply rtc_det_final; [apply rstep_deterministic | exact Hr1 | exact Hr | |];
      intros w Hw; inversion Hw. }
  by injection Heq as -> -> -> ->.
Qed.

(** C2: a run that does not crash leaves in each log file the documents it
    held before followed by the records of the entries that completed and
    log to that file, in queue order ([expected_records]: the entries that
    were picked, are named and not ["skip"], not a dry run, and whose
    module returned); nothing is overwritten. *)
Theorem run_main_logs `{ExperimentModule} (args : cmd_args) (use_slack yaml_queue : bool)
    (q : list experiment) (st st' : runner_state) (p : string) :
  run_main args use_slack yaml_queue q st = (st', None) ->
  yaml_docs (rs_fs st') p = yaml_docs (rs_fs st) p ++ docs_for p (expected_records args 0 q).
Proof.
  unfold run_main. destruct (run_queue args use_slack 0 q st) as [st1 [err|]] eqn:Hq; [discriminate|].
  intros [= <-]. rewrite <- (run_queue_docs _ _ _ _ _ _ p Hq).
  unfold finish. by repeat case_match.
Qed.

(** C10: the trace of a run is determined by the queue alone: each
    entry, in order and with its index, is traced as not picked, skipped by
    name, listed by a dry run, completed, or interrupted, according to the
    guards of the loop and what its module did; the first entry whose module
    raises anything but [KeyboardInterrupt] (or whose record has no module
    or log path) ends the run with that exception, and later entries are
    not traced. *)
Theorem run_main_trace `{ExperimentModule} (args : cmd_args) (use_slack yaml_queue : bool)
    (q : list experiment) (st : runner_state) :
  let '(st', r) := run_main args use_slack yaml_queue q st in
  rs_trace st' = rs_trace st ++ (expected_trace args 0 q).1 /\ r = (expected_trace args 0 q).2.
Proof.
  destruct (run_queue_trace_spec args use_slack 0 q st) as [Ht Hr].
  unfold run_main. destruct (run_queue args use_slack 0 q st) as [st1 [err|]]; simpl in *;
    rewrite ?finish_trace; auto.
Qed.

(** C14: a run with [--pick l] ([l] not empty) does to the logs, the
    reports and the queue exactly what a run without [--pick] does on the
    entries whose index is in [l], and ends with the same exception. *)
Theorem pick_runs_sub_queue `{ExperimentModule} (d use_slack yaml_queue : bool) (l : list Z)
    (q : list experiment) (st : runner_state) :
  l <> [] ->
  run_equiv (run_main (mkArgs d (Some l)) use_slack yaml_queue q st)
            (run_main (mkArgs d None) use_slack yaml_queue (pick_queue l 0 q) st).
Proof. intros Hl. apply run_main_equiv, run_queue_pick; [done | reflexivity]. Qed.

(** C15: without [--pick], an entry whose [Name] is falsy ([None], [""],
    ...) or ["skip"] has no effect on a run, wherever it stands in the
    queue: the logs, the reports, the queue and the outcome are those of
    the queue without it. *)
Theorem skip_by_name `{ExperimentModule} (d use_slack yaml_queue : bool)
    (q1 q2 : list experiment) (e : experiment) (st : runner_state) :
  truthy (exp_get "Name" e) = false \/ exp_get "Name" e = YStr "skip" ->
  run_equiv (run_main (mkArgs d None) use_slack yaml_queue (q1 ++ e :: q2) st)
            (run_main (mkArgs d None) use_slack yaml_queue (q1 ++ q2) st).
Proof.
  intros Hn. apply run_main_equiv. rewrite !run_queue_app.
  destruct (run_queue _ _ 0 q1 st) as [st1 [err|]]; [by split|]. simpl.
  assert (name_skipped e = true) as Hs.
  { unfold name_skipped. destruct Hn as [-> | ->]; reflexivity. }
  unfold run_entry at 1. rewrite Hs. simpl.
  apply run_queue_equiv; [done | apply rs_log_equiv].
Qed.

(** C22: with notifications on, a run that does not crash ends with the
    buffer empty, every report sent (those accumulated before, then one per
    completed entry in queue order), the logger closed, and a YAML queue
    closed. *)
Theorem run_main_flushes_reports `{ExperimentModule} (args : cmd_args) (yaml_queue : bool)
    (q : list experiment) (st st' : runner_state) :
  run_main args true yaml_queue q st = (st', None) ->
  rs_pending st' = [] /\
  rs_sent st' = rs_sent st ++ rs_pending st ++ map (fun r => mkExp r.2) (expected_records args 0 q) /\
  rs_slack_closed st' = true /\ rs_queue_closed st' = (yaml_queue || rs_queue_closed st).
Proof.
  unfold run_main. destruct (run_queue args true 0 q st) as [st1 [err|]] eqn:Hq; [discriminate|].
  intros [= <-]. pose proof (run_queue_reports _ _ _ _ _ Hq) as Hp.
  destruct (run_queue_flags _ _ _ _ _ _ _ Hq) as (Hs & _ & Hc).
  unfold finish. destruct yaml_queue; simpl; rewrite Hp, Hs, ?Hc; split_and!; try done;
    by rewrite app_assoc.
Qed.

(** C23: a run that ends with an exception from a module sends none of the
    accumulated reports, closes neither the logger nor the queue: the
    reports of the entries that completed before are lost. *)
Theorem run_main_crash_no_flush `{ExperimentModule} (args : cmd_args) (use_slack yaml_queue : bool)
    (q : list experiment) (st st' : runner_state) (err : exn) :
  run_main args use_slack yaml_queue q st = (st', Some err) ->
  rs_sent st' = rs_sent st /\ rs_slack_closed st' = rs_slack_closed st /\
  rs_queue_closed st' = rs_queue_closed st.
Proof.
  unfold run_main. destruct (run_queue args use_slack 0 q st) as [st1 [e|]] eqn:Hq; [|discriminate].
  intros [= <- <-]. exact (run_queue_flags _ _ _ _ _ _ _ Hq).
Qed.

(** C24: a dry run never crashes and writes no file: it only lists the
    entries. *)
Theorem run_main_dry `{ExperimentModule} (args : cmd_args) (use_slack yaml_queue : bool)
    (q : list experiment) (st st' : runner_state) (r : option exn) :
  dry args = true ->
  run_main args use_slack yaml_queue q st = (st', r) ->
  r = None /\ rs_fs st' = rs_fs st.
Proof.
  intros Hd. unfold run_main.
  destruct (run_queue_dry args use_slack 0 q st Hd) as (st1 & -> & Hf).
  intros [= <- <-]. split; [done|]. unfold finish. by repeat case_match.
Qed.

(** C25: when the module of a picked, named entry is interrupted, the run
    goes on with the next entry exactly as if the entry had only been
    recorded as interrupted: no log is written and no report queued. *)
Theorem run_queue_interrupt_continues `{ExperimentModule} (args : cmd_args) (use_slack : bool)
    (i : nat) (e : experiment) (q : list experiment) (st : runner_state) (m : string) :
  not_picked args i = false -> name_skipped e = false -> dry args = false ->
  exp_get "Module" e = YStr m -> module_main m e = Interrupted ->
  run_queue args use_slack i (e :: q) st =
    run_queue args use_slack (S i) q (rs_log i KeyboardInterrupted st).
Proof.
  intros Hp Hn Hd Hm Hi. simpl. unfold run_entry, run_experiment.
  by rewrite Hp, Hn, Hd, Hm, Hi.
Qed.

(** C26: [--pick] given with no index ([args.pick == []], which is falsy)
    runs every entry, exactly as when [--pick] is absent. *)
Theorem pick_empty_runs_all `{ExperimentModule} (d use_slack yaml_queue : bool)
    (q : list experiment) (st : runner_state) :
  run_main (mkArgs d (Some [])) use_slack yaml_queue q st =
  run_main (mkArgs d None) use_slack yaml_queue q st.
Proof.
  unfold run_main.
  assert (forall i st, run_queue (mkArgs d (Some [])) use_slack i q st =
                       run_queue (mkArgs d None) use_slack i q st) as ->; [|done].
  induction q as [|e q IH]; intros i st'; simpl; [done|].
  unfold run_entry; simpl. by repeat case_match; rewrite ?IH.
Qed.

(** ** Witnesses *)

Definition ex_queue : list experiment :=
  [ex_exp "a" "modules.train"; ex_exp "b" "modules.interrupt"; ex_exp "c" "modules.train"].

Lemma run_main_logs_witness :
  exists st', run_main (mkArgs false None) true true ex_queue ex_rs0 = (st', None) /\
    yaml_docs (rs_fs st') "logs/out.yaml" =
      yaml_docs (rs_fs ex_rs0) "logs/out.yaml" ++
      docs_for "logs/out.yaml" (expected_records (mkArgs false None) 0 ex_queue).
Proof.
  eexists. split; [vm_compute; reflexivity|].
  apply (run_main_logs (mkArgs false None) true true ex_queue ex_rs0). vm_compute. reflexivity.
Defined.

Lemma run_main_flushes_reports_witness :
  exists st', run_main (mkArgs false None) true true ex_queue ex_rs0 = (st', None) /\
    rs_pending st' = [] /\
    rs_sent st' = rs_sent ex_rs0 ++ rs_pending ex_rs0 ++
                  map (fun r => mkExp r.2) (expected_records (mkArgs false None) 0 ex_queue) /\
    rs_slack_closed st' = true /\ rs_queue_closed st' = (true || rs_queue_closed ex_rs0).
Proof.
  eexists. split; [vm_compute; reflexivity|].
  apply (run_main_flushes_reports (mkArgs false None) true ex_queue ex_rs0). vm_compute. reflexivity.
Defined.

Lemma run_main_crash_no_flush_witness :
  exists st' err, run_main (mkArgs false None) true true
                    [ex_exp "a" "modules.train"; ex_exp "b" "modules.missing"] ex_rs0 = (st', Some err) /\
    rs_sent st' = rs_sent ex_rs0 /\ rs_slack_closed st' = rs_slack_closed ex_rs0 /\
    rs_queue_closed st' = rs_queue_closed ex_rs0.
Proof.
  eexists _, _. split; [vm_compute; reflexivity|].
  eapply (run_main_crash_no_flush (mkArgs false None) true true
            [ex_exp "a" "modules.train"; ex_exp "b" "modules.missing"] ex_rs0).
  vm_compute. reflexivity.
Defined.

Lemma run_main_dry_witness :
  exists st' r, run_main (mkArgs true None) true true ex_queue ex_rs0 = (st', r) /\
    r = None /\ rs_fs st' = rs_fs ex_rs0.
Proof.
  eexists _, _. split; [vm_compute; reflexivity|].
  eapply (run_main_dry (mkArgs true None) true true ex_queue ex_rs0); [reflexivity|].
  vm_compute. reflexivity.
Defined.

Lemma run_queue_interrupt_continues_witness :
  run_queue (mkArgs false None) true 1 [ex_exp "b" "modules.interrupt"] ex_rs0 =
  run_queue (mkArgs false None) true 2 [] (rs_log 1 KeyboardInterrupted ex_rs0).
Proof.
  apply (run_queue_interrupt_continues (mkArgs false None) true 1 (ex_exp "b" "modules.interrupt")
           [] ex_rs0 "modules.interrupt"); reflexivity.
Defined.

Lemma pick_runs_sub_queue_witness :
  [0; 2]%Z <> [] /\
  run_equiv (run_main (mkArgs false (Some [0; 2]%Z)) true true ex_queue ex_rs0)
            (run_main (mkArgs false None) true true (pick_queue [0; 2]%Z 0 ex_queue) ex_rs0).
Proof. split; [discriminate|]. apply (pick_runs_sub_queue false true true [0; 2]%Z ex_queue ex_rs0). discriminate. Defined.

Lemma skip_by_name_witness :
  (truthy (exp_get "Name" (ex_exp "skip" "modules.train")) = false \/
     exp_get "Name" (ex_exp "skip" "modules.train") = YStr "skip") /\
  run_equiv (run_main (mkArgs false None) true true
               ([ex_exp "a" "modules.train"] ++ ex_exp "skip" "modules.train" :: [ex_exp "c" "modules.train"]) ex_rs0)
            (run_main (mkArgs false None) true true
               ([ex_exp "a" "modules.train"] ++ [ex_exp "c" "modules.train"]) ex_rs0).
Proof.
  split; [right; reflexivity|].
  apply (skip_by_name false true true [ex_exp "a" "modules.train"] [ex_exp "c" "modules.train"]
           (ex_exp "skip" "modules.train") ex_rs0). right. reflexivity.
Defined.
