(* ===== verification/Script.v ===== *)
(** * Script: the module-level code of the training recipe

    The statements of [src/experimental/truning/train_for_robustness.py]
    outside its functions, composed in the order the module runs them:
    the setup (lines 57-109: the checkpoint table, the performance network
    loaded for reference, the mask distributions created as
    [tf.Variable(tf.ones_like(mask))], the network loaded from the chosen
    checkpoint, the distributions set to [mask_initial_value] and the masks
    sampled from them twice), the fifty pruning iterations of [Pruning],
    the final phase of [EPOCHS] epochs (lines 271-290) and the binary masks
    of lines 294-295.

    Theorems: the setup gives fresh distributions, separate from the
    network, all equal to 5.0, and kernel masks that are all ones whatever
    the uniform draws; the setup establishes the invariant of [Masks] that
    the mask-phase steps preserve; and, since the active code never trains
    the distributions ([update_masks] is commented out of the loop), the
    masks the script sets at the end are all ones: the pruning of the fifty
    iterations is overwritten. *)

From Stdlib Require Import Floats.
From S2P Require Import Prelude Keras Tools Masks Pruning.

#[local] Set Warnings "-inexact-float".

(** ** Constants *)

(** [mask_initial_value = 5.] and [mask_sampling = True]. *)
Definition mask_initial_value : Q := 5.
Definition mask_sampling : bool := true.

(** [checkpoint_lookup]. *)
Definition checkpoint_lookup : gmap string string := list_to_map [
  ("2k", "data/partial_training_checkpoints/VGG19_2000it/0.h5");
  ("8k", "data/partial_training_checkpoints/VGG19_8000it/0.h5");
  ("16k", "data/partial_training_checkpoints/VGG19_16000it/0.h5");
  ("2k2", "data/partial_training_checkpoints/VGG19_2000it/1.h5");
  ("8k2", "data/partial_training_checkpoints/VGG19_8000it/1.h5");
  ("full_from_2k", "data/VGG19_IMP03_ticket/130735/0.h5");
  ("unrl_full1", "data/VGG19_full_training/70754/0.h5");
  ("unrl_full2", "data/VGG19_full_training/70754/1.h5");
  ("perf", "data/VGG19_IMP03_ticket/770423/10.h5");
  ("perf2", "data/VGG19_IMP03_ticket/775908/10.h5")].

(** [choosen_checkpoint = checkpoint_lookup['2k']]; the key is present, so
    the default of [!!!] is never used. *)
Definition choosen_checkpoint : string := checkpoint_lookup !!! "2k".
Definition perf_checkpoint : string := checkpoint_lookup !!! "perf".

(** ** Setup *)

(** [[tf.Variable(tf.ones_like(mask)) for mask in kernel_masks]]: each new
    variable gets an id that no variable of the store has. *)
Fixpoint create_distributions (kms : list nat) (s : gmap nat tfvar)
  : result (gmap nat tfvar * list nat) :=
  match kms with
  | [] => mret (s, [])
  | km :: kms' =>
      v ← var_read s km;
      let id := fresh (dom s) in
      '(s', ids) ← create_distributions kms' (<[id := mkVar "Variable:0" (ones_like (vval v)) true]> s);
      mret (s', id :: ids)
  end.

(** [set_kernel_masks_values(masks, value)] with a scalar [value]: every
    entry of every mask becomes [value]. *)
Definition fill (t : tensor) (q : Q) : tensor := tmap (fun _ => q) t.

Fixpoint set_kernel_masks_value (ids : list nat) (q : Q) (s : gmap nat tfvar)
  : result (gmap nat tfvar) :=
  match ids with
  | [] => mret s
  | id :: ids' => v ← var_read s id; s' ← var_assign s id (fill (vval v) q);
                  set_kernel_masks_value ids' q s'
  end.

(** [model.load_weights(path)] on the variables of [net] in the store. *)
Definition load_net (c : mask_config) (p : string) (F : fs unit) (s : gmap nat tfvar)
  : result (gmap nat tfvar) :=
  m ← read_net c s; m' ← load_weights m p F; mret (write_vars (net_weights c) (mweights m') s).

(** Lines 74-109, from the store holding [net] (its weights [net_ids], its
    kernel masks [kms]) to the configuration and state the loop starts
    from. *)
Definition setup `{Framework} (draw : nat -> Q) (s0 : gmap nat tfvar) (net_ids kms : list nat)
    (F : fs unit) : result (mask_config * mask_state) :=
  (* perf_net = clone_model(net); perf_net.load_weights(checkpoint_lookup['perf']) *)
  m ← read_net (mkMC kms [] net_ids) s0;
  _ ← load_weights (clone_fresh m) perf_checkpoint F;
  (* if mask_sampling: mask_distributions = [tf.Variable(tf.ones_like(mask)) ...]
     else: mask_distributions = kernel_masks *)
  '(s1, ds) ← (if mask_sampling then create_distributions kms s0 else mret (s0, kms));
  let c := mkMC kms ds net_ids in
  (* net.load_weights(choosen_checkpoint) *)
  s2 ← load_net c choosen_checkpoint F s1;
  (* set_kernel_masks_values(mask_distributions, mask_initial_value) *)
  s3 ← set_kernel_masks_value ds mask_initial_value s2;
  (* if mask_sampling: set_kernel_masks_from_distributions(...), lines 95-96 *)
  '(s4, g1) ← (if mask_sampling then set_kernel_masks_from_distributions draw mask_activation kms ds s3 0
               else mret (s3, 0));
  (* set_kernel_masks_from_distributions(...), lines 107-109 *)
  '(s5, g2) ← set_kernel_masks_from_distributions draw mask_activation kms ds s4 g1;
  (* mask_regularization = tf.Variable(0.) *)
  mret (c, mkMS s5 g2 0).

(** ** The whole script *)

Section Run.
Context `{Framework} {Opt : Type} `{Optimizer Opt} {Batch : Type} `{Tape Batch} `{Dataset Batch}.

(** Lines 271-290: [EPOCHS] more epochs of [update_kernels]. *)
Definition final_phase (c : mask_config) (ps : prune_state) : result prune_state :=
  epochs_loop c 0 EPOCHS ps.

(** The module from top to bottom: setup, [for _ in range(50)], the final
    phase, and [set_kernel_masks_values(kernel_masks, new_masks)]. *)
Definition script (draw : nat -> Q) (s0 : gmap nat tfvar) (net_ids kms : list nat) (F : fs unit)
    (kernel_optimizer : Opt) : result (mask_config * prune_state) :=
  '(c, st) ← setup draw s0 net_ids kms F;
  ps1 ← pruning_loop c choosen_checkpoint F ITERATIONS (mkPS st kernel_optimizer 1.0%float 0 []);
  ps2 ← final_phase c ps1;
  s' ← set_final_masks (kernel_masks c) (mask_distributions c) (ms_store (ps_masks ps2));
  let st2 := ps_masks ps2 in
  mret (c, mkPS (mkMS s' (ms_rng st2) (ms_mask_reg st2)) (ps_kopt ps2) (ps_density ps2)
                (ps_passes ps2) (ps_sparsities ps2)).
End Run.

(** ** Predicates *)

(** Every entry is 1. *)
Definition all_ones (t : tensor) : Prop := Forall (fun x => x = 1%Q) (tdata t).

(** Every entry is [q]. *)
Definition all_eq (q : Q) (t : tensor) : Prop := Forall (fun x => x = q) (tdata t).

(** Writes outside [T] leave the store as it is. *)
Definition frame (T : list nat) (s s' : gmap nat tfvar) : Prop :=
  forall j, j ∉ T -> s' !! j = s !! j.

(** ** Example data *)

(** A network of one masked layer: its kernel (id 0) and kernel mask
    (id 1); the checkpoint files the script loads. *)
Definition ex_net_store : gmap nat tfvar :=
  <[0 := mkVar "conv/kernel:0" (mkT [2%nat] [1; -2]%Q) true]>
  {[1 := mkVar "conv/kernel_mask:0" (mkT [2%nat] [1; 1]%Q) false]}.

(** A dataset whose first pass has one batch and whose later passes are
    empty, so that the witness of the whole script runs one kernel step. *)
#[local] Instance ex_short_dataset : Dataset unit := {|
  train_batches k := if Nat.eqb k 0 then [tt] else []
|}.

Definition ex_script_fs : fs unit :=
  mkFs {[choosen_checkpoint := H5Weights [mkT [2%nat] [3; 4]%Q; mkT [2%nat] [1; 1]%Q];
         perf_checkpoint := H5Weights [mkT [2%nat] [7; 0]%Q; mkT [2%nat] [1; 0]%Q]]} ∅.

(** ** Lemmas *)

(** *** Frames *)

Lemma frame_refl T s : frame T s s.
Proof. done. Qed.

Lemma frame_trans T s s' s'' : frame T s s' -> frame T s' s'' -> frame T s s''.
Proof. intros F1 F2 j Hj. rewrite F2, F1; done. Qed.

Lemma assigns_only_frame T s s' : assigns_only T s s' -> frame T s s'.
Proof. by intros [F _]. Qed.

Lemma holds_on_framed P T ids s s' :
  frame T s s' -> (forall j, j ∈ ids -> j ∉ T) -> holds_on P ids s -> holds_on P ids s'.
Proof. intros F Hd Hh j Hj. rewrite F by auto. auto. Qed.

#[export] Hint Resolve frame_refl assigns_only_frame : cr.

Lemma frame_mono T T' s s' : (forall j, j ∈ T -> j ∈ T') -> frame T s s' -> frame T' s s'.
Proof. intros HT F j Hj. apply F. naive_solver. Qed.

Lemma write_vars_frame ids ws s : frame ids s (write_vars ids ws s).
Proof.
  revert ws s; induction ids as [|id ids IH]; intros [|w ws] s; simpl; try apply frame_refl.
  apply (frame_trans _ _ (<[id := w]> s)).
  - intros j Hj. apply lookup_insert_ne. set_solver.
  - eapply frame_mono, IH. set_solver.
Qed.

Lemma load_net_frame c p F s s' : load_net c p F s = Ok s' -> frame (net_weights c) s s'.
Proof. unfold load_net. do 2 result_case. intros [= <-]. apply write_vars_frame. Qed.

Lemma reset_net_frame `{Framework} c ckp F s s' :
  reset_net c ckp F s = Ok s' -> frame (net_weights c) s s'.
Proof. unfold reset_net. do 2 result_case. destruct a0. intros [= <-]. apply write_vars_frame. Qed.

Lemma apply_schedule_store sch epoch st : ms_store (apply_schedule sch epoch st) = ms_store st.
Proof. unfold apply_schedule. by case_match. Qed.

Section Frames.
Context `{Framework} {Opt : Type} `{Optimizer Opt} {Batch : Type} `{Tape Batch} `{Dataset Batch}.
Context (c : mask_config) (ckp : string) (F : fs unit).

Lemma train_steps_frame (o o' : Opt) bs st st' :
  train_steps c o bs st = Ok (o', st') -> frame (net_weights c) (ms_store st) (ms_store st').
Proof.
  revert o st; induction bs as [|b bs IH]; intros o st; simpl; [intros [= _ <-]; apply frame_refl|].
  result_case. destruct a as [o1 st1]. intros Hr.
  eapply frame_trans; [eapply assigns_only_frame, update_kernels_assigns_only_aux, E | eauto].
Qed.

Lemma epochs_loop_frame epoch n (ps ps' : prune_state) :
  epochs_loop c epoch n ps = Ok ps' ->
  frame (net_weights c) (ms_store (ps_masks ps)) (ms_store (ps_masks ps')).
Proof.
  revert epoch ps; induction n as [|n IH]; intros epoch ps; simpl; [intros [= <-]; apply frame_refl|].
  destruct (train_epoch c STEPS _) as [ps2|] eqn:E; simpl; [|discriminate].
  intros Hr. eapply frame_trans; [|exact (IH _ _ Hr)]. revert E. unfold train_epoch.
  destruct (train_steps _ _ _ _) as [[o1 st1]|] eqn:E; simpl; [|discriminate].
  intros [= <-]. simpl. rewrite <- (apply_schedule_store regularizer_schedule epoch).
  eapply train_steps_frame, E.
Qed.

Hypothesis prune_SNIP_frame : forall s sp, frame (net_weights c) s (prune_SNIP s sp).
Hypothesis apply_pruning_frame : forall s, frame (net_weights c) s (apply_pruning_for_model s).

Lemma pruning_loop_frame n (ps ps' : prune_state) :
  pruning_loop c ckp F n ps = Ok ps' ->
  frame (net_weights c) (ms_store (ps_masks ps)) (ms_store (ps_masks ps')).
Proof.
  revert ps; induction n as [|n IH]; intros ps; simpl; [intros [= <-]; apply frame_refl|].
  result_case. intros Hr. eapply frame_trans; [|exact (IH _ Hr)].
  revert E. unfold prune_iteration. do 2 result_case. intros [= <-]. simpl.
  eapply frame_trans; [eapply epochs_loop_frame, E|].
  eapply frame_trans; [apply prune_SNIP_frame|].
  eapply frame_trans; [eapply reset_net_frame, E0 | apply apply_pruning_frame].
Qed.
End Frames.

(** *** Setup *)

Lemma create_distributions_spec kms s s' ds :
  create_distributions kms s = Ok (s', ds) ->
  length ds = length kms /\ NoDup ds /\ (forall j, j ∈ ds -> s !! j = None) /\ s ⊆ s'.
Proof.
  revert s s' ds; induction kms as [|km kms IH]; intros s s' ds; simpl.
  - intros [= <- <-]. split_and!; [done | constructor | set_solver | done].
  - result_case. result_case. destruct a0 as [s1 ids]. intros [= <- <-].
    pose proof (is_fresh (dom s)) as Hf. apply not_elem_of_dom in Hf.
    destruct (IH _ _ _ E0) as (Hl & Hnd & Hn & Hsub).
    assert (Hin : fresh (dom s) ∉ ids).
    { intros Hi. specialize (Hn _ Hi). by rewrite lookup_insert_eq in Hn. }
    split_and!; simpl; [by rewrite Hl | by constructor | |].
    + intros j Hj. apply elem_of_cons in Hj as [->|Hj]; [done|].
      specialize (Hn _ Hj). rewrite lookup_insert_ne in Hn; [done|]. set_solver.
    + etrans; [apply insert_subseteq, Hf | exact Hsub].
Qed.

Lemma fill_all_eq t q : all_eq q (fill t q).
Proof. apply Forall_map, Forall_forall. done. Qed.

Lemma set_kernel_masks_value_spec ids q s s' acc :
  set_kernel_masks_value ids q s = Ok s' ->
  holds_on (all_eq q) acc s -> assigns_only ids s s' /\ holds_on (all_eq q) (ids ++ acc) s'.
Proof.
  revert s acc; induction ids as [|id ids IH]; intros s acc; simpl; [intros [= <-]; eauto with cr|].
  do 2 result_case. intros Hr Hacc.
  destruct (IH _ (id :: acc) Hr) as [Ha Hh];
    [eapply var_assign_holds_on; [exact E0 | apply fill_all_eq | exact Hacc]|].
  split.
  - eapply assigns_only_mono, assigns_only_trans; [| eapply var_assign_assigns_only, E0 | exact Ha].
    set_solver.
  - eapply holds_on_mono, Hh. set_solver.
Qed.

Lemma sample_mask_all_ones probs rnd :
  all_eq mask_initial_value probs -> Forall (fun r => r < 1)%Q (tdata rnd) ->
  all_ones (sample_mask probs rnd).
Proof.
  unfold all_eq, all_ones, sample_mask; simpl. generalize (tdata rnd).
  induction (tdata probs) as [|p ps IH]; intros [|r rs] Hp Hr; simpl; try by constructor.
  apply Forall_cons in Hp as [-> Hp]. apply Forall_cons in Hr as [Hr Hrs].
  constructor; [|by apply IH]. rewrite sample_entry_big; [done | |done]. vm_compute. discriminate.
Qed.

(** Sampling from distributions equal to [mask_initial_value] gives masks
    of ones, and leaves the distributions as they are. *)
Lemma sampling_all_ones draw kms ds s g s' g' acc :
  (forall k, (draw k < 1)%Q) -> (forall j, j ∈ ds -> j ∉ kms) ->
  holds_on (all_eq mask_initial_value) ds s ->
  set_kernel_masks_from_distributions draw mask_activation kms ds s g = Ok (s', g') ->
  holds_on all_ones acc s -> holds_on all_ones (take (length ds) kms ++ acc) s'.
Proof.
  intros Hdraw. revert ds s g acc; induction kms as [|km kms IH]; intros [|d ds] s g acc Hd Hds; simpl;
    try (intros [= <- _]; done).
  do 2 result_case. intros Hr Hacc.
  assert (Hv : all_eq mask_initial_value (vval a)).
  { apply var_read_Ok in E. destruct (Hds d) as (v & Hv & Hp); [set_solver|]. congruence. }
  eapply holds_on_mono, IH, var_assign_holds_on; [| | | exact Hr | exact E0 | | exact Hacc].
  - intros j. simpl. set_solver.
  - intros j Hj. set_solver.
  - eapply holds_on_framed; [eapply assigns_only_frame, var_assign_assigns_only, E0 | |].
    + intros j Hj. specialize (Hd j). set_solver.
    + eapply holds_on_mono, Hds. set_solver.
  - apply sample_mask_all_ones; [exact Hv|]. apply Forall_map, Forall_forall. auto.
Qed.

Lemma read_net_lookup c s m id :
  read_net c s = Ok m -> id ∈ net_weights c -> is_Some (s !! id).
Proof.
  unfold read_net. result_case. intros _ Hid. apply mapM_var_read in E.
  apply list_elem_of_lookup in Hid as [i Hi].
  destruct (Forall2_lookup_l _ _ _ _ _ E Hi) as (w & _ & Hw). eauto.
Qed.

(** [m >= 0] of a distribution that is nowhere negative is all ones. *)
Lemma binary_mask_all_ones t : Forall (fun x => 0 <= x)%Q (tdata t) -> all_ones (binary_mask t).
Proof.
  intros Ht. apply Forall_map. eapply Forall_impl; [exact Ht|].
  intros x Hx. simpl. by rewrite (proj2 (Qle_bool_iff 0 x) Hx).
Qed.

Lemma set_final_masks_ones kms ds s s' acc :
  (forall j, j ∈ ds -> j ∉ kms) ->
  holds_on (fun t => Forall (fun x => 0 <= x)%Q (tdata t)) ds s ->
  set_final_masks kms ds s = Ok s' -> holds_on all_ones acc s ->
  holds_on all_ones (take (length ds) kms ++ acc) s'.
Proof.
  revert ds s acc; induction kms as [|km kms IH]; intros [|d ds] s acc Hd Hds; simpl;
    try (intros [= <-]; done).
  do 2 result_case. intros Hr Hacc.
  eapply holds_on_mono, IH, var_assign_holds_on; [| | | exact Hr | exact E0 | | exact Hacc].
  - intros j. simpl. set_solver.
  - intros j Hj. set_solver.
  - eapply holds_on_framed; [eapply assigns_only_frame, var_assign_assigns_only, E0 | |].
    + intros j Hj. specialize (Hd j). set_solver.
    + eapply holds_on_mono, Hds. set_solver.
  - apply binary_mask_all_ones. apply var_read_Ok in E.
    destruct (Hds d) as (v & Hv & Hp); [set_solver|]. congruence.
Qed.

Lemma all_eq_nonneg t : all_eq mask_initial_value t -> Forall (fun x => 0 <= x)%Q (tdata t).
Proof. intros H. eapply Forall_impl; [exact H|]. intros x ->. vm_compute. discriminate. Qed.

Lemma holds_on_impl (P Q : tensor -> Prop) ids s :
  (forall t, P t -> Q t) -> holds_on P ids s -> holds_on Q ids s.
Proof. intros HPQ H j Hj. destruct (H j Hj) as (v & ? & ?). eauto. Qed.

(** What the setup gives, whatever the uniform draws: fresh
    distributions, separate from the network, all equal to
    [mask_initial_value]. *)
Lemma setup_distributions `{Framework} draw s0 net_ids kms F c st :
  (forall j, j ∈ kms -> j ∈ net_ids) ->
  setup draw s0 net_ids kms F = Ok (c, st) ->
  kernel_masks c = kms /\ net_weights c = net_ids /\ ms_mask_reg st = 0%Q /\
  length (mask_distributions c) = length kms /\ NoDup (mask_distributions c) /\
  (forall j, j ∈ mask_distributions c -> j ∉ kms /\ j ∉ net_ids /\ s0 !! j = None) /\
  holds_on (all_eq mask_initial_value) (mask_distributions c) (ms_store st).
Proof.
  intros Hk. unfold setup, mask_sampling. result_case. result_case. result_case. destruct a1 as [s1 ds].
  do 2 result_case. result_case. destruct a3 as [s4 g1]. result_case. destruct a3 as [s5 g2].
  intros [= <- <-]; simpl.
  destruct (create_distributions_spec _ _ _ _ E1) as (Hl & Hnd & Hfresh & _).
  assert (Hdis : forall j, j ∈ ds -> j ∉ kms /\ j ∉ net_ids /\ s0 !! j = None).
  { intros j Hj. pose proof (Hfresh j Hj) as Hn.
    assert (j ∉ net_ids) by (intros Hn'; destruct (read_net_lookup _ _ _ _ E Hn') as [? Hs]; congruence).
    split_and!; auto. }
  split_and!; auto.
  destruct (set_kernel_masks_value_spec _ _ _ _ [] E3 (holds_on_nil _ _)) as [_ H3].
  rewrite app_nil_r in H3.
  eapply holds_on_framed; [eapply assigns_only_frame, sampling_assigns_only, E5 | naive_solver |].
  eapply holds_on_framed; [eapply assigns_only_frame, sampling_assigns_only, E4 | naive_solver | done].
Qed.

Lemma mstep_rtc_inv draw `{Optimizer Opt} `{Tape Batch} c schedule s0 st st' :
  (forall j, j ∈ mask_distributions c -> j ∉ kernel_masks c /\ j ∉ net_weights c) ->
  rtc (@mstep draw Opt _ Batch _ c schedule) st st' -> mask_inv c s0 st -> mask_inv c s0 st'.
Proof.
  intros Hd Hr. induction Hr as [st|st1 st2 st3 Hs _ IH]; [done|].
  intros Hi. apply IH. eapply mstep_preserves; eauto.
Qed.

(** ** Theorems *)

(** C20: after the setup the kernel masks are all ones, whatever the
    uniform draws in [0, 1): the distributions are 5.0, so
    [rnd <= abs(probs)] always holds and the sign is +1; the distributions
    stay at 5.0. *)
Theorem setup_masks_all_ones `{Framework} (draw : nat -> Q) (s0 : gmap nat tfvar)
    (net_ids kms : list nat) (F : fs unit) (c : mask_config) (st : mask_state) :
  (forall j, j ∈ kms -> j ∈ net_ids) -> (forall k, (draw k < 1)%Q) ->
  setup draw s0 net_ids kms F = Ok (c, st) ->
  holds_on all_ones kms (ms_store st) /\
  holds_on (all_eq mask_initial_value) (mask_distributions c) (ms_store st).
Proof.
  intros Hk Hdraw Hs.
  destruct (setup_distributions _ _ _ _ _ _ _ Hk Hs) as (Hkm & _ & _ & Hl & _ & Hdis & Hfive).
  split; [|done]. revert Hs. unfold setup, mask_sampling.
  do 3 result_case. destruct a1 as [s1 ds]. do 3 result_case. destruct a3 as [s4 g1].
  result_case. destruct a3 as [s5 g2]. intros [= <- <-]; simpl in *.
  destruct (set_kernel_masks_value_spec _ _ _ _ [] E3 (holds_on_nil _ _)) as [_ H3].
  rewrite app_nil_r in H3.
  rewrite <- (app_nil_r kms), <- (take_ge kms (length ds)) by lia.
  eapply sampling_all_ones; [done | naive_solver | | exact E5 | apply holds_on_nil].
  eapply holds_on_framed; [eapply assigns_only_frame, sampling_assigns_only, E4 | naive_solver | done].
Qed.

(** C19: the setup establishes the invariant of the mask phase: the
    distributions are separate from the kernel masks and the network, and
    on every state reachable from the setup's by resampling, mask updates,
    kernel updates and the schedule, every distribution lies in [-10, 10]
    and every variable keeps its name, trainable flag and shape. *)
Theorem setup_mask_inv_reachable `{Framework} draw `{Optimizer Opt} `{Tape Batch}
    (s0 : gmap nat tfvar) (net_ids kms : list nat) (F : fs unit) (c : mask_config)
    (st st' : mask_state) :
  (forall j, j ∈ kms -> j ∈ net_ids) ->
  setup draw s0 net_ids kms F = Ok (c, st) ->
  rtc (@mstep draw Opt _ Batch _ c regularizer_schedule) st st' ->
  mask_inv c (ms_store st) st'.
Proof.
  intros Hk Hs Hr.
  destruct (setup_distributions _ _ _ _ _ _ _ Hk Hs) as (Hkm & Hn & _ & _ & _ & Hdis & Hfive).
  eapply mstep_rtc_inv; [rewrite Hkm, Hn; naive_solver | exact Hr |]. split; [done|].
  eapply holds_on_impl, Hfive. intros t Ht. eapply Forall_impl; [exact Ht|].
  intros x ->. vm_compute. split; discriminate.
Qed.

(** C7: the masks the script sets at its end are all ones. The active
    code trains only the network ([update_masks] is commented out), and
    SNIP, the pruning and the checkpoint reset write only to the network's
    variables, so every distribution is still 5.0 when
    [new_masks = [m >= 0 for m in mask_distributions]] is computed: the
    pruning of the fifty iterations is overwritten. *)
Theorem script_final_masks_all_ones `{Framework} {Opt} `{Optimizer Opt} {Batch} `{Tape Batch}
    `{Dataset Batch} (draw : nat -> Q) (s0 : gmap nat tfvar) (net_ids kms : list nat)
    (F : fs unit) (ko : Opt) (c : mask_config) (ps : prune_state) :
  (forall s sp, frame net_ids s (prune_SNIP s sp)) ->
  (forall s, frame net_ids s (apply_pruning_for_model s)) ->
  (forall j, j ∈ kms -> j ∈ net_ids) ->
  script draw s0 net_ids kms F ko = Ok (c, ps) ->
  holds_on all_ones kms (ms_store (ps_masks ps)).
Proof.
  intros Hp Ha Hk. unfold script. intros Hs.
  apply bind_Ok_inv in Hs as ([c1 st1] & E & Hs). cbv beta iota in Hs.
  apply bind_Ok_inv in Hs as (ps1 & E0 & Hs). apply bind_Ok_inv in Hs as (ps2 & E1 & Hs).
  apply bind_Ok_inv in Hs as (s' & E2 & Hs). injection Hs as <- <-. simpl.
  destruct (setup_distributions _ _ _ _ _ _ _ Hk E) as (Hkm & Hn & _ & Hl & _ & Hdis & Hfive).
  subst.
  rewrite <- (app_nil_r (kernel_masks c1)), <- (take_ge (kernel_masks c1) (length (mask_distributions c1))) by lia.
  eapply set_final_masks_ones; [by intros j Hj; apply Hdis in Hj as (? & ? & ?) | | exact E2 | apply holds_on_nil].
  eapply holds_on_impl; [apply all_eq_nonneg|].
  eapply holds_on_framed; [eapply epochs_loop_frame, E1 | by intros j Hj; apply Hdis in Hj as (? & ? & ?) |].
  eapply holds_on_framed; [eapply (pruning_loop_frame c1 choosen_checkpoint F); [apply Hp | apply Ha | exact E0] | by intros j Hj; apply Hdis in Hj as (? & ? & ?) | done].
Qed.

(** ** Witnesses *)

Lemma setup_masks_all_ones_witness :
  exists c st, setup ex_draw ex_net_store [0; 1]%nat [1%nat] ex_script_fs = Ok (c, st) /\
    holds_on all_ones [1%nat] (ms_store st).
Proof.
  do 2 eexists. split; [vm_compute; reflexivity|].
  eapply (setup_masks_all_ones ex_draw ex_net_store [0; 1]%nat [1%nat] ex_script_fs).
  - intros j Hj. set_solver.
  - intros k. vm_compute. reflexivity.
  - vm_compute. reflexivity.
Defined.

Lemma setup_mask_inv_reachable_witness :
  exists c st, setup ex_draw ex_net_store [0; 1]%nat [1%nat] ex_script_fs = Ok (c, st) /\
    mask_inv c (ms_store st) (apply_schedule regularizer_schedule 0 st).
Proof.
  do 2 eexists. split; [vm_compute; reflexivity|].
  eapply (setup_mask_inv_reachable ex_draw (Opt := sgd) (Batch := unit) ex_net_store [0; 1]%nat [1%nat] ex_script_fs).
  - intros j Hj. set_solver.
  - vm_compute. reflexivity.
  - apply rtc_once, step_schedule.
Defined.

Lemma script_final_masks_all_ones_witness :
  exists c ps, @script _ sgd _ unit _ ex_short_dataset ex_draw ex_net_store [0; 1]%nat [1%nat] ex_script_fs ex_kernel_opt
                 = Ok (c, ps) /\ holds_on all_ones [1%nat] (ms_store (ps_masks ps)).
Proof.
  destruct (@script _ sgd _ unit _ ex_short_dataset ex_draw ex_net_store [0; 1]%nat [1%nat] ex_script_fs ex_kernel_opt)
    as [[c ps]|e] eqn:E; [|vm_compute in E; discriminate].
  exists c, ps. split; [reflexivity|].
  eapply (script_final_masks_all_ones ex_draw ex_net_store [0; 1]%nat [1%nat] ex_script_fs ex_kernel_opt);
    [intros s sp; apply frame_refl | intros s; apply frame_refl | clear E; intros j Hj; set_solver | exact E].
Defined.
