(* ===== verification/Progress.v ===== *)
(** * Progress: the training script runs to its end

    A run of [train_for_robustness.py] can stop with an exception at every
    [assign] (a value of the wrong shape), every read of a variable and
    every [load_weights] (a missing file, a checkpoint that does not fit
    the network).  This file shows that none of them happens when the
    interfaces keep their promises: the clone has the network's shapes,
    SNIP and [apply_pruning_for_model] change values only, the optimizer
    returns a value of the variable's shape, and both checkpoints fit the
    network.  Under these laws [Script.script] returns a result.

    The proof follows the run: every operation succeeds and keeps the
    metadata of the store ([Masks.store_meta]: names, trainable flags and
    shapes), and the conditions of the next operation are stated on that
    metadata, so that they carry over from the setup to the end. *)

From Stdlib Require Import Floats.
From S2P Require Import Prelude Keras Tools Masks Pruning Script.

(** ** Laws of the framework interface *)

(** [tf.keras.models.clone_model] builds the same architecture, and the
    pruning calls write values only. *)
Class FrameworkLaws `{Framework} := {
  clone_fresh_shapes : forall m, weight_shapes (mweights (clone_fresh m)) = weight_shapes (mweights m);
  prune_SNIP_meta : forall s sp, store_meta (prune_SNIP s sp) = store_meta s;
  apply_pruning_meta : forall s, store_meta (apply_pruning_for_model s) = store_meta s
}.

(** ** Conditions on the store and the files *)

(** The shape of variable [id], if there is one. *)
Definition shape_at (s : gmap nat tfvar) (id : nat) : option (list nat) :=
  (fun v => tshape (vval v)) <$> s !! id.

(** The h5 file [p] holds one value for each variable of [ids], of its
    shape. *)
Definition fits {D} (F : fs D) (p : string) (ids : list nat) (s : gmap nat tfvar) : Prop :=
  exists vals, p <> "" /\ fs_files F !! p = Some (H5Weights vals) /\
    Forall2 (fun id v => shape_at s id = Some (tshape v)) ids vals.

(** Every variable of [ids] exists. *)
Definition present (ids : list nat) (s : gmap nat tfvar) : Prop :=
  forall id, id ∈ ids -> is_Some (shape_at s id).

(** Each kernel mask and its distribution have the same shape. *)
Definition pairs_fit (kms ds : list nat) (s : gmap nat tfvar) : Prop :=
  Forall2 (fun km d => is_Some (shape_at s km) /\ shape_at s d = shape_at s km) kms ds.

(** The example framework keeps its laws. *)
#[export] Instance ex_framework_laws : FrameworkLaws.
Proof. constructor; intros; reflexivity. Qed.

(** ** Metadata *)

Lemma shape_at_meta s s' id : store_meta s' = store_meta s -> shape_at s' id = shape_at s id.
Proof.
  intros Hm. unfold shape_at.
  assert (Hl : store_meta s' !! id = store_meta s !! id) by by rewrite Hm.
  unfold store_meta in Hl. rewrite !lookup_fmap in Hl.
  destruct (s' !! id), (s !! id); simpl in *; congruence.
Qed.

Lemma shape_at_Some s id sh : shape_at s id = Some sh -> exists v, s !! id = Some v /\ tshape (vval v) = sh.
Proof. unfold shape_at. intros H. apply fmap_Some in H as (v & ? & ?). eauto. Qed.

Lemma present_meta ids s s' : store_meta s' = store_meta s -> present ids s -> present ids s'.
Proof. intros Hm H id Hid. rewrite (shape_at_meta _ _ _ Hm). auto. Qed.

Lemma fits_meta {D} (F : fs D) p ids s s' :
  store_meta s' = store_meta s -> fits F p ids s -> fits F p ids s'.
Proof.
  intros Hm (vals & Hp & HF & Hv). exists vals. split_and!; [done | done |].
  eapply Forall2_impl; [exact Hv|]. intros id v. by rewrite (shape_at_meta _ _ _ Hm).
Qed.

Lemma pairs_fit_meta kms ds s s' :
  store_meta s' = store_meta s -> pairs_fit kms ds s -> pairs_fit kms ds s'.
Proof.
  intros Hm H. eapply Forall2_impl; [exact H|]. intros km d. by rewrite !(shape_at_meta _ _ _ Hm).
Qed.

#[export] Hint Resolve present_meta fits_meta pairs_fit_meta : cr.

(** An assignment of a value of the variable's shape succeeds and keeps
    the metadata. *)
Lemma var_assign_progress s id t :
  shape_at s id = Some (tshape t) ->
  exists s', var_assign s id t = Ok s' /\ store_meta s' = store_meta s.
Proof.
  intros Hs. apply shape_at_Some in Hs as (v & Hv & Hsh).
  exists (<[id := set_vval v t]> s). split.
  - unfold var_assign, var_read. rewrite Hv. simpl. by rewrite assign_Ok.
  - apply (var_assign_assigns_only s id t). unfold var_assign, var_read. rewrite Hv. simpl.
    by rewrite assign_Ok.
Qed.

Lemma var_read_progress s id : is_Some (shape_at s id) -> exists v, var_read s id = Ok v /\ s !! id = Some v.
Proof.
  unfold shape_at, var_read. intros [sh Hs]. apply fmap_Some in Hs as (v & Hv & _).
  rewrite Hv. eauto.
Qed.

(** Writing variables that keep their metadata keeps the store's. *)
Lemma write_vars_meta ids ws s :
  Forall2 (fun id w => store_meta s !! id = Some (vname w, vtrainable w, tshape (vval w))) ids ws ->
  store_meta (write_vars ids ws s) = store_meta s.
Proof.
  revert ws s; induction ids as [|id ids IH]; intros [|w ws] s Hf; simpl; try done.
  apply Forall2_cons in Hf as [Hw Hf].
  assert (Hm : store_meta (<[id := w]> s) = store_meta s).
  { unfold store_meta in *. rewrite fmap_insert. by apply insert_id. }
  rewrite IH; [done|]. by rewrite Hm.
Qed.

(** The metadata of one variable. *)
Definition meta_of (w : tfvar) : string * bool * list nat := (vname w, vtrainable w, tshape (vval w)).

(** A checkpoint read against the variables of the store: each value has
    the shape of its variable. *)
Lemma Forall2_shapes s ids ws vals :
  Forall2 (fun id w => s !! id = Some w) ids ws ->
  Forall2 (fun id v => shape_at s id = Some (tshape v)) ids vals ->
  Forall2 (fun w v => tshape v = tshape (vval w)) ws vals.
Proof.
  intros Hw. revert vals. induction Hw as [|id w ids ws Hid _ IH]; intros [|v vals] Hv;
    inversion Hv as [|? ? ? ? Hs Hr]; subst; constructor; [|by apply IH].
  unfold shape_at in Hs. rewrite Hid in Hs. by injection Hs.
Qed.

Lemma Forall2_weight_shapes ws vals :
  Forall2 (fun w v => tshape v = tshape (vval w)) ws vals -> weight_shapes ws = map tshape vals.
Proof. induction 1; simpl; f_equal; auto. Qed.

(** Replacing values by values of the same shape keeps the metadata. *)
Lemma zip_with_meta (f : tfvar -> tensor -> tfvar) s ids ws vals :
  (forall w v, tshape v = tshape (vval w) -> meta_of (f w v) = meta_of w) ->
  Forall2 (fun id w => s !! id = Some w) ids ws ->
  Forall2 (fun w v => tshape v = tshape (vval w)) ws vals ->
  Forall2 (fun id w => store_meta s !! id = Some (meta_of w)) ids (zip_with f ws vals).
Proof.
  intros Hf Hw. revert vals. induction Hw as [|id w ids ws Hid _ IH]; intros [|v vals] Hv;
    inversion Hv as [|? ? ? ? Hs Hr]; subst; simpl; constructor; [|by apply IH].
  unfold store_meta. rewrite lookup_fmap, Hid. simpl. by rewrite Hf.
Qed.

Lemma mapM_var_read_progress s ids :
  present ids s -> exists ws, mapM (var_read s) ids = Ok ws.
Proof.
  induction ids as [|id ids IH]; intros Hp; simpl; [eauto|].
  destruct (var_read_progress s id) as (v & -> & _); [apply Hp; set_solver|]. simpl.
  destruct IH as [ws ->]; [intros j Hj; apply Hp; set_solver|]. simpl. eauto.
Qed.

Lemma read_net_progress c s :
  present (net_weights c) s ->
  exists ws, read_net c s = Ok (mkModel [] ws) /\ Forall2 (fun id w => s !! id = Some w) (net_weights c) ws.
Proof.
  intros Hp. unfold read_net. destruct (mapM_var_read_progress _ _ Hp) as [ws Hws].
  rewrite Hws. simpl. exists ws. split; [done|]. by apply mapM_var_read.
Qed.

Lemma shape_at_weaken s s' id : s ⊆ s' -> is_Some (shape_at s id) -> shape_at s' id = shape_at s id.
Proof.
  unfold shape_at. intros Hs [sh Hsh]. apply fmap_Some in Hsh as (v & Hv & ->).
  by rewrite (lookup_weaken _ _ _ _ Hv Hs), Hv.
Qed.

Lemma present_weaken ids s s' : s ⊆ s' -> present ids s -> present ids s'.
Proof. intros Hs Hp id Hid. rewrite (shape_at_weaken s s'); auto. Qed.

Lemma fits_weaken {D} (F : fs D) p ids s s' : s ⊆ s' -> fits F p ids s -> fits F p ids s'.
Proof.
  intros Hs (vals & Hp & HF & Hv). exists vals. split_and!; [done | done |].
  eapply Forall2_impl; [exact Hv|]. intros id v Hid. rewrite (shape_at_weaken s s'); [done | done | by rewrite Hid].
Qed.

Lemma load_weights_progress {D} (m : model) p (F : fs D) vals :
  fs_files F !! p = Some (H5Weights vals) -> weight_shapes (mweights m) = map tshape vals ->
  load_weights m p F = Ok (mkModel (mlayers m) (zip_with set_vval (mweights m) vals)).
Proof. intros HF Hs. unfold load_weights. rewrite HF, assign_all_Ok by done. done. Qed.

Lemma set_vval_meta w v : tshape v = tshape (vval w) -> meta_of (set_vval w v) = meta_of w.
Proof. intros Hs. unfold meta_of; simpl. by rewrite Hs. Qed.

(** ** The steps of the loop *)

Section Steps.
Context `{Framework} `{FrameworkLaws} {Opt : Type} `{OptimizerLaws Opt} {Batch : Type} `{Tape Batch}
  `{Dataset Batch}.
Context (c : mask_config).

Lemma apply_pairs_progress (o : Opt) pairs s :
  Forall (fun p => is_Some (shape_at s p.2)) pairs ->
  exists o' s', apply_pairs o pairs s = Ok (o', s').
Proof.
  revert o s; induction pairs as [|[g id] pairs IH]; intros o s Hp; simpl; [eauto|].
  apply Forall_cons in Hp as [Hid Hp]. simpl in Hid.
  destruct (var_read_progress _ _ Hid) as (v & -> & Hv). simpl.
  destruct (opt_apply_dense o id g (vval v)) as [o1 nv] eqn:Ho.
  assert (Hsh : tshape nv = tshape (vval v)).
  { pose proof (opt_apply_dense_shape o id g (vval v)) as Hs. by rewrite Ho in Hs. }
  destruct (var_assign_progress s id nv) as (s1 & -> & Hm).
  { unfold shape_at. by rewrite Hv, Hsh. }
  simpl. apply IH. eapply Forall_impl; [exact Hp|]. intros p. by rewrite (shape_at_meta _ _ _ Hm).
Qed.

Lemma update_kernels_progress (o : Opt) (b : Batch) st :
  present (net_weights c) (ms_store st) ->
  exists o' st', update_kernels c o b st = Ok (o', st') /\ store_meta (ms_store st') = store_meta (ms_store st).
Proof.
  intros Hp. destruct (update_kernels c o b st) as [[o' st']|e] eqn:E.
  - exists o', st'. split; [done|]. apply (update_kernels_assigns_only_aux _ _ _ _ _ _ E).
  - exfalso. revert E. unfold update_kernels, apply_gradients.
    edestruct apply_pairs_progress as (o1 & s1 & ->); [|simpl; discriminate].
    apply Forall_forall. intros [g id] Hin. apply Hp. simpl.
    apply list_elem_of_In, in_combine_r in Hin. unfold trainable_ids in Hin. apply filter_In in Hin.
    apply list_elem_of_In. tauto.
Qed.

Lemma train_steps_progress (o : Opt) bs st :
  present (net_weights c) (ms_store st) ->
  exists o' st', train_steps c o bs st = Ok (o', st') /\ store_meta (ms_store st') = store_meta (ms_store st).
Proof.
  revert o st; induction bs as [|b bs IH]; intros o st Hp; simpl; [eauto|].
  destruct (update_kernels_progress o b st Hp) as (o1 & st1 & -> & Hm1). simpl.
  destruct (IH o1 st1) as (o2 & st2 & -> & Hm2); [eauto with cr|].
  exists o2, st2. split; [done|]. congruence.
Qed.

Lemma epochs_loop_progress epoch n (ps : prune_state) :
  present (net_weights c) (ms_store (ps_masks ps)) ->
  exists ps', epochs_loop c epoch n ps = Ok ps' /\
    store_meta (ms_store (ps_masks ps')) = store_meta (ms_store (ps_masks ps)).
Proof.
  revert epoch ps; induction n as [|n IH]; intros epoch ps Hp; simpl; [eauto|].
  unfold train_epoch; simpl.
  destruct (train_steps_progress (ps_kopt ps) (take STEPS (train_batches (ps_passes ps)))
              (apply_schedule regularizer_schedule epoch (ps_masks ps))) as (o1 & st1 & -> & Hm1).
  { by rewrite apply_schedule_store. }
  simpl. rewrite apply_schedule_store in Hm1.
  destruct (IH (S epoch) (mkPS st1 o1 (ps_density ps) (S (ps_passes ps)) (ps_sparsities ps)))
    as (ps' & -> & Hm2); [simpl; eauto with cr|].
  exists ps'. split; [done|]. simpl in Hm2. congruence.
Qed.

Lemma reset_net_progress ckp (F : fs unit) s :
  present (net_weights c) s -> fits F ckp (net_weights c) s ->
  exists s', reset_net c ckp F s = Ok s' /\ store_meta s' = store_meta s.
Proof.
  intros Hp (vals & Hckp & HF & Hv).
  destruct (read_net_progress _ _ Hp) as (ws & Hr & Hw).
  pose proof (Forall2_shapes _ _ _ _ Hw Hv) as Hs.
  unfold reset_net. rewrite Hr. simpl.
  rewrite (reset_to_h5 (mkModel [] ws) (clone_fresh (mkModel [] ws)) ckp _ F vals Hckp HF);
    [| rewrite clone_fresh_shapes; by apply Forall2_weight_shapes | by rewrite clone_fresh_shapes].
  simpl. eexists; split; [reflexivity|].
  apply write_vars_meta. eapply zip_with_meta; [|exact Hw|exact Hs].
  intros w v Hsh. unfold reset_value. destruct skip_matches; [done|]. by apply set_vval_meta.
Qed.

Lemma load_net_progress p (F : fs unit) s :
  present (net_weights c) s -> fits F p (net_weights c) s ->
  exists s', load_net c p F s = Ok s' /\ store_meta s' = store_meta s.
Proof.
  intros Hp (vals & Hckp & HF & Hv).
  destruct (read_net_progress _ _ Hp) as (ws & Hr & Hw).
  pose proof (Forall2_shapes _ _ _ _ Hw Hv) as Hs.
  unfold load_net. rewrite Hr. simpl. rewrite (load_weights_progress _ _ _ vals HF);
    [|by apply Forall2_weight_shapes].
  simpl. eexists; split; [reflexivity|].
  apply write_vars_meta. eapply zip_with_meta; [apply set_vval_meta | exact Hw | exact Hs].
Qed.

Lemma prune_iteration_progress ckp (F : fs unit) (ps : prune_state) :
  present (net_weights c) (ms_store (ps_masks ps)) -> fits F ckp (net_weights c) (ms_store (ps_masks ps)) ->
  exists ps', prune_iteration c ckp F ps = Ok ps' /\
    store_meta (ms_store (ps_masks ps')) = store_meta (ms_store (ps_masks ps)).
Proof.
  intros Hp Hf. unfold prune_iteration.
  destruct (epochs_loop_progress 0 EPOCHS ps Hp) as (ps1 & -> & Hm1). simpl.
  set (s2 := prune_SNIP _ _).
  assert (Hm2 : store_meta s2 = store_meta (ms_store (ps_masks ps))) by (unfold s2; rewrite prune_SNIP_meta; done).
  destruct (reset_net_progress ckp F s2) as (s3 & -> & Hm3); [eauto with cr | eauto with cr |].
  simpl. eexists; split; [reflexivity|]. simpl. rewrite apply_pruning_meta. congruence.
Qed.

Lemma pruning_loop_progress ckp (F : fs unit) n (ps : prune_state) :
  present (net_weights c) (ms_store (ps_masks ps)) -> fits F ckp (net_weights c) (ms_store (ps_masks ps)) ->
  exists ps', pruning_loop c ckp F n ps = Ok ps' /\
    store_meta (ms_store (ps_masks ps')) = store_meta (ms_store (ps_masks ps)).
Proof.
  revert ps; induction n as [|n IH]; intros ps Hp Hf; simpl; [eauto|].
  destruct (prune_iteration_progress ckp F ps Hp Hf) as (ps1 & -> & Hm1). simpl.
  destruct (IH ps1) as (ps2 & -> & Hm2); [eauto with cr | eauto with cr |].
  exists ps2. split; [done|]. congruence.
Qed.
End Steps.

(** ** The setup and the end of the script *)

Lemma create_distributions_progress kms s :
  present kms s ->
  exists s' ds, create_distributions kms s = Ok (s', ds) /\ s ⊆ s' /\ pairs_fit kms ds s'.
Proof.
  revert s; induction kms as [|km kms IH]; intros s Hp; simpl; [exists s, []; split_and!; [done | done | constructor]|].
  destruct (var_read_progress s km) as (v & -> & Hv); [apply Hp; set_solver|]. simpl.
  pose proof (is_fresh (dom s)) as Hf. apply not_elem_of_dom in Hf.
  set (s1 := <[fresh (dom s) := mkVar "Variable:0" (ones_like (vval v)) true]> s).
  assert (Hs1 : s ⊆ s1) by (apply insert_subseteq, Hf).
  destruct (IH s1) as (s' & ds & -> & Hs' & Hpf); [eapply present_weaken; [exact Hs1|]; intros j Hj; apply Hp; set_solver|].
  simpl. exists s', (fresh (dom s) :: ds). split_and!; [done | by etrans |].
  assert (Hkm : shape_at s' km = Some (tshape (vval v))).
  { rewrite (shape_at_weaken s s'); [unfold shape_at; by rewrite Hv | by etrans | unfold shape_at; by rewrite Hv]. }
  constructor; [|done]. split; [by rewrite Hkm|]. rewrite Hkm.
  rewrite (shape_at_weaken s1 s'); [| done | unfold shape_at, s1; by rewrite lookup_insert_eq].
  unfold shape_at, s1. rewrite lookup_insert_eq. simpl. done.
Qed.

Lemma set_kernel_masks_value_progress ids q s :
  present ids s ->
  exists s', set_kernel_masks_value ids q s = Ok s' /\ store_meta s' = store_meta s.
Proof.
  revert s; induction ids as [|id ids IH]; intros s Hp; simpl; [eauto|].
  destruct (var_read_progress s id) as (v & -> & Hv); [apply Hp; set_solver|]. simpl.
  destruct (var_assign_progress s id (fill (vval v) q)) as (s1 & -> & Hm1); [unfold shape_at; by rewrite Hv|].
  simpl. destruct (IH s1) as (s2 & -> & Hm2); [eapply present_meta; [exact Hm1|]; intros j Hj; apply Hp; set_solver|].
  exists s2. split; [done|]. congruence.
Qed.

(** The masks written from the distributions have the distributions'
    shapes, so [km.assign(...)] succeeds for pairs of the same shape. *)
Lemma pair_assign_progress km d (f : tensor -> tensor) s :
  (forall t, tshape (f t) = tshape t) ->
  is_Some (shape_at s km) /\ shape_at s d = shape_at s km ->
  exists dv s', var_read s d = Ok dv /\ var_assign s km (f (vval dv)) = Ok s' /\ store_meta s' = store_meta s.
Proof.
  intros Hf [Hkm Hd]. destruct (var_read_progress s d) as (dv & Hr & Hdv); [by rewrite Hd|].
  destruct (var_assign_progress s km (f (vval dv))) as (s' & Ha & Hm).
  { rewrite Hf, <- Hd. unfold shape_at. by rewrite Hdv. }
  eauto.
Qed.

Lemma sampling_progress draw (act : tensor -> tensor) kms ds s g :
  (forall t, tshape (act t) = tshape t) ->
  pairs_fit kms ds s ->
  exists s' g', set_kernel_masks_from_distributions draw act kms ds s g = Ok (s', g') /\
    store_meta s' = store_meta s.
Proof.
  intros Hact. revert ds s g; induction kms as [|km kms IH]; intros ds s g Hpf;
    inversion Hpf as [|? d ? ds' Hkd Hr]; subst; simpl; [eauto|].
  destruct (pair_assign_progress km d (fun t => sample_mask (act t) (fst (uniform draw (tshape (act t)) g))) s)
    as (dv & s1 & Hr1 & Ha & Hm1); [intros t; apply Hact | done |].
  rewrite Hr1. simpl. cbv beta in Ha. unfold uniform in Ha. simpl in Ha. rewrite Ha. simpl.
  destruct (IH ds' s1 (g + num_elements (tshape (act (vval dv))))) as (s2 & g2 & -> & Hm2); [eauto with cr|].
  exists s2, g2. split; [done|]. congruence.
Qed.

Lemma set_final_masks_progress kms ds s :
  pairs_fit kms ds s -> exists s', set_final_masks kms ds s = Ok s'.
Proof.
  revert ds s; induction kms as [|km kms IH]; intros ds s Hpf;
    inversion Hpf as [|? d ? ds' Hkd Hr]; subst; simpl; [eauto|].
  destruct (pair_assign_progress km d binary_mask s) as (dv & s1 & -> & Ha & Hm1); [done | done |].
  simpl. rewrite Ha. simpl. eapply IH. eauto with cr.
Qed.

Lemma pairs_fit_present kms ds s : pairs_fit kms ds s -> present ds s.
Proof.
  intros Hpf d Hd. apply list_elem_of_In in Hd.
  induction Hpf as [|km d' kms ds' [Hkm Hd'] _ IH]; [done|].
  destruct Hd as [<-|Hd]; [by rewrite Hd' | auto].
Qed.

Lemma setup_progress `{FrameworkLaws} (draw : nat -> Q) (s0 : gmap nat tfvar) (net_ids kms : list nat)
    (F : fs unit) :
  present net_ids s0 -> (forall j, j ∈ kms -> j ∈ net_ids) ->
  fits F choosen_checkpoint net_ids s0 -> fits F perf_checkpoint net_ids s0 ->
  exists c st, setup draw s0 net_ids kms F = Ok (c, st) /\
    kernel_masks c = kms /\ net_weights c = net_ids /\
    present net_ids (ms_store st) /\ fits F choosen_checkpoint net_ids (ms_store st) /\
    pairs_fit kms (mask_distributions c) (ms_store st).
Proof.
  intros Hp Hk Hc (pv & _ & HpF & Hpv). unfold setup, mask_sampling.
  destruct (read_net_progress (mkMC kms [] net_ids) s0 Hp) as (ws & -> & Hw). simpl.
  rewrite (load_weights_progress _ _ _ pv HpF);
    [|rewrite clone_fresh_shapes; simpl; by eapply Forall2_weight_shapes, Forall2_shapes].
  simpl. destruct (create_distributions_progress kms s0) as (s1 & ds & -> & Hsub & Hpf).
  { intros j Hj. apply Hp, Hk, Hj. }
  simpl. destruct (load_net_progress (mkMC kms ds net_ids) choosen_checkpoint F s1) as (s2 & -> & Hm2);
    [eapply present_weaken; eauto | eapply fits_weaken; eauto |].
  simpl. destruct (set_kernel_masks_value_progress ds mask_initial_value s2) as (s3 & -> & Hm3).
  { eapply present_meta; [exact Hm2|]. by eapply pairs_fit_present. }
  simpl. destruct (sampling_progress draw mask_activation kms ds s3 0) as (s4 & g1 & -> & Hm4);
    [done | eapply pairs_fit_meta; [by rewrite Hm3|]; eauto with cr|].
  simpl. destruct (sampling_progress draw mask_activation kms ds s4 g1) as (s5 & g2 & -> & Hm5);
    [done | eapply pairs_fit_meta; [by rewrite Hm4, Hm3|]; eauto with cr|].
  simpl. assert (Hm : store_meta s5 = store_meta s1) by congruence.
  do 2 eexists. split_and!; [reflexivity | done | done | simpl; eauto using present_weaken with cr
    | simpl; eauto using fits_weaken with cr | simpl; eauto with cr].
Qed.

(** ** Theorem *)

(** C8: the training script runs to its end: when the network's
    variables exist, the kernel masks are variables of the network, both
    checkpoints hold values of the network's shapes, the clone has the
    network's architecture, SNIP and the pruning change values only and
    the optimizer returns values of the variables' shapes, no [assign],
    variable read or [load_weights] of the setup, of the fifty iterations,
    of the final phase or of the final masks raises. *)
Theorem script_completes `{FrameworkLaws} {Opt} `{OptimizerLaws Opt} {Batch} `{Tape Batch}
    `{Dataset Batch} (draw : nat -> Q) (s0 : gmap nat tfvar) (net_ids kms : list nat) (F : fs unit)
    (ko : Opt) :
  present net_ids s0 -> (forall j, j ∈ kms -> j ∈ net_ids) ->
  fits F choosen_checkpoint net_ids s0 -> fits F perf_checkpoint net_ids s0 ->
  exists c ps, script draw s0 net_ids kms F ko = Ok (c, ps).
Proof.
  intros Hp Hk Hc Hperf.
  destruct (setup_progress draw s0 net_ids kms F Hp Hk Hc Hperf)
    as (c & st & Hs & Hkm & Hn & Hp1 & Hc1 & Hpf1).
  unfold script. rewrite Hs, bind_Ok. cbv beta iota.
  destruct (pruning_loop_progress c choosen_checkpoint F ITERATIONS
              (mkPS st ko 1.0%float 0 [])) as (ps1 & Hl & Hm1); [simpl; by rewrite Hn.. |].
  rewrite Hl, bind_Ok. unfold final_phase.
  destruct (epochs_loop_progress c 0 EPOCHS ps1) as (ps2 & He & Hm2);
    [rewrite Hn; eauto with cr|].
  rewrite He, bind_Ok. rewrite Hkm.
  destruct (set_final_masks_progress kms (mask_distributions c) (ms_store (ps_masks ps2))) as (s' & Hf);
    [eapply pairs_fit_meta; [|exact Hpf1]; simpl in Hm1; congruence|].
  rewrite Hf, bind_Ok. do 2 eexists. reflexivity.
Qed.

(** ** Witness *)

Lemma script_completes_witness :
  exists c ps, @script _ sgd _ unit _ _ ex_draw ex_net_store [0; 1]%nat [1%nat] ex_script_fs ex_kernel_opt
                 = Ok (c, ps).
Proof.
  apply (script_completes ex_draw ex_net_store [0; 1]%nat [1%nat] ex_script_fs ex_kernel_opt).
  - intros id Hid. apply list_elem_of_In in Hid as [<-|[<-|[]]]; eexists; reflexivity.
  - intros j Hj. set_solver.
  - exists [mkT [2%nat] [3; 4]%Q; mkT [2%nat] [1; 1]%Q].
    split_and!; [vm_compute; discriminate | vm_compute; reflexivity | repeat constructor].
  - exists [mkT [2%nat] [7; 0]%Q; mkT [2%nat] [1; 0]%Q].
    split_and!; [vm_compute; discriminate | vm_compute; reflexivity | repeat constructor].
Defined.
