(* ===== verification/Paths.v ===== *)
(** * Paths: the directories [os.makedirs] creates

    [Keras.os_makedirs] creates a directory and its ancestors by walking
    [os.path.dirname] with fuel [String.length d].  This file shows that the
    fuel is enough: every step of [dirname] either shortens the path or
    reaches a fixed point (the root, a path made of slashes), so the walk
    stops within [String.length d] steps.  The reference [ancestors] is the
    same walk written by well-founded recursion on the length of the path
    ([Equations]), and the fuelled walk creates exactly its directories. *)

From Equations Require Import Equations.
From S2P Require Import Prelude Keras.

(** ** Lengths of paths *)

Lemma length_list_ascii_of_string s : length (String.list_ascii_of_string s) = String.length s.
Proof. induction s; simpl; auto. Qed.

Lemma length_string_of_list_ascii l : String.length (String.string_of_list_ascii l) = length l.
Proof. induction l; simpl; auto. Qed.

Lemma drop_while_shorter {A} (f : A -> bool) (l : list A) :
  drop_while f l = l \/ length (drop_while f l) < length l.
Proof.
  induction l as [|x l IH]; simpl; [by left|]. destruct (f x); [|by left].
  right. destruct IH as [-> | IH]; simpl; lia.
Qed.

Lemma drop_while_length {A} (f : A -> bool) (l : list A) : length (drop_while f l) <= length l.
Proof. destruct (drop_while_shorter f l) as [-> | ?]; lia. Qed.

(** When nothing is dropped the list is empty or starts with an element
    the predicate refuses. *)
Lemma drop_while_id {A} (f : A -> bool) (l : list A) :
  drop_while f l = l -> l = [] \/ exists x l', l = x :: l' /\ f x = false.
Proof.
  destruct l as [|x l]; [by left|]. intros Heq. right. exists x, l. split; [done|]. simpl in Heq.
  destruct (f x) eqn:Hf; [|done].
  pose proof (drop_while_length f l) as Hl. rewrite Heq in Hl. simpl in Hl. lia.
Qed.

(** The three steps of [os.path.dirname] on the characters of a path:
    the result is the path itself or shorter. *)
Lemma dirname_list_shrinks (cs : list Ascii.ascii) :
  let head := reverse (drop_while (fun c => bool_decide (c <> slash)) (reverse cs)) in
  let stripped := reverse (drop_while (fun c => bool_decide (c = slash)) (reverse head)) in
  let r := if bool_decide (stripped = []) then head else stripped in
  r = cs \/ length r < length cs.
Proof.
  intros head stripped r.
  assert (Hh : length head <= length cs).
  { unfold head. rewrite length_reverse, <- (length_reverse cs). apply drop_while_length. }
  assert (Hs : length stripped <= length head).
  { unfold stripped. rewrite length_reverse, <- (length_reverse head). apply drop_while_length. }
  assert (Hr : length r <= length head) by (unfold r; case_bool_decide; lia).
  destruct (drop_while_shorter (fun c => bool_decide (c <> slash)) (reverse cs)) as [Hd|Hd].
  2:{ right. enough (length head < length cs) by lia.
      unfold head. rewrite length_reverse, <- (length_reverse cs). exact Hd. }
  assert (Hc : head = cs) by (unfold head; rewrite Hd; apply reverse_involutive).
  unfold r. case_bool_decide as Hst; [by left|]. right. unfold stripped in *. rewrite Hc in *.
  destruct (drop_while_shorter (fun c => bool_decide (c = slash)) (reverse cs)) as [Hd'|Hd'].
  2:{ rewrite length_reverse, <- (length_reverse cs). exact Hd'. }
  exfalso. apply drop_while_id in Hd' as [Hn|(x & l & Hl & Hx)].
  - apply Hst. by rewrite Hn.
  - apply drop_while_id in Hd as [Hn|(y & l' & Hl' & Hy)]; [rewrite Hn in Hl; discriminate|].
    rewrite Hl' in Hl. injection Hl as <- <-. apply bool_decide_eq_false in Hx, Hy. tauto.
Qed.

(** [os.path.dirname] shortens a path unless the path is a fixed point of
    it. *)
Lemma dirname_shrinks d :
  os_path_dirname d = d \/ String.length (os_path_dirname d) < String.length d.
Proof.
  pose proof (dirname_list_shrinks (String.list_ascii_of_string d)) as H. cbv zeta in H.
  unfold os_path_dirname. cbv zeta. destruct H as [H|H].
  - left. rewrite H. apply String.string_of_list_ascii_of_string.
  - right. rewrite length_string_of_list_ascii, <- length_list_ascii_of_string. exact H.
Qed.

(** ** The reference walk *)

(** A path and its ancestors up to the empty path or a fixed point of
    [os.path.dirname], by well-founded recursion on the path's length. *)
Equations? ancestors (d : string) : list string by wf (String.length d) lt :=
  ancestors d with String.eqb d "" => {
    | true => [];
    | false with decide (os_path_dirname d = d) => {
      | left _ => [d];
      | right Hne => d :: ancestors (os_path_dirname d) } }.
Proof. destruct (dirname_shrinks d); [done | lia]. Qed.

(** At a fixed point of [dirname] the fuelled walk repeats the path. *)
Lemma dir_chain_fixed fuel d : os_path_dirname d = d -> Forall (fun p => p = d) (dir_chain fuel d).
Proof.
  intros Hd. induction fuel as [|f IH]; simpl; [constructor|].
  destruct (String.eqb d ""); [constructor|]. rewrite Hd. by constructor.
Qed.

(** The fuel [String.length d] is enough: with that much fuel or more the
    walk creates exactly the directories of [ancestors]. *)
Lemma dir_chain_ancestors d fuel :
  String.length d <= fuel -> list_to_set (dir_chain fuel d) = (list_to_set (ancestors d) : gset string).
Proof.
  revert fuel. funelim (ancestors d); intros fuel Hf.
  - apply String.eqb_eq in Heq as ->. destruct fuel; done.
  - destruct fuel as [|f]; [destruct d; simpl in *; [discriminate | lia]|]. simpl. rewrite Heq0.
    pose proof (dir_chain_fixed f d e) as Hfix. rewrite e. rewrite Forall_forall in Hfix. set_solver.
  - destruct fuel as [|f]; [destruct d; simpl in *; [discriminate | lia]|]. simpl. rewrite Heq0.
    destruct (dirname_shrinks d) as [?|Hl]; [done|]. simpl. rewrite H by lia. done.
Qed.

(** ** Theorem *)

(** [os.makedirs(d, exist_ok=True)] stops and creates [d] and its
    ancestors: the walk along [os.path.dirname] with fuel [String.length d]
    adds exactly the directories of the terminating walk [ancestors], the
    one that stops at the empty path or at the root. *)
Lemma os_makedirs_ancestors {D} (d : string) (F : fs D) :
  fs_dirs (os_makedirs d F) = list_to_set (ancestors d) ∪ fs_dirs F.
Proof. unfold os_makedirs; simpl. by rewrite (dir_chain_ancestors d (String.length d)). Qed.
