(* ===== verification/Typing.v ===== *)
(** * Typing: what a run of the script keeps of every variable

    TensorFlow variables have a name, a trainable flag and a shape that no
    [assign] changes.  This file shows that a run of the whole script that
    returns keeps them for every variable it started with (so every
    relation between shapes that holds when the network is built, such as
    a kernel mask having its kernel's shape, still holds at the end), and
    that every distribution it creates has the shape of its kernel mask.
    Unlike [Progress], nothing is assumed of the optimizer: the shape check
    of [assign] is what keeps the shapes. *)

From Stdlib Require Import Floats.
From S2P Require Import Prelude Keras Tools Masks Pruning Script Progress.

(** The type discipline a run keeps: every variable of the initial store
    [s0] still has its name, trainable flag and shape in [s], and each
    distribution of [ds] has the shape of its kernel mask in [kms]. *)
Definition keeps_types (s0 : gmap nat tfvar) (kms ds : list nat) (s : gmap nat tfvar) : Prop :=
  store_meta s0 ⊆ store_meta s /\ pairs_fit kms ds s.

(** ** Metadata of the operations that return *)

Lemma weight_shapes_Forall2 ws vals :
  weight_shapes ws = map tshape vals -> Forall2 (fun w v => tshape v = tshape (vval w)) ws vals.
Proof.
  revert vals; induction ws as [|w ws IH]; intros [|v vals]; simpl; try discriminate; [constructor|].
  intros [= Hv Hr]. constructor; auto.
Qed.

(** Writing back variables with the metadata of the ones read keeps the
    store's metadata. *)
Lemma write_back_meta ids ws r s :
  Forall2 (fun id w => s !! id = Some w) ids ws ->
  Forall2 (fun w w' => meta_of w' = meta_of w) ws r ->
  store_meta (write_vars ids r s) = store_meta s.
Proof.
  intros Hw Hr. apply write_vars_meta. revert r Hr.
  induction Hw as [|id w ids ws Hid _ IH]; intros r Hr; inversion Hr as [|? w' ? r' Hm Hr']; subst;
    constructor; [|by apply IH].
  unfold store_meta. rewrite lookup_fmap, Hid. unfold meta_of in Hm. simpl. by rewrite Hm.
Qed.

Lemma read_net_Ok_inv c s m :
  read_net c s = Ok m -> exists ws, m = mkModel [] ws /\ Forall2 (fun id w => s !! id = Some w) (net_weights c) ws.
Proof.
  unfold read_net. intros H. apply bind_Ok_inv in H as (ws & Hws & [= <-]).
  exists ws. split; [done|]. by apply mapM_var_read.
Qed.

Lemma zip_set_vval_meta ws vals :
  Forall2 (fun w v => tshape v = tshape (vval w)) ws vals ->
  Forall2 (fun w w' => meta_of w' = meta_of w) ws (zip_with set_vval ws vals).
Proof. induction 1; simpl; constructor; [by apply set_vval_meta | done]. Qed.

Lemma load_net_meta c p (F : fs unit) s s' : load_net c p F s = Ok s' -> store_meta s' = store_meta s.
Proof.
  unfold load_net. intros H. apply bind_Ok_inv in H as (m & Hr & H).
  apply read_net_Ok_inv in Hr as (ws & -> & Hw). apply bind_Ok_inv in H as (m' & Hl & [= <-]).
  revert Hl. unfold load_weights. destruct (fs_files F !! p) as [[vals|vs|docs]|]; try discriminate.
  intros Hl. apply bind_Ok_inv in Hl as (ws' & Ha & [= <-]). simpl.
  apply assign_all_Ok_inv in Ha as [-> Hs]. apply weight_shapes_Forall2 in Hs.
  eapply write_back_meta; [exact Hw|]. by apply zip_set_vval_meta.
Qed.

Lemma meta_refl ws : Forall2 (fun w w' => meta_of w' = meta_of w) ws ws.
Proof. induction ws; by constructor. Qed.

Lemma reset_loop_meta ws1 ws2 kw r n :
  reset_loop ws1 ws2 kw = Ok (r, n) -> Forall2 (fun w w' => meta_of w' = meta_of w) ws1 r.
Proof.
  revert ws2 r n; induction ws1 as [|w1 ws1 IH]; intros [|w2 ws2] r n; simpl;
    try (intros [= <- _]; apply meta_refl).
  destruct (skip_matches kw (vname w1)).
  - intros H. apply bind_Ok_inv in H as ([r1 n1] & Hr & [= <- _]). constructor; eauto.
  - intros H. apply bind_Ok_inv in H as (w1' & Ha & H). apply bind_Ok_inv in H as ([r1 n1] & Hr & [= <- _]).
      apply assign_Ok_inv in Ha as [-> Hs]. constructor; [by apply set_vval_meta | eauto].
Qed.

Lemma reset_net_meta {Hfw : Framework} c ckp (F : fs unit) s s' :
  reset_net c ckp F s = Ok s' -> store_meta s' = store_meta s.
Proof.
  unfold reset_net. intros H. apply bind_Ok_inv in H as (m & Hr & H).
  apply read_net_Ok_inv in Hr as (ws & -> & Hw). apply bind_Ok_inv in H as ([m' k] & Hreset & [= <-]).
  revert Hreset. unfold reset_weights_to_checkpoint. intros H.
  apply bind_Ok_inv in H as (temp & _ & H). apply bind_Ok_inv in H as ([r n] & Hl & [= <- _]).
  eapply write_back_meta; [exact Hw | exact (reset_loop_meta _ _ _ _ _ Hl)].
Qed.

Lemma set_final_masks_meta kms ds s s' : set_final_masks kms ds s = Ok s' -> store_meta s' = store_meta s.
Proof.
  revert ds s; induction kms as [|km kms IH]; intros [|d ds] s; simpl; try (intros [= <-]; done).
  intros H. apply bind_Ok_inv in H as (dv & _ & H). apply bind_Ok_inv in H as (s1 & Ha & H).
  rewrite (IH _ _ H). apply (var_assign_assigns_only _ _ _ _ Ha).
Qed.

Section Loop.
Context `{FrameworkLaws} {Opt : Type} `{Optimizer Opt} {Batch : Type} `{Tape Batch} `{Dataset Batch}.
Context (c : mask_config) (ckp : string) (F : fs unit).

Lemma train_steps_meta (o o' : Opt) bs st st' :
  train_steps c o bs st = Ok (o', st') -> store_meta (ms_store st') = store_meta (ms_store st).
Proof.
  revert o st; induction bs as [|b bs IH]; intros o st; simpl; [by intros [= _ <-]|].
  intros Hs. apply bind_Ok_inv in Hs as ([o1 st1] & Hu & Hs).
  rewrite (IH _ _ Hs). apply (update_kernels_assigns_only_aux _ _ _ _ _ _ Hu).
Qed.

Lemma epochs_loop_meta epoch n (ps ps' : prune_state) :
  epochs_loop c epoch n ps = Ok ps' -> store_meta (ms_store (ps_masks ps')) = store_meta (ms_store (ps_masks ps)).
Proof.
  revert epoch ps; induction n as [|n IH]; intros epoch ps; simpl; [by intros [= <-]|].
  intros Hs. apply bind_Ok_inv in Hs as (ps1 & Ht & Hs). rewrite (IH _ _ Hs).
  revert Ht. unfold train_epoch. intros Ht. apply bind_Ok_inv in Ht as ([o1 st1] & Hst & [= <-]). simpl.
  rewrite (train_steps_meta _ _ _ _ _ Hst). simpl. by rewrite apply_schedule_store.
Qed.

Lemma pruning_loop_meta n (ps ps' : prune_state) :
  pruning_loop c ckp F n ps = Ok ps' -> store_meta (ms_store (ps_masks ps')) = store_meta (ms_store (ps_masks ps)).
Proof.
  revert ps; induction n as [|n IH]; intros ps; simpl; [by intros [= <-]|].
  intros Hs. apply bind_Ok_inv in Hs as (ps1 & Hi & Hs). rewrite (IH _ Hs).
  revert Hi. unfold prune_iteration. intros Hi. apply bind_Ok_inv in Hi as (ps2 & He & Hi).
  apply bind_Ok_inv in Hi as (s3 & Hr & [= <-]). simpl.
  rewrite apply_pruning_meta, (reset_net_meta _ _ _ _ _ Hr), prune_SNIP_meta.
  exact (epochs_loop_meta _ _ _ _ He).
Qed.
End Loop.

Lemma create_distributions_pairs kms s s' ds :
  create_distributions kms s = Ok (s', ds) -> pairs_fit kms ds s'.
Proof.
  revert s s' ds; induction kms as [|km kms IH]; intros s s' ds; simpl; [intros [= _ <-]; constructor|].
  intros H. apply bind_Ok_inv in H as (v & Hr & H). apply var_read_Ok in Hr.
  apply bind_Ok_inv in H as ([s1 ids] & Hc & [= <- <-]).
  pose proof (is_fresh (dom s)) as Hf. apply not_elem_of_dom in Hf.
  destruct (create_distributions_spec _ _ _ _ Hc) as (_ & _ & _ & Hsub).
  assert (Hkm : s1 !! km = Some v).
  { eapply lookup_weaken; [exact Hr|]. etrans; [apply insert_subseteq, Hf | exact Hsub]. }
  assert (Hd : s1 !! fresh (dom s) = Some (mkVar "Variable:0" (ones_like (vval v)) true)).
  { eapply lookup_weaken; [apply lookup_insert_eq | exact Hsub]. }
  constructor; [|exact (IH _ _ _ Hc)]. unfold shape_at. rewrite Hkm, Hd. split; [by eexists | done].
Qed.

(** The setup keeps the variables it started with and gives each
    distribution its kernel mask's shape. *)
Lemma setup_meta {Hfw : Framework} draw s0 net_ids kms (F : fs unit) c st :
  setup draw s0 net_ids kms F = Ok (c, st) ->
  store_meta s0 ⊆ store_meta (ms_store st) /\ pairs_fit kms (mask_distributions c) (ms_store st) /\
  kernel_masks c = kms /\ net_weights c = net_ids.
Proof.
  unfold setup, mask_sampling. intros H.
  apply bind_Ok_inv in H as (m & _ & H). apply bind_Ok_inv in H as (m' & _ & H).
  apply bind_Ok_inv in H as ([s1 ds] & Hcd & H). cbv beta iota in H.
  apply bind_Ok_inv in H as (s2 & Hl & H). apply bind_Ok_inv in H as (s3 & Hv & H).
  apply bind_Ok_inv in H as ([s4 g1] & Hs4 & H). cbv beta iota in H.
  apply bind_Ok_inv in H as ([s5 g2] & Hs5 & [= <- <-]). simpl.
  assert (Hm : store_meta s5 = store_meta s1).
  { rewrite (proj2 (sampling_assigns_only _ _ _ _ _ _ _ _ Hs5)), (proj2 (sampling_assigns_only _ _ _ _ _ _ _ _ Hs4)).
    rewrite (proj2 (proj1 (set_kernel_masks_value_spec _ _ _ _ [] Hv (holds_on_nil _ _)))).
    exact (load_net_meta _ _ _ _ _ Hl). }
  destruct (create_distributions_spec _ _ _ _ Hcd) as (_ & _ & _ & Hsub).
  split_and!; [| eapply pairs_fit_meta; [exact Hm | exact (create_distributions_pairs _ _ _ _ Hcd)] | done | done].
  rewrite Hm. unfold store_meta. by apply map_fmap_mono.
Qed.

(** ** Theorem *)

(** C9: a run of the training script that returns keeps the name, the
    trainable flag and the shape of every variable it started with, so
    that a kernel mask built with its kernel's shape still has it at the
    end, and every distribution it created has the shape of its kernel
    mask. *)
Theorem script_keeps_types `{FrameworkLaws} {Opt} `{Optimizer Opt} {Batch} `{Tape Batch}
    `{Dataset Batch} (draw : nat -> Q) (s0 : gmap nat tfvar) (net_ids kms : list nat) (F : fs unit)
    (ko : Opt) (c : mask_config) (ps : prune_state) :
  script draw s0 net_ids kms F ko = Ok (c, ps) ->
  keeps_types s0 kms (mask_distributions c) (ms_store (ps_masks ps)).
Proof.
  unfold script. intros Hs.
  apply bind_Ok_inv in Hs as ([c1 st1] & E & Hs). cbv beta iota in Hs.
  apply bind_Ok_inv in Hs as (ps1 & E0 & Hs). apply bind_Ok_inv in Hs as (ps2 & E1 & Hs).
  apply bind_Ok_inv in Hs as (s' & E2 & Hs). injection Hs as <- <-. simpl.
  destruct (setup_meta _ _ _ _ _ _ _ E) as (Hsub & Hpf & Hkm & _).
  assert (Hm : store_meta s' = store_meta (ms_store st1)).
  { rewrite (set_final_masks_meta _ _ _ _ E2), (epochs_loop_meta _ _ _ _ _ E1).
    exact (pruning_loop_meta _ _ _ _ _ _ E0). }
  split; [by rewrite Hm | eapply pairs_fit_meta; [exact Hm | exact Hpf]].
Qed.

(** ** Witness *)

Lemma script_keeps_types_witness :
  exists c ps, @script _ sgd _ unit _ ex_short_dataset ex_draw ex_net_store [0; 1]%nat [1%nat]
                 ex_script_fs ex_kernel_opt = Ok (c, ps) /\
    keeps_types ex_net_store [1%nat] (mask_distributions c) (ms_store (ps_masks ps)).
Proof.
  destruct (@script _ sgd _ unit _ ex_short_dataset ex_draw ex_net_store [0; 1]%nat [1%nat]
              ex_script_fs ex_kernel_opt) as [[c ps]|e] eqn:E; [|vm_compute in E; discriminate].
  exists c, ps. split; [reflexivity|].
  exact (script_keeps_types ex_draw ex_net_store [0; 1]%nat [1%nat] ex_script_fs ex_kernel_opt c ps E).
Defined.
