(* ===== verification/Cli.v ===== *)
(** * run.py, lines 12-30: the command line

    [run.py] builds [argparse.ArgumentParser(prefix_chars='-+')] with the
    options [--dry] ([store_true]), [--exp] (a string, default
    ['experiment.yaml']) and [--pick] ([type=int], [nargs='*']), next to the
    implicit [-h]/[--help], and calls [parse_known_args()]: the known options
    fill a namespace, everything else is returned, in order, as
    [unknown_args] and handed to [parser.load_from_yaml] as command-line
    parameters.

    The parser is the one of CPython 3.11's [argparse.py], specialised to
    these four actions (no positionals, no mutually exclusive groups, no
    [fromfile_prefix_chars]):
    - [parse_optional] and [get_option_tuples] are [_parse_optional] and
      [_get_option_tuples]: exact option strings, [--opt=value], unique
      abbreviations of long options, a short option with its argument glued
      on, negative numbers and strings with a space as arguments, anything
      else that starts with [-] or [+] as an unknown option;
    - [classify] is the first loop of [_parse_known_args] (the ['--']
      separator makes every later string an argument);
    - [consume] is its [while] loop with [consume_optional] and
      [take_action]; [py_int] is [int()] on a string.
    Exiting is a value of [cli]: [--help] exits with status 0, a usage error
    with status 2.  Strings are ASCII: the Unicode digits and spaces that
    [int()] and the regular expression [\d] also accept are not modelled. *)

From Stdlib Require Import Ascii.
From S2P Require Import Prelude Keras Tools Runner.

(** ** Exiting *)

(** The reasons [parser.error] is called (status 2). *)
Inductive usage_error :=
  | Ambiguous (arg : string)
  | ExpectedOneArgument (dest : string)
  | IgnoredExplicit (dest : string) (explicit : string)
  | InvalidInt (dest : string) (arg : string)
  | UnexpectedOption (arg : string).

#[export] Instance usage_error_eq_dec : EqDecision usage_error.
Proof. solve_decision. Defined.

(** A parse that finishes, or [SystemExit] with its status ([None] for the
    help message, [Some e] for a usage error). *)
Inductive cli (A : Type) : Type :=
  | Done (a : A)
  | Exit (status : Z) (why : option usage_error).
Arguments Done {_} _.
Arguments Exit {_} _ _.

#[export] Instance cli_ret : MRet cli := fun _ a => Done a.
#[export] Instance cli_bind : MBind cli :=
  fun A B f m => match m with Done a => f a | Exit c w => Exit c w end.
#[export] Instance cli_fmap : FMap cli :=
  fun A B f m => match m with Done a => Done (f a) | Exit c w => Exit c w end.

(** [self.error(msg)]: print the usage and exit with status 2. *)
Definition usage {A} (e : usage_error) : cli A := Exit 2 (Some e).

(** ** The parser of run.py *)

(** The actions of [arg_parser], [-h]/[--help] added by [add_help=True]. *)
Inductive action := AHelp | ADry | AExp | APick.

#[export] Instance action_eq_dec : EqDecision action.
Proof. solve_decision. Defined.

(** [parser._option_string_actions], in insertion order. *)
Definition option_string_actions : list (string * action) :=
  [("-h", AHelp); ("--help", AHelp); ("--dry", ADry); ("--exp", AExp); ("--pick", APick)].

Definition lookup_action (s : string) : option action :=
  snd <$> find (fun p => String.eqb p.1 s) option_string_actions.

(** The name [ArgumentError] reports: ['/'.join(action.option_strings)]. *)
Definition action_name (a : action) : string :=
  match a with AHelp => "-h/--help" | ADry => "--dry" | AExp => "--exp" | APick => "--pick" end.

(** [prefix_chars='-+']. *)
Definition is_prefix_char (c : Ascii.ascii) : bool :=
  bool_decide (c = "-"%char) || bool_decide (c = "+"%char).

(** The namespace: [dry], [exp] and [pick].  [exp] is a string, or the
    (empty) list [_get_values] returns when its only argument was ['--']. *)
Inductive exp_value := ExpStr (s : string) | ExpList (l : list string).

#[export] Instance exp_value_eq_dec : EqDecision exp_value.
Proof. solve_decision. Defined.

Record namespace := NS { ns_dry : bool; ns_exp : exp_value; ns_pick : option (list Z) }.

#[export] Instance namespace_eq_dec : EqDecision namespace.
Proof. solve_decision. Defined.

(** The defaults [parse_known_args] puts in the namespace first. *)
Definition defaults : namespace := NS false (ExpStr "experiment.yaml") None.

(** ** Strings *)

Definition has_char (c : Ascii.ascii) (s : string) : bool :=
  bool_decide (c ∈ String.list_ascii_of_string s).

(** [s.split('=', 1)] when [s] contains ['=']. *)
Fixpoint split_eq (s : string) : option (string * string) :=
  match s with
  | EmptyString => None
  | String c s' =>
      if bool_decide (c = "="%char) then Some (EmptyString, s')
      else (fun '(l, r) => (String c l, r)) <$> split_eq s'
  end.

Definition is_digit (c : Ascii.ascii) : bool :=
  bool_decide (48 <= Ascii.nat_of_ascii c <= 57)%nat.

Definition digit_val (c : Ascii.ascii) : Z := Z.of_nat (Ascii.nat_of_ascii c) - 48.

Definition all_digits (l : list Ascii.ascii) : bool := forallb is_digit l.

(** [$] matches at the end or before a final newline. *)
Definition strip_final_newline (l : list Ascii.ascii) : list Ascii.ascii :=
  match reverse l with
  | c :: r => if bool_decide (c = "010"%char) then reverse r else l
  | [] => l
  end.

(** [_negative_number_matcher]: [^-\d+$|^-\d*\.\d+$]. *)
Definition negative_number (s : string) : bool :=
  match String.list_ascii_of_string s with
  | c :: body =>
      bool_decide (c = "-"%char) &&
      let b := strip_final_newline body in
      (bool_decide (b <> []) && all_digits b) ||
      match list_find (fun d => d = "."%char) b with
      | Some (i, _) => all_digits (take i b) && bool_decide (drop (S i) b <> []) &&
                       all_digits (drop (S i) b)
      | None => false
      end
  | [] => false
  end.

(** ** Classifying the command-line strings *)

(** An option match: the action, the option string it was found under and
    the explicit argument ([--opt=value], or the tail of [-hvalue]). *)
Definition option_tuple : Type := action * string * option string.

(** [_get_option_tuples]: with two prefix characters, the options the part
    before ['='] abbreviates; with one, the short option made of the first
    two characters (the rest is its argument) and the options the whole
    string abbreviates. *)
Definition get_option_tuples (s : string) : cli (list option_tuple) :=
  match s with
  | String c0 (String c1 rest) =>
      if is_prefix_char c0 && is_prefix_char c1 then
        let '(option_prefix, explicit_arg) :=
          match split_eq s with Some (p, e) => (p, Some e) | None => (s, None) end in
        mret (omap (fun '(os, a) =>
                if String.prefix option_prefix os then Some (a, os, explicit_arg) else None)
              option_string_actions)
      else if is_prefix_char c0 then
        let short_option_prefix := String c0 (String c1 EmptyString) in
        mret (omap (fun '(os, a) =>
                if String.eqb os short_option_prefix then Some (a, os, Some rest)
                else if String.prefix s os then Some (a, os, None) else None)
              option_string_actions)
      else usage (UnexpectedOption s)
  | _ => usage (UnexpectedOption s)
  end.

(** [if '=' in arg_string]: the option the part before ['='] names, with
    the part after it. *)
Definition split_option (s : string) : option (action * string * string) :=
  split_eq s ≫= (fun '(os, e) => (fun a => (a, os, e)) <$> lookup_action os).

(** [_parse_optional]: [None] for an argument ('A'), [Some (None, s, None)]
    for an option this parser does not know, [Some (Some a, os, e)] for one
    of its options ('O'). *)
Definition parse_optional (s : string) : cli (option (option action * string * option string)) :=
  match s with
  | EmptyString => mret None
  | String c _ =>
      if negb (is_prefix_char c) then mret None
      else match lookup_action s with
      | Some a => mret (Some (Some a, s, None))
      | None =>
          if bool_decide (String.length s = 1) then mret None
          else match split_option s with
          | Some (a, os, e) => mret (Some (Some a, os, Some e))
          | None =>
              tuples ← get_option_tuples s;
              match tuples with
              | _ :: _ :: _ => usage (Ambiguous s)
              | [(a, os, e)] => mret (Some (Some a, os, e))
              | [] =>
                  (* no option of the parser looks like a negative number *)
                  if negative_number s then mret None
                  else if has_char " "%char s then mret None
                  else mret (Some (None, s, None))
              end
          end
      end
  end.

(** The strings with their pattern letter: 'A' ([TArg]), '-' ([TSep], the
    separator ['--']) or 'O' ([TOpt], with the option tuple and the string). *)
Inductive token :=
  | TArg (s : string)
  | TSep
  | TOpt (a : option action) (os : string) (explicit : option string) (raw : string).

(** The first loop of [_parse_known_args]: after ['--'] every string is an
    argument. *)
Fixpoint classify (argv : list string) : cli (list token) :=
  match argv with
  | [] => mret []
  | s :: rest =>
      if String.eqb s "--" then mret (TSep :: map TArg rest)
      else t ← parse_optional s;
           ts ← classify rest;
           mret (match t with
                 | None => TArg s
                 | Some (a, os, e) => TOpt a os e s
                 end :: ts)
  end.

(** ** [int()] on a string *)

(** The characters [int()] strips ([Py_ISSPACE]). *)
Definition py_space (c : Ascii.ascii) : bool :=
  bool_decide (c ∈ [" "; "009"; "010"; "011"; "012"; "013"]%char).

Definition strip (l : list Ascii.ascii) : list Ascii.ascii :=
  reverse (drop_while py_space (reverse (drop_while py_space l))).

(** Decimal digits, a single ['_'] allowed between two digits. *)
Fixpoint digits_us (l : list Ascii.ascii) (acc : Z) : option Z :=
  match l with
  | [] => Some acc
  | c :: l' =>
      if bool_decide (c = "_"%char) then
        match l' with
        | d :: l'' => if is_digit d then digits_us l'' (acc * 10 + digit_val d) else None
        | [] => None
        end
      else if is_digit c then digits_us l' (acc * 10 + digit_val c) else None
  end.

Definition decimal (l : list Ascii.ascii) : option Z :=
  match l with
  | c :: _ => if is_digit c then digits_us l 0 else None
  | [] => None
  end.

(** [int(s)]: surrounding whitespace, an optional sign, a decimal literal. *)
Definition py_int (s : string) : option Z :=
  match strip (String.list_ascii_of_string s) with
  | c :: l =>
      if bool_decide (c = "-"%char) then Z.opp <$> decimal l
      else if bool_decide (c = "+"%char) then decimal l
      else decimal (c :: l)
  | [] => None
  end.

(** ** Taking the actions *)

(** [arg_strings.remove('--')]: the first ['--'] is dropped. *)
Definition remove_sep (args : list string) : list string :=
  match list_find (fun s => s = "--") args with
  | Some (i, _) => take i args ++ drop (S i) args
  | None => args
  end.

(** [int] as the [type] of [--pick]: [ValueError] is a usage error. *)
Definition pick_value (s : string) : cli Z :=
  match py_int s with
  | Some z => mret z
  | None => usage (InvalidInt (action_name APick) s)
  end.

(** [take_action]: [_get_values] and the action's [__call__]. *)
Definition take_action (a : action) (args : list string) (ns : namespace) : cli namespace :=
  let args := remove_sep args in
  match a with
  | AHelp => Exit 0 None
  | ADry => mret (NS true (ns_exp ns) (ns_pick ns))
  | AExp => mret (NS (ns_dry ns) (match args with [s] => ExpStr s | _ => ExpList args end) (ns_pick ns))
  | APick => zs ← mapM pick_value args; mret (NS (ns_dry ns) (ns_exp ns) (Some zs))
  end.

Fixpoint take_actions (tuples : list (action * list string)) (ns : namespace) : cli namespace :=
  match tuples with
  | [] => mret ns
  | (a, args) :: tl => ns' ← take_action a args ns; take_actions tl ns'
  end.

Definition is_arg (t : token) : bool := match t with TArg _ => true | _ => false end.

Definition token_str (t : token) : string :=
  match t with TArg s => s | TSep => "--" | TOpt _ _ _ raw => raw end.

Fixpoint leading_args (ts : list token) : nat :=
  match ts with
  | TArg _ :: ts' => S (leading_args ts')
  | _ => 0
  end.

(** [_match_argument] on the pattern of the strings that follow: [--exp]
    needs one argument, [--pick] takes every argument up to the next
    option or ['--'], the flags take none. *)
Definition match_following (a : action) (follow : list token) : cli nat :=
  match a with
  | AHelp | ADry => mret 0
  | AExp => match follow with TArg _ :: _ => mret 1 | _ => usage (ExpectedOneArgument (action_name AExp)) end
  | APick => mret (leading_args follow)
  end.

(** [_match_argument(action, 'A')] for an explicit argument. *)
Definition explicit_count (a : action) : nat :=
  match a with AHelp | ADry => 0 | AExp | APick => 1 end.

Definition second_is_prefix (os : string) : bool :=
  match os with String _ (String c _) => is_prefix_char c | _ => false end.

Definition first_char (os : string) : Ascii.ascii :=
  match os with String c _ => c | EmptyString => "-"%char end.

(** The loop of [consume_optional] on an explicit argument: a flag written
    with one prefix character reads the next character as another short
    option ([-hh]); an action that takes one argument takes the explicit
    one; anything else ignores it, which is an error.  The result is the
    actions to take and how many of the following strings they used. *)
Fixpoint consume_explicit (a : action) (os e : string) (follow : list token)
  : cli (list (action * list string) * nat) :=
  match e with
  | String c e' =>
      if bool_decide (explicit_count a = 0) && negb (second_is_prefix os) then
        let os' := String (first_char os) (String c EmptyString) in
        match lookup_action os' with
        | Some a' =>
            match e' with
            | EmptyString =>
                n ← match_following a' follow;
                mret ([(a, []); (a', map token_str (take n follow))], n)
            | _ => '(tl, n) ← consume_explicit a' os' e' follow; mret ((a, []) :: tl, n)
            end
        | None => usage (IgnoredExplicit (action_name a) e)
        end
      else if bool_decide (explicit_count a = 1) then mret ([(a, [e])], 0)
      else usage (IgnoredExplicit (action_name a) e)
  | EmptyString =>
      if bool_decide (explicit_count a = 1) then mret ([(a, [e])], 0)
      else usage (IgnoredExplicit (action_name a) e)
  end.

(** [consume_optional] for a known option: match its arguments, then take
    the actions in order. *)
Definition consume_optional (a : action) (os : string) (e : option string) (follow : list token)
  : cli (list (action * list string) * nat) :=
  match e with
  | Some e => consume_explicit a os e follow
  | None => n ← match_following a follow; mret ([(a, map token_str (take n follow))], n)
  end.

(** The [while] loop of [_parse_known_args] with no positionals: every
    string an option does not use is an extra, in order; an unknown option
    is an extra too.  [fuel] bounds the number of rounds; the number of
    strings is enough. *)
Fixpoint consume (fuel : nat) (ts : list token) (ns : namespace) (extras : list string)
  : cli (namespace * list string) :=
  match fuel with
  | O => mret (ns, extras)
  | S fuel' =>
      match ts with
      | [] => mret (ns, extras)
      | TOpt (Some a) os e _ :: follow =>
          '(tuples, n) ← consume_optional a os e follow;
          ns' ← take_actions tuples ns;
          consume fuel' (drop n follow) ns' extras
      | t :: ts' => consume fuel' ts' ns (extras ++ [token_str t])
      end
  end.

(** [arg_parser.parse_known_args()] on [sys.argv[1:]]. *)
Definition parse_known_args (argv : list string) : cli (namespace * list string) :=
  ts ← classify argv;
  consume (length ts) ts defaults [].

(** ** run.py from the command line to the end of the queue *)

(** [args.dry] and [args.pick] as the loop reads them. *)
Definition cmd_args_of (ns : namespace) : cmd_args := mkArgs (ns_dry ns) (ns_pick ns).

(** [parser.load_from_yaml(yaml_path=args.exp, cmd_parameters=unknown_args,
    private_keys=("Global",))]: [tools/parser.py] is not in the repository;
    it returns the [Global] section, the queue, and whether the queue is a
    [YamlExperimentQueue], or raises. *)
Class QueueLoader := {
  load_from_yaml : exp_value -> list string -> result (list (string * yval) * list experiment * bool)
}.

Section Main.
Context `{ExperimentModule} `{QueueLoader}.

(** Lines 24-33, then the loop: parse the command line, load the queue with
    the unknown arguments, compute [use_slack] and run; an exception of the
    loader ends the script before the loop. *)
Definition run_py (argv : list string) (st : runner_state) : cli (runner_state * option exn) :=
  '(ns, unknown_args) ← parse_known_args argv;
  mret (match load_from_yaml (ns_exp ns) unknown_args with
        | Raise e => (st, Some e)
        | Ok (global, q, yaml_queue) =>
            run_main (cmd_args_of ns) (use_slack_of global) yaml_queue q st
        end).
End Main.

(** A loader that reads one entry, with notifications off, from any path. *)
Definition ex_loader : QueueLoader :=
  {| load_from_yaml _ _ := Ok ([("slack", YBool false)], [ex_exp "a" "modules.train"], false) |}.

(** ** Printing integers *)

(** [str(z)] for an integer: its decimal digits after a ['-'] when it is
    negative.  The digits of [n] number at most [Z.log2 n + 1], the fuel. *)
Definition digit_char (d : Z) : Ascii.ascii := Ascii.ascii_of_nat (48 + Z.to_nat d).

Fixpoint digits_of (fuel : nat) (n : Z) (acc : list Ascii.ascii) : list Ascii.ascii :=
  match fuel with
  | O => acc
  | S f => if (n <? 10)%Z then digit_char n :: acc
           else digits_of f (n / 10) (digit_char (n mod 10) :: acc)
  end.

Definition py_str (z : Z) : string :=
  String.string_of_list_ascii
    ((if (z <? 0)%Z then ["-"%char] else []) ++
     digits_of (S (Z.to_nat (Z.log2 (Z.abs z)))) (Z.abs z) []).

(** ** Lemmas: the monad *)

Lemma cli_bind_Done {A B} (a : A) (f : A -> cli B) : (Done a ≫= f) = f a.
Proof. reflexivity. Qed.

Lemma cli_bind_Exit {A B} c w (f : A -> cli B) : (Exit c w ≫= f) = Exit c w.
Proof. reflexivity. Qed.

#[export] Hint Rewrite @cli_bind_Done @cli_bind_Exit : cr_rw.

(** The monad's operations as the matches they are. *)
Ltac cli_unfold := unfold mret, mbind, fmap, cli_ret, cli_bind, cli_fmap, usage in *.

(** ** Lemmas: how far an option reads *)

Definition known_opt (t : token) : bool :=
  match t with TOpt (Some _) _ _ _ => true | _ => false end.

Lemma leading_args_le ts : leading_args ts <= length ts.
Proof. induction ts as [|[] ts IH]; simpl; lia. Qed.

(** Strings that end a run of arguments do not lengthen it. *)
Lemma leading_args_app ts tail :
  leading_args tail = 0 -> leading_args (ts ++ tail) = leading_args ts.
Proof. intros Ht. induction ts as [|[] ts IH]; simpl; auto. Qed.

Lemma match_following_le a follow n :
  match_following a follow = Done n -> n <= leading_args follow.
Proof. destruct a, follow as [|[]]; simpl; intros; cli_unfold; simplify_eq; lia. Qed.

Lemma match_following_app a follow tail :
  leading_args tail = 0 -> match_following a (follow ++ tail) = match_following a follow.
Proof.
  intros Ht. destruct a; simpl; auto.
  - destruct follow; simpl; [|done]. by destruct tail as [|[]].
  - by rewrite leading_args_app.
Qed.

Lemma take_following n follow tail :
  n <= leading_args follow -> take n (follow ++ tail) = take n follow.
Proof. pose proof (leading_args_le follow). intros. apply take_app_le. lia. Qed.

Lemma consume_explicit_le a os e follow tu n :
  consume_explicit a os e follow = Done (tu, n) -> n <= leading_args follow.
Proof.
  revert a os tu n. induction e as [|c e IH]; intros a os tu n; simpl; cli_unfold.
  - repeat case_match; intros; simplify_eq; lia.
  - repeat case_match; intros; simplify_eq; try lia.
    + by eapply match_following_le.
    + eapply IH. by cli_unfold.
Qed.

Lemma consume_explicit_app a os e follow tail :
  leading_args tail = 0 ->
  consume_explicit a os e (follow ++ tail) = consume_explicit a os e follow.
Proof.
  intros Ht. revert a os. induction e as [|c e IH]; intros a os; simpl; [done|].
  repeat case_match; try done; subst.
  - rewrite match_following_app by done.
    destruct (match_following _ follow) eqn:Hm; [|done]. simpl.
    by rewrite take_following by (by eapply match_following_le).
  - by rewrite IH.
Qed.

Lemma consume_optional_le a os e follow tu n :
  consume_optional a os e follow = Done (tu, n) -> n <= leading_args follow.
Proof.
  destruct e; simpl; [apply consume_explicit_le|].
  destruct (match_following a follow) eqn:Hm; intros; cli_unfold; simplify_eq.
  by eapply match_following_le.
Qed.

Lemma consume_optional_app a os e follow tail :
  leading_args tail = 0 ->
  consume_optional a os e (follow ++ tail) = consume_optional a os e follow.
Proof.
  intros Ht. destruct e; simpl; [by apply consume_explicit_app|].
  rewrite match_following_app by done.
  destruct (match_following a follow) eqn:Hm; [|done]. simpl.
  by rewrite take_following by (by eapply match_following_le).
Qed.

Lemma drop_following a os e follow tail tu n :
  consume_optional a os e follow = Done (tu, n) ->
  drop n (follow ++ tail) = drop n follow ++ tail.
Proof.
  intros Ho. apply consume_optional_le in Ho. pose proof (leading_args_le follow).
  apply drop_app_le. lia.
Qed.

(** ** Lemmas: the fuel of the loop *)

Lemma consume_fuel_S f ts ns ex :
  length ts <= f -> consume (S f) ts ns ex = consume f ts ns ex.
Proof.
  revert ts ns ex. induction f as [|f IH]; intros ts ns ex Hl.
  - destruct ts; simpl in *; [done | lia].
  - destruct ts as [|t ts]; [done|]. simpl in Hl.
    destruct t as [s| |[a|] os e raw]; cbn [consume]; try (apply IH; simpl; lia).
    destruct (consume_optional a os e ts) as [[tu n]|] eqn:Ho; [|done]. simpl.
    destruct (take_actions tu ns); [|done]. simpl. apply IH.
    apply consume_optional_le in Ho. pose proof (leading_args_le ts). rewrite length_drop. lia.
Qed.

(** Any fuel at least the number of strings gives the result of the loop
    that runs to the end. *)
Lemma consume_fuel f ts ns ex :
  length ts <= f -> consume f ts ns ex = consume (length ts) ts ns ex.
Proof. induction 1 as [|f Hf IH]; [done|]. by rewrite consume_fuel_S. Qed.

(** ** Lemmas: strings no option takes *)

(** Strings that are not options of the parser only go to the extras. *)
Lemma consume_extras f tail ns ex :
  Forall (fun t => known_opt t = false) tail -> length tail <= f ->
  consume f tail ns ex = Done (ns, ex ++ map token_str tail).
Proof.
  intros Ht. revert f ex. induction Ht as [|t tail Ht Hts IH]; intros f ex Hl.
  - destruct f; simpl; by rewrite app_nil_r.
  - destruct f as [|f]; simpl in Hl; [lia|].
    destruct t as [| |[]]; try discriminate; cbn [consume];
      rewrite IH by lia; by rewrite <- app_assoc.
Qed.

(** Appending strings that no option of the parser can read (the first is
    not an argument) and that are not options adds them to the extras and
    changes nothing else. *)
Lemma consume_app f ts tail ns ex :
  leading_args tail = 0 -> Forall (fun t => known_opt t = false) tail ->
  length (ts ++ tail) <= f ->
  consume f (ts ++ tail) ns ex =
    (fun '(ns', ex') => (ns', ex' ++ map token_str tail)) <$> consume f ts ns ex.
Proof.
  intros H0 Ht. revert ts ns ex. induction f as [|f IH]; intros ts ns ex Hl.
  - destruct ts, tail; simpl in *; try lia. cli_unfold. simpl. by rewrite app_nil_r.
  - destruct ts as [|t ts]; simpl in Hl.
    + rewrite (consume_extras (S f)) by done. done.
    + destruct t as [s| |[a|] os e raw]; cbn [consume app]; try (apply IH; lia).
      rewrite consume_optional_app by done.
      destruct (consume_optional a os e ts) as [[tu n]|] eqn:Ho; [|done]. simpl.
      destruct (take_actions tu ns); [|done]. simpl.
      rewrite (drop_following _ _ _ _ _ _ _ Ho). apply IH.
      apply consume_optional_le in Ho. pose proof (leading_args_le ts).
      rewrite length_app, length_drop in *. lia.
Qed.

(** [parse_known_args] in terms of the loop from a prefix of the strings,
    when the rest is appended. *)
Lemma parse_consume_app ts tail :
  leading_args tail = 0 -> Forall (fun t => known_opt t = false) tail ->
  consume (length (ts ++ tail)) (ts ++ tail) defaults [] =
    (fun '(ns', ex') => (ns', ex' ++ map token_str tail)) <$> consume (length ts) ts defaults [].
Proof.
  intros H0 Ht. rewrite consume_app by done.
  rewrite (consume_fuel (length (ts ++ tail))); [done|]. rewrite length_app. lia.
Qed.

(** ** Lemmas: classifying *)

(** The strings after the first ['--'] are arguments. *)
Lemma classify_sep argv ts :
  classify argv = Done ts -> "--" ∈ argv -> exists ts0 rest, ts = ts0 ++ TSep :: map TArg rest.
Proof.
  revert ts. induction argv as [|s argv IH]; intros ts Hc Hin; [set_solver|]. simpl in Hc.
  destruct (String.eqb_spec s "--") as [->|Hs].
  - cli_unfold. simplify_eq. by exists [], argv.
  - destruct (parse_optional s) as [t|]; [|discriminate]. cli_unfold; simpl in Hc.
    destruct (classify argv) as [ts'|]; [|discriminate]. simplify_eq.
    destruct (IH ts') as (ts0 & rest & ->); [done | set_solver|].
    by eexists (_ :: ts0), rest.
Qed.

(** A YAML override on the command line: [+key=value], a ['+'] and at
    least one more character, no space. *)
Definition plus_param (p : string) : bool :=
  match p with
  | String c (String _ _) => bool_decide (c = "+"%char) && negb (has_char " "%char p)
  | _ => false
  end.

Definition plus_tok (p : string) : token := TOpt None p None p.

Lemma lookup_action_plus s : lookup_action (String "+" s) = None.
Proof. reflexivity. Qed.

Lemma split_option_plus s : split_option (String "+" s) = None.
Proof. unfold split_option. simpl. by destruct (split_eq s) as [[]|]. Qed.

Lemma parse_optional_plus p : plus_param p = true -> parse_optional p = Done (Some (None, p, None)).
Proof.
  destruct p as [|c [|c1 s]]; simpl; try discriminate.
  case_bool_decide as Hc; [subst c|discriminate]. intros Hsp. apply negb_true_iff in Hsp.
  unfold parse_optional. rewrite lookup_action_plus, split_option_plus.
  simpl. destruct (is_prefix_char c1); simpl;
    [destruct (bool_decide (c1 = "="%char)); [|destruct (split_eq s) as [[]|]]|]; simpl;
    by rewrite Hsp.
Qed.

Lemma plus_param_not_sep p : plus_param p = true -> String.eqb p "--" = false.
Proof. destruct p as [|c [|c1 s]]; simpl; try discriminate. by case_bool_decide; [subst|]. Qed.

(** Overrides appended to the command line are classified as unknown
    options, or as arguments after a ['--']. *)
Lemma classify_app_plus argv ps :
  Forall (fun p => plus_param p = true) ps ->
  classify (argv ++ ps) =
    (fun ts => ts ++ if bool_decide ("--" ∈ argv) then map TArg ps else map plus_tok ps)
      <$> classify argv.
Proof.
  intros Hps. induction argv as [|s argv IH]; simpl.
  - induction Hps as [|p ps Hp Hps IHps]; [done|]. simpl.
    rewrite plus_param_not_sep, parse_optional_plus by done. rewrite IHps. done.
  - destruct (String.eqb_spec s "--") as [->|Hs].
    + rewrite bool_decide_true by set_solver. simpl. by rewrite map_app.
    + rewrite IH. destruct (parse_optional s); [|done]. cli_unfold; simpl.
      destruct (classify argv); [|done]. simpl. f_equal. f_equal.
      by rewrite (bool_decide_ext ("--" ∈ s :: argv) ("--" ∈ argv)) by set_solver.
Qed.

Lemma map_TArg_not_known l : Forall (fun t => known_opt t = false) (map TArg l).
Proof. apply Forall_map, Forall_true. done. Qed.

Lemma map_plus_not_known l : Forall (fun t => known_opt t = false) (map plus_tok l).
Proof. apply Forall_map, Forall_true. done. Qed.

#[export] Hint Resolve map_TArg_not_known map_plus_not_known : cr.

Lemma map_token_str_TArg l : map token_str (map TArg l) = l.
Proof. induction l; simpl; congruence. Qed.

Lemma map_token_str_plus l : map token_str (map plus_tok l) = l.
Proof. induction l; simpl; congruence. Qed.

(** ** Lemmas: digits *)

Lemma is_digit_cases c :
  is_digit c = true -> In c ["0"; "1"; "2"; "3"; "4"; "5"; "6"; "7"; "8"; "9"]%char.
Proof.
  unfold is_digit. intros H%bool_decide_eq_true.
  rewrite <- (Ascii.ascii_nat_embedding c).
  assert (Ascii.nat_of_ascii c = 48 \/ Ascii.nat_of_ascii c = 49 \/ Ascii.nat_of_ascii c = 50 \/
          Ascii.nat_of_ascii c = 51 \/ Ascii.nat_of_ascii c = 52 \/ Ascii.nat_of_ascii c = 53 \/
          Ascii.nat_of_ascii c = 54 \/ Ascii.nat_of_ascii c = 55 \/ Ascii.nat_of_ascii c = 56 \/
          Ascii.nat_of_ascii c = 57)%nat as Hc by lia.
  destruct_or! Hc; rewrite Hc; simpl; tauto.
Qed.

(** What a digit is not: a space, a prefix character, ['='], ['_'], a
    newline. *)
Lemma digit_facts c :
  is_digit c = true ->
  py_space c = false /\ is_prefix_char c = false /\ c <> "="%char /\ c <> "_"%char /\
  c <> "010"%char /\ c <> "-"%char /\ c <> "+"%char.
Proof. intros Hc%is_digit_cases. simpl in Hc. destruct_or! Hc; subst c; split_and!; done. Qed.

Lemma digit_char_spec d :
  (0 <= d <= 9)%Z -> is_digit (digit_char d) = true /\ digit_val (digit_char d) = d.
Proof.
  intros Hd. assert (d = 0 \/ d = 1 \/ d = 2 \/ d = 3 \/ d = 4 \/ d = 5 \/ d = 6 \/ d = 7 \/
                     d = 8 \/ d = 9)%Z as Hd' by lia.
  destruct_or! Hd'; subst d; split; reflexivity.
Qed.

Lemma digits_us_digit c l a :
  is_digit c = true -> digits_us (c :: l) a = digits_us l (a * 10 + digit_val c).
Proof.
  intros Hc. destruct (digit_facts c Hc) as (_ & _ & _ & Hu & _). simpl.
  by rewrite bool_decide_false, Hc by done.
Qed.

Lemma digits_of_digits f n acc :
  (0 <= n)%Z -> all_digits acc = true -> all_digits (digits_of f n acc) = true.
Proof.
  revert n acc. induction f as [|f IH]; intros n acc Hn Hacc; cbn [digits_of]; [done|].
  destruct (Z.ltb_spec n 10).
  - unfold all_digits in *. cbn [forallb].
    by rewrite (proj1 (digit_char_spec n ltac:(lia))), Hacc.
  - apply IH; [apply Z.div_pos; lia|]. unfold all_digits in *. cbn [forallb].
    rewrite (proj1 (digit_char_spec (n mod 10) ltac:(pose proof (Z.mod_pos_bound n 10); lia))).
    exact Hacc.
Qed.

Lemma digits_of_nonempty f n acc : (0 < f)%nat \/ acc <> [] -> digits_of f n acc <> [].
Proof.
  revert n acc. induction f as [|f IH]; intros n acc Hf; simpl; [destruct Hf; [lia|done]|].
  destruct (n <? 10)%Z; [done|]. apply IH. by right.
Qed.

(** With [Z.log2 n < fuel], [digits_of] writes all the digits of [n]. *)
Lemma log2_div10 n f : (10 <= n)%Z -> (Z.log2 n < Z.of_nat (S f))%Z -> (Z.log2 (n / 10) < Z.of_nat f)%Z.
Proof.
  intros Hn Hf. assert (Hm : (1 <= n / 10)%Z) by (apply Z.div_le_lower_bound; lia).
  assert (H2 : (2 * (n / 10) <= n)%Z) by (pose proof (Z.mul_div_le n 10); lia).
  apply Z.log2_le_mono in H2. rewrite Z.log2_double in H2 by lia. lia.
Qed.

Lemma digits_of_value f n acc a :
  (0 <= n)%Z -> (Z.log2 n < Z.of_nat f)%Z ->
  exists k, (0 <= k)%Z /\ digits_us (digits_of f n acc) a = digits_us acc (a * 10 ^ k + n).
Proof.
  revert n acc a. induction f as [|f IH]; intros n acc a Hn Hf.
  - pose proof (Z.log2_nonneg n). lia.
  - cbn [digits_of]. destruct (Z.ltb_spec n 10).
    + exists 1%Z. split; [lia|].
      destruct (digit_char_spec n ltac:(lia)) as [Hd Hv]. rewrite digits_us_digit, Hv by done.
      f_equal; lia.
    + destruct (IH (n / 10)%Z (digit_char (n mod 10)%Z :: acc) a) as (k & Hk & ->);
        [apply Z.div_pos; lia | by apply log2_div10|].
      pose proof (Z.mod_pos_bound n 10).
      destruct (digit_char_spec (n mod 10)%Z ltac:(lia)) as [Hd Hv].
      exists (k + 1)%Z. split; [lia|]. rewrite digits_us_digit, Hv by done. f_equal.
      rewrite Z.pow_add_r by lia. pose proof (Z.div_mod n 10 ltac:(lia)). lia.
Qed.

(** [str(z)]: a sign for a negative number, then digits that read back as
    [|z|]. *)
Lemma py_str_shape z :
  exists ds, py_str z = String.string_of_list_ascii ((if (z <? 0)%Z then ["-"%char] else []) ++ ds) /\
             ds <> [] /\ all_digits ds = true /\ digits_us ds 0 = Some (Z.abs z).
Proof.
  eexists. split; [reflexivity|].
  assert (Hf : (Z.log2 (Z.abs z) < Z.of_nat (S (Z.to_nat (Z.log2 (Z.abs z)))))%Z).
  { pose proof (Z.log2_nonneg (Z.abs z)). lia. }
  split_and!.
  - apply digits_of_nonempty. left. lia.
  - apply digits_of_digits; [lia | done].
  - destruct (digits_of_value _ (Z.abs z) [] 0 ltac:(lia) Hf) as (k & _ & ->). done.
Qed.

(** ** Lemmas: reading printed integers back *)

Lemma strip_id l : Forall (fun c => py_space c = false) l -> strip l = l.
Proof.
  intros Hl. unfold strip.
  assert (Hd : forall k, Forall (fun c => py_space c = false) k -> drop_while py_space k = k).
  { intros [|c k] Hk; [done|]. inversion Hk; subst. simpl. by rewrite H1. }
  rewrite (Hd l Hl), Hd; [apply reverse_involutive|]. by apply Forall_reverse.
Qed.

Lemma all_digits_Forall l : all_digits l = true -> Forall (fun c => is_digit c = true) l.
Proof.
  unfold all_digits. induction l as [|c l IH]; simpl; intros H; [constructor|].
  apply andb_true_iff in H as [? ?]. constructor; auto.
Qed.
Lemma decimal_digits ds : ds <> [] -> all_digits ds = true -> decimal ds = digits_us ds 0.
Proof.
  destruct ds as [|c ds]; [done|]. intros _ Hd. unfold all_digits in Hd. cbn [forallb] in Hd.
  apply andb_true_iff in Hd as [Hc _]. unfold decimal. by rewrite Hc.
Qed.

(** [int(str(z)) = z]. *)
Lemma py_int_py_str z : py_int (py_str z) = Some z.
Proof.
  destruct (py_str_shape z) as (ds & -> & Hne & Hd & Hv).
  unfold py_int. rewrite String.list_ascii_of_string_of_list_ascii.
  pose proof (all_digits_Forall _ Hd) as HF.
  rewrite strip_id.
  2:{ apply Forall_app; split; [destruct (z <? 0)%Z; repeat constructor|].
      eapply Forall_impl; [exact HF|]. intros c Hc. apply (digit_facts c Hc). }
  destruct ds as [|c ds']; [done|]. inversion HF as [|? ? Hc _]; subst.
  destruct (digit_facts c Hc) as (_ & _ & _ & _ & _ & Hm & Hp).
  rewrite <- decimal_digits in Hv by done.
  destruct (Z.ltb_spec z 0); cbn [app].
  - rewrite bool_decide_true, Hv by done. simpl. f_equal; lia.
  - rewrite !bool_decide_false, Hv by done. f_equal; lia.
Qed.

Lemma lookup_action_neg c s : is_digit c = true -> lookup_action (String "-" (String c s)) = None.
Proof. intros Hc%is_digit_cases. simpl in Hc. by destruct_or! Hc; subst c. Qed.

Lemma get_option_tuples_neg c s :
  is_digit c = true -> get_option_tuples (String "-" (String c s)) = Done [].
Proof. intros Hc%is_digit_cases. simpl in Hc. by destruct_or! Hc; subst c. Qed.

Lemma split_option_none l :
  Forall (fun c => c <> "="%char) l -> split_option (String.string_of_list_ascii l) = None.
Proof.
  intros Hl. unfold split_option.
  enough (split_eq (String.string_of_list_ascii l) = None) as -> by done.
  induction Hl as [|c l Hc Hl IH]; [done|]. simpl. by rewrite bool_decide_false, IH.
Qed.

Lemma strip_final_newline_id l :
  Forall (fun c => c <> "010"%char) l -> strip_final_newline l = l.
Proof.
  intros Hl. unfold strip_final_newline. destruct (reverse l) as [|c r] eqn:E; [done|].
  rewrite bool_decide_false; [done|]. rewrite Forall_forall in Hl. apply Hl.
  rewrite <- elem_of_reverse, E. left.
Qed.

Lemma negative_number_digits ds :
  ds <> [] -> all_digits ds = true -> negative_number (String.string_of_list_ascii ("-"%char :: ds)) = true.
Proof.
  intros Hne Hd. unfold negative_number. rewrite String.list_ascii_of_string_of_list_ascii.
  rewrite strip_final_newline_id.
  - rewrite bool_decide_true by done. simpl. by rewrite bool_decide_true, Hd.
  - eapply Forall_impl; [exact (all_digits_Forall _ Hd)|]. intros c Hc. apply (digit_facts c Hc).
Qed.

(** A printed integer is an argument ('A'), negative ones included: no
    option of the parser looks like a negative number. *)
Lemma parse_optional_py_str z : parse_optional (py_str z) = Done None.
Proof.
  destruct (py_str_shape z) as (ds & -> & Hne & Hd & _).
  pose proof (all_digits_Forall _ Hd) as HF.
  destruct ds as [|c ds']; [done|]. inversion HF as [|? ? Hc HF']; subst.
  destruct (digit_facts c Hc) as (_ & Hpc & _).
  destruct (z <? 0)%Z.
  - pose proof (negative_number_digits (c :: ds') Hne Hd) as Hn.
    assert (Hs : split_option (String.string_of_list_ascii ("-"%char :: c :: ds')) = None).
    { apply split_option_none. repeat constructor; [done | apply (digit_facts c Hc)|].
      eapply Forall_impl; [exact HF'|]. intros x Hx. apply (digit_facts x Hx). }
    cbn [app String.string_of_list_ascii] in Hs, Hn |- *.
    unfold parse_optional. rewrite lookup_action_neg, Hs, get_option_tuples_neg by done.
    rewrite bool_decide_false by (simpl; lia). by rewrite cli_bind_Done, Hn.
  - cbn [app String.string_of_list_ascii]. unfold parse_optional. by rewrite Hpc.
Qed.

Lemma py_str_not_sep z : String.eqb (py_str z) "--" = false.
Proof.
  destruct (py_str_shape z) as (ds & -> & Hne & Hd & _).
  pose proof (all_digits_Forall _ Hd) as HF.
  destruct ds as [|c ds']; [done|]. inversion HF as [|? ? Hc _]; subst.
  destruct (digit_facts c Hc) as (_ & _ & _ & _ & _ & Hm & _).
  apply String.eqb_neq. destruct (z <? 0)%Z; simpl; [|destruct ds'; simpl]; congruence.
Qed.

(** ** Lemmas: the strings [--pick] reads *)

Lemma classify_cons s l :
  String.eqb s "--" = false ->
  classify (s :: l) = (t ← parse_optional s; ts ← classify l;
                       mret (match t with None => TArg s | Some (a, os, e) => TOpt a os e s end :: ts)).
Proof. intros H. cbn [classify]. by rewrite H. Qed.

(** Strings that are arguments are classified one by one. *)
Lemma classify_args l :
  Forall (fun s => String.eqb s "--" = false /\ parse_optional s = Done None) l ->
  classify l = Done (map TArg l).
Proof.
  induction 1 as [|s l [Hs Hp] _ IH]; [done|]. simpl.
  by rewrite Hs, Hp, cli_bind_Done, IH.
Qed.

Lemma classify_py_str zs : classify (map py_str zs) = Done (map TArg (map py_str zs)).
Proof.
  apply classify_args, Forall_map, Forall_forall. intros z _.
  split; [apply py_str_not_sep | apply parse_optional_py_str].
Qed.

Lemma remove_sep_id l : Forall (fun s => String.eqb s "--" = false) l -> remove_sep l = l.
Proof.
  intros Hl. unfold remove_sep. rewrite (proj2 (list_find_None _ _)); [done|].
  eapply Forall_impl; [exact Hl|]. intros s Hs ->. discriminate.
Qed.

Lemma mapM_pick_value zs : mapM pick_value (map py_str zs) = Done zs.
Proof.
  induction zs as [|z zs IH]; [done|]. cbn [map mapM]. rewrite IH.
  unfold pick_value at 1. by rewrite py_int_py_str.
Qed.

Lemma take_action_pick zs ns :
  take_action APick (map py_str zs) ns = Done (NS (ns_dry ns) (ns_exp ns) (Some zs)).
Proof.
  unfold take_action. rewrite remove_sep_id, mapM_pick_value; [done|].
  apply Forall_map, Forall_forall. intros z _. apply py_str_not_sep.
Qed.

(** An action that takes one argument takes the explicit one, whatever
    follows. *)
Lemma consume_explicit_one a os e follow :
  explicit_count a = 1 -> consume_explicit a os e follow = Done ([(a, [e])], 0).
Proof.
  intros Ha. destruct e; simpl; rewrite Ha; reflexivity.
Qed.

(** ** Lemmas: [--dry] *)

(** No action clears [dry]. *)
Lemma take_action_keeps_dry a args ns ns' :
  take_action a args ns = Done ns' -> ns_dry ns = true -> ns_dry ns' = true.
Proof.
  destruct a; simpl; cli_unfold; intros H; try discriminate; try (simplify_eq; done).
  destruct (mapM _ _); simplify_eq. done.
Qed.

Lemma take_actions_keeps_dry tu ns ns' :
  take_actions tu ns = Done ns' -> ns_dry ns = true -> ns_dry ns' = true.
Proof.
  revert ns. induction tu as [|[a args] tu IH]; intros ns; simpl; cli_unfold; [congruence|].
  destruct (take_action a args ns) as [ns1|] eqn:Ht; [|discriminate].
  intros H Hd. eapply IH; [exact H|]. by eapply take_action_keeps_dry.
Qed.

Lemma consume_keeps_dry f ts ns ex ns' ex' :
  consume f ts ns ex = Done (ns', ex') -> ns_dry ns = true -> ns_dry ns' = true.
Proof.
  revert ts ns ex. induction f as [|f IH]; intros ts ns ex; simpl; cli_unfold; [congruence|].
  destruct ts as [|[s| |[a|] os e raw] ts]; try (by intros; simplify_eq); try apply IH.
  destruct (consume_optional a os e ts) as [[tu n]|]; [|discriminate].
  destruct (take_actions tu ns) as [ns1|] eqn:Ht; [|discriminate].
  intros H Hd. eapply IH; [exact H|]. by eapply take_actions_keeps_dry.
Qed.

(** Every option the loop meets is taken, whatever precedes it: an option
    only reads arguments, never another option. *)
Lemma consume_dry_token f ts1 ts2 ns ex ns' ex' :
  length (ts1 ++ TOpt (Some ADry) "--dry" None "--dry" :: ts2) <= f ->
  consume f (ts1 ++ TOpt (Some ADry) "--dry" None "--dry" :: ts2) ns ex = Done (ns', ex') ->
  ns_dry ns' = true.
Proof.
  revert ts1 ns ex. induction f as [|f IH]; intros ts1 ns ex Hl; [rewrite length_app in Hl; simpl in Hl; lia|].
  destruct ts1 as [|t ts1]; simpl.
  - cli_unfold. simpl. intros H. eapply consume_keeps_dry; [exact H | done].
  - simpl in Hl. destruct t as [s| |[a|] os e raw]; try (apply IH; lia).
    destruct (consume_optional a os e _) as [[tu n]|] eqn:Ho; [|discriminate]. simpl.
    destruct (take_actions tu ns) as [ns1|]; [|discriminate]. simpl.
    assert (Hn : n <= length ts1).
    { apply consume_optional_le in Ho. rewrite leading_args_app in Ho by done.
      pose proof (leading_args_le ts1). lia. }
    rewrite drop_app_le by done. apply IH. rewrite !length_app, length_drop in *. simpl in *. lia.
Qed.

(** Before the first ['--'], the string [--dry] is classified as the option. *)
Lemma classify_dry argv1 argv2 ts :
  "--" ∉ argv1 -> classify (argv1 ++ "--dry" :: argv2) = Done ts ->
  exists ts1 ts2, ts = ts1 ++ TOpt (Some ADry) "--dry" None "--dry" :: ts2.
Proof.
  revert ts. induction argv1 as [|s argv1 IH]; intros ts Hs; simpl.
  - cli_unfold. simpl. destruct (classify argv2) as [ts2|]; intros; simplify_eq. by exists [], ts2.
  - rewrite (proj2 (String.eqb_neq s "--")) by set_solver.
    destruct (parse_optional s); [|discriminate]. cli_unfold. simpl.
    destruct (classify (argv1 ++ _)) as [l|] eqn:Hc; [|discriminate]. intros; simplify_eq.
    destruct (IH l) as (ts1 & ts2 & ->); [set_solver | done |].
    by eexists (_ :: ts1), ts2.
Qed.

Lemma finish_fs use_slack yaml_queue st : rs_fs (finish use_slack yaml_queue st) = rs_fs st.
Proof. unfold finish. by repeat case_match. Qed.

(** [--pick] followed by printed integers, all of them read. *)
Lemma parse_pick (zs : list Z) :
  parse_known_args ("--pick" :: map py_str zs) =
    Done (NS false (ExpStr "experiment.yaml") (Some zs), []).
Proof.
  unfold parse_known_args. rewrite classify_cons by reflexivity.
  assert (Hp : parse_optional "--pick" = Done (Some (Some APick, "--pick", None))) by reflexivity.
  rewrite Hp, cli_bind_Done, classify_py_str, !cli_bind_Done. cbn [length consume].
  cbn [consume_optional match_following]. rewrite cli_bind_Done.
  assert (Hl : leading_args (map TArg (map py_str zs)) = length (map py_str zs)).
  { by induction (map py_str zs) as [|? ? IH]; simpl; rewrite ?IH. }
  rewrite Hl, take_ge, map_token_str_TArg by (rewrite length_map; lia).
  unfold mret at 1, cli_ret at 1. rewrite cli_bind_Done. cbn [take_actions].
  rewrite take_action_pick, cli_bind_Done, drop_ge by (rewrite length_map; lia).
  by destruct (length (map TArg (map py_str zs))).
Qed.

(** ** Theorems *)

(** C11: [+key=value] overrides given on the command line, wherever the
    command line is cut, never change [dry], [exp] or [pick] and reach
    [load_from_yaml] as [unknown_args] in their order after the other
    unknown strings; a command line that fails to parse fails the same way
    with them. *)
Theorem plus_params_pass_through (argv ps : list string) :
  Forall (fun p => plus_param p = true) ps ->
  parse_known_args (argv ++ ps) =
    (fun '(ns, ex) => (ns, ex ++ ps)) <$> parse_known_args argv.
Proof.
  intros Hps. unfold parse_known_args. rewrite classify_app_plus by done.
  destruct (classify argv) as [ts|] eqn:Hc; [|done]. cli_unfold. simpl.
  case_bool_decide as Hsep.
  - destruct (classify_sep _ _ Hc Hsep) as (ts0 & rest & ->).
    rewrite <- app_assoc, <- !app_comm_cons, <- map_app.
    rewrite !parse_consume_app by (done || constructor; auto with cr).
    destruct (consume _ ts0 _ _) as [[]|]; [|done]. simpl.
    by rewrite !map_token_str_TArg, <- app_assoc.
  - rewrite parse_consume_app by (first [by destruct ps | auto with cr]). cli_unfold.
    destruct (consume _ ts _ _) as [[]|]; [|done]. simpl. by rewrite map_token_str_plus.
Qed.

(** C12: printing integers and passing them after [--pick] gives them back:
    [run.py --pick z1 ... zn] parses to [pick = [z1; ...; zn]], the other
    options at their defaults and no unknown argument, for every list of
    integers, negative ones included ([-3] is an argument, not an option). *)
Theorem parse_pick_roundtrip (zs : list Z) :
  parse_known_args ("--pick" :: map py_str zs) =
    Done (NS false (ExpStr "experiment.yaml") (Some zs), []).
Proof. apply parse_pick. Qed.

(** C13: [--pick=z] takes only [z]: the integers after it are not read by
    [--pick] but returned as unknown arguments (and handed to
    [load_from_yaml]), unlike [--pick z1 z2]. *)
Theorem pick_explicit_takes_one (z : Z) (zs : list Z) :
  parse_known_args (String.append "--pick=" (py_str z) :: map py_str zs) =
    Done (NS false (ExpStr "experiment.yaml") (Some [z]), map py_str zs).
Proof.
  unfold parse_known_args. rewrite classify_cons by reflexivity.
  assert (Hp : parse_optional (String.append "--pick=" (py_str z)) =
               Done (Some (Some APick, "--pick", Some (py_str z)))) by reflexivity.
  rewrite Hp.
  rewrite cli_bind_Done, classify_py_str, !cli_bind_Done. cbn [length consume consume_optional].
  rewrite consume_explicit_one by done. rewrite cli_bind_Done. cbn [take_actions].
  rewrite (take_action_pick [z]). simpl mbind. rewrite drop_0.
  rewrite consume_extras by (auto with cr || lia).
  by rewrite map_token_str_TArg.
Qed.

(** C21: [run.py --dry], with [--dry] anywhere before a ['--'] and any
    other options and overrides around it, writes no file: the flag is set
    whatever the rest of the command line says, and a dry loop only lists
    the entries; a loader that raises stops the script before the loop. *)
Theorem run_py_dry_writes_nothing `{ExperimentModule} `{QueueLoader} (argv1 argv2 : list string)
    (st st' : runner_state) (r : option exn) :
  "--" ∉ argv1 ->
  run_py (argv1 ++ "--dry" :: argv2) st = Done (st', r) -> rs_fs st' = rs_fs st.
Proof.
  intros Hs. unfold run_py, parse_known_args.
  destruct (classify _) as [ts|] eqn:Hc; [|discriminate]. rewrite cli_bind_Done.
  destruct (consume _ ts _ _) as [[ns unk]|] eqn:Hcs; [|discriminate].
  assert (Hd : ns_dry ns = true).
  { destruct (classify_dry _ _ _ Hs Hc) as (ts1 & ts2 & ->). by eapply consume_dry_token. }
  cli_unfold. destruct (load_from_yaml _ _) as [[[global q] yq]|e]; intros; simplify_eq; [|done].
  unfold run_main in *.
  destruct (run_queue_dry (cmd_args_of ns) (use_slack_of global) 0 q st Hd) as (st1 & Hq & Hf).
  rewrite Hq in *. simplify_eq. by rewrite finish_fs.
Qed.

(** C16: [run.py --pick z1 ... zn] (n > 0) loads the queue with no
    unknown argument and does to the logs, the reports and the queue what
    a run without [--pick] does on the entries whose index is one of the
    [zi], ending with the same exception. *)
Theorem run_py_pick_sub_queue `{ExperimentModule} `{QueueLoader} (zs : list Z) (st : runner_state)
    (global : list (string * yval)) (q : list experiment) (yaml_queue : bool) :
  zs <> [] ->
  load_from_yaml (ExpStr "experiment.yaml") [] = Ok (global, q, yaml_queue) ->
  exists r, run_py ("--pick" :: map py_str zs) st = Done r /\
    run_equiv r (run_main (mkArgs false None) (use_slack_of global) yaml_queue (pick_queue zs 0 q) st).
Proof.
  intros Hz Hl. unfold run_py. rewrite parse_pick, cli_bind_Done. cli_unfold. cbn [ns_exp]. rewrite Hl.
  eexists; split; [reflexivity|]. apply run_main_equiv, run_queue_pick; [done | reflexivity].
Qed.

(** ** Witnesses *)

Lemma plus_params_pass_through_witness :
  Forall (fun p => plus_param p = true) ["+lr=0.1"; "+Name=x"] /\
  parse_known_args (["--pick"; "1"] ++ ["+lr=0.1"; "+Name=x"]) =
    (fun '(ns, ex) => (ns, ex ++ ["+lr=0.1"; "+Name=x"])) <$> parse_known_args ["--pick"; "1"].
Proof.
  split; [repeat constructor|].
  apply plus_params_pass_through. repeat constructor.
Defined.

Lemma run_py_dry_writes_nothing_witness :
  exists st' r, "--" ∉ ["--exp=q.yaml"] /\
    @run_py ex_module ex_loader (["--exp=q.yaml"] ++ "--dry" :: ["+x=1"]) ex_rs0 = Done (st', r) /\
    rs_fs st' = rs_fs ex_rs0.
Proof.
  destruct (@run_py ex_module ex_loader (["--exp=q.yaml"] ++ "--dry" :: ["+x=1"]) ex_rs0)
    as [[st' r]|c w] eqn:E; [|vm_compute in E; discriminate].
  assert (Hs : "--" ∉ ["--exp=q.yaml"]) by (intros Hin; apply list_elem_of_singleton in Hin; discriminate).
  exists st', r. split_and!; [exact Hs | reflexivity |].
  exact (@run_py_dry_writes_nothing ex_module ex_loader ["--exp=q.yaml"] ["+x=1"] ex_rs0 st' r Hs E).
Defined.

Lemma run_py_pick_sub_queue_witness :
  ([0; 2]%Z <> [] /\
   @load_from_yaml ex_loader (ExpStr "experiment.yaml") [] =
     Ok ([("slack", YBool false)], [ex_exp "a" "modules.train"], false)) /\
  exists r, @run_py ex_module ex_loader ("--pick" :: map py_str [0; 2]%Z) ex_rs0 = Done r /\
    run_equiv r (@run_main ex_module (mkArgs false None) (use_slack_of [("slack", YBool false)]) false
                   (pick_queue [0; 2]%Z 0 [ex_exp "a" "modules.train"]) ex_rs0).
Proof.
  split; [split; [discriminate | reflexivity]|].
  apply (@run_py_pick_sub_queue ex_module ex_loader [0; 2]%Z ex_rs0); [discriminate | reflexivity].
Defined.

